(** * IDF_Converter: the extraction, tabular writing, validation and update
      engines of [idf_processor.py] and [idf_updater.py], embedded and verified.

    The two object libraries the program drives (the model-object library
    that parses model text, and the data-frame library that reads and writes
    spreadsheet containers) are represented by the values they hand to the
    program: an object graph and a workbook of data frames.  Everything the
    program itself does with those values is translated function by
    function.

    A Python text is a sequence of code points.  The texts of this
    embedding are those over the code points below 256, one code point per
    character: a character of [string] stands for the code point of its
    number, not for a byte of an encoding.  The character classes of
    Python ([str.isalnum], the white space of [str.strip] and of the
    pattern class for white space, the pattern class for digits,
    [str.upper]) are given on all 256 of them.  The texts written out in
    this file are texts of ASCII, where a literal is the sequence of its
    own code points. *)

From Stdlib Require Import ZArith Ascii String.
From stdpp Require Import base tactics option list strings pretty sorting.

Local Open Scope stdpp_scope.

(** ** Python values *)

(** The values that occur in object fields and in spreadsheet cells: text,
    integers, and the missing-cell marker of the data-frame library.
    Floating-point fields other than the marker are outside this
    embedding. *)
Inductive pyval : Type :=
  | PyStr (s : string)
  | PyInt (z : Z)
  | PyNaN.

Global Instance pyval_eq_dec : EqDecision pyval.
Proof. solve_decision. Defined.

(** [str(v)] *)
Definition str (v : pyval) : string :=
  match v with
  | PyStr s => s
  | PyInt z => pretty z
  | PyNaN => "nan"
  end.

(** [a == b]: text equals text, integer equals integer, the missing-cell
    marker equals nothing, itself included. *)
Definition py_eq (a b : pyval) : bool :=
  match a, b with
  | PyStr s, PyStr t => bool_decide (s = t)
  | PyInt x, PyInt y => bool_decide (x = y)
  | _, _ => false
  end.
Global Arguments py_eq !a !b / : assert.

(** [x in names] for a list of strings. *)
Definition py_in (x : pyval) (names : list string) : bool :=
  existsb (fun n => py_eq (PyStr n) x) names.

(** [names.index(x)], [None] standing for [ValueError]. *)
Fixpoint py_index (x : pyval) (names : list string) : option nat :=
  match names with
  | [] => None
  | n :: rest => if py_eq (PyStr n) x then Some 0
                 else S <$> py_index x rest
  end.

(** ** Dictionaries in insertion order *)

Module Dict.
Definition t (V : Type) : Type := list (string * V).

Section ops.
Context {V : Type}.

(** [d.get(k)] *)
Fixpoint get (d : t V) (k : string) : option V :=
  match d with
  | [] => None
  | (k', v) :: rest => if bool_decide (k' = k) then Some v else get rest k
  end.

(** [k in d] *)
Definition contains (d : t V) (k : string) : bool :=
  match get d k with Some _ => true | None => false end.

(** [d[k] = v]: an existing key keeps its place, a new one goes last. *)
Fixpoint set (d : t V) (k : string) (v : V) : t V :=
  match d with
  | [] => [(k, v)]
  | (k', v') :: rest =>
      if bool_decide (k' = k) then (k', v) :: rest
      else (k', v') :: set rest k v
  end.

(** [d.keys()] *)
Definition keys (d : t V) : list string := d.*1.
End ops.
End Dict.

(** ** The object graph *)

(** One object instance as the program sees it: [obj.fieldnames], the
    schema's ordered field names for the object's type, and [obj.obj], the
    populated values in the same order. *)
Record EpBunch : Type := mkEpBunch {
  fieldnames : list string;
  obj : list pyval
}.

(** [hasattr(obj, 'Name')]: the attribute exists when the schema names such
    a field. *)
Definition hasattr_Name (o : EpBunch) : bool :=
  py_in (PyStr "Name") (fieldnames o).

(** [obj.Name]: the value at the position of the field called Name; a
    position past the populated values reads as the empty text. *)
Definition Name (o : EpBunch) : pyval :=
  match py_index (PyStr "Name") (fieldnames o) with
  | Some i => default (PyStr "") (obj o !! i)
  | None => PyStr ""
  end.

(** [idf.idfobjects]: object type to its instances, in graph order. *)
Definition IDF : Type := Dict.t (list EpBunch).

(** What a call into one of the two libraries hands back: the value, or an
    exception with its message. *)
Inductive loaded (A : Type) : Type :=
  | Raised (msg : string)
  | Loaded (a : A).
Arguments Raised {A} msg.
Arguments Loaded {A} a.

(** ** idf_processor.extract_idf_data *)

(** A flat record is a Python dict literal. *)
Definition record : Type := Dict.t pyval.

Definition flat_record (o : EpBunch) (field_name : string)
    (field_value : pyval) : record :=
  [ ("ObjectName", if hasattr_Name o then Name o else PyStr "N/A");
    ("FieldName", PyStr field_name);
    ("Value", PyStr (str field_value));
    ("Unit", PyStr "") ].

(** [for i, field_value in enumerate(obj_list): if i < len(field_names): ...]
    started at index [i]. *)
Fixpoint object_records (o : EpBunch) (i : nat) (obj_list : list pyval)
    : list record :=
  match obj_list with
  | [] => []
  | field_value :: rest =>
      match fieldnames o !! i with
      | Some field_name =>
          flat_record o field_name field_value :: object_records o (S i) rest
      | None => object_records o (S i) rest
      end
  end.

(** The body of [for obj in objects]. *)
Definition objects_records (objects : list EpBunch) : list record :=
  concat (map (fun o => object_records o 0 (obj o)) objects).

(** [for obj_type in idf.idfobjects.keys()], accumulating
    [all_sheets_data]. *)
Fixpoint extract_types (idf : IDF) (obj_types : list string)
    (all_sheets_data : Dict.t (list record)) : Dict.t (list record) :=
  match obj_types with
  | [] => all_sheets_data
  | obj_type :: rest =>
      let all_sheets_data' :=
        match Dict.get idf obj_type with
        | Some ((_ :: _) as objects) =>
            match objects_records objects with
            | [] => all_sheets_data
            | object_data => Dict.set all_sheets_data obj_type object_data
            end
        | _ => all_sheets_data
        end in
      extract_types idf rest all_sheets_data'
  end.

(** [extract_idf_data]: [None] when the model-object library raised. *)
Definition extract_idf_data (parsed : loaded IDF)
    : option (Dict.t (list record)) :=
  match parsed with
  | Raised _ => None
  | Loaded idf => Some (extract_types idf (Dict.keys idf) [])
  end.

(** ** Data frames and the spreadsheet container *)

(** A data frame: its column labels and its rows, each row holding one cell
    per column. *)
Record DataFrame : Type := mkDataFrame {
  columns : list string;
  rows : list (list pyval)
}.

(** [df.empty]: some axis has length zero. *)
Definition df_empty (df : DataFrame) : bool :=
  match columns df, rows df with
  | [], _ | _, [] => true
  | _, _ => false
  end.

(** [row[col]]; a row shorter than the header reads as missing cells. *)
Definition cell (df : DataFrame) (row : list pyval) (col : string) : pyval :=
  match py_index (PyStr col) (columns df) with
  | Some i => default PyNaN (row !! i)
  | None => PyNaN
  end.

(** Column labels of [pd.DataFrame(data)] for a list of dicts: the keys in
    order of first appearance. *)
Fixpoint add_new_keys (seen : list string) (ks : list string) : list string :=
  match ks with
  | [] => seen
  | k :: rest =>
      add_new_keys (if bool_decide (k ∈ seen) then seen else seen ++ [k]) rest
  end.

Definition frame_columns (data : list record) : list string :=
  foldl (fun seen r => add_new_keys seen (Dict.keys r)) [] data.

(** [pd.DataFrame(data)] *)
Definition DataFrame_of (data : list record) : DataFrame :=
  let cols := frame_columns data in
  {| columns := cols;
     rows := map (fun r => map (fun c => default PyNaN (Dict.get r c)) cols)
                 data |}.

(** ** idf_processor.write_data_to_excel *)

(** [lo <= n <= hi] *)
Definition between (lo hi n : nat) : bool := (lo <=? n) && (n <=? hi).

(** [c.isalnum()]: the digits and letters of ASCII and, past them, the
    letters (ordinal indicators, micro sign, accented letters) and the
    numeric characters (superscript digits, vulgar fractions) among the code
    points 128 to 255. *)
Definition isalnum (c : ascii) : bool :=
  let n := nat_of_ascii c in
  between 48 57 n || between 65 90 n || between 97 122 n
  || (n =? 170) || between 178 179 n || (n =? 181) || between 185 186 n
  || between 188 190 n || between 192 214 n || between 216 246 n
  || between 248 255 n.

(** [c.isspace()], which is also the white space that [str.strip] removes
    and that the pattern class for white space matches: tab to carriage
    return, the four separators, the space, next line (133) and the
    no-break space (160). *)
Definition isspace (c : ascii) : bool :=
  let n := nat_of_ascii c in
  between 9 13 n || between 28 32 n || (n =? 133) || (n =? 160).

(** [''.join(c for c in s if keep(c))] *)
Fixpoint join_if (keep : ascii -> bool) (s : string) : string :=
  match s with
  | EmptyString => EmptyString
  | String c s' => if keep c then String c (join_if keep s') else join_if keep s'
  end.

(** [s.rstrip()] *)
Fixpoint rstrip (s : string) : string :=
  match s with
  | EmptyString => EmptyString
  | String c s' =>
      match rstrip s' with
      | EmptyString => if isspace c then EmptyString else String c EmptyString
      | r => String c r
      end
  end.

(** [s.lstrip()] *)
Fixpoint lstrip (s : string) : string :=
  match s with
  | EmptyString => EmptyString
  | String c s' => if isspace c then lstrip s' else s
  end.

(** [s.strip()] *)
Definition strip (s : string) : string := rstrip (lstrip s).

(** [c.upper()] for one character: the small letters of ASCII and the
    accented small letters move down by 32, the sharp s (223) becomes SS.
    The capitals of the micro sign (181) and of y with diaeresis (255) lie
    past code point 255; both are left in place here, and a text that
    holds either is the upper case of no text. *)
Definition upper_char (c : ascii) : string :=
  let n := nat_of_ascii c in
  if between 97 122 n || between 224 246 n || between 248 254 n
  then String (ascii_of_nat (n - 32)) EmptyString
  else if n =? 223 then "SS"
  else String c EmptyString.

(** [s.upper()] *)
Fixpoint upper (s : string) : string :=
  match s with
  | EmptyString => EmptyString
  | String c s' => upper_char c +:+ upper s'
  end.

(** The sanitised worksheet name:
    [''.join(c for c in obj_type if c.isalnum() or c in (' ', '_')).rstrip()[:31]] *)
Definition sheet_name_of (obj_type : string) : string :=
  String.substring 0 31
    (rstrip (join_if (fun c => isalnum c || bool_decide (c = " "%char)
                               || bool_decide (c = "_"%char)) obj_type)).

(** [{'ObjectType': obj_type, **record}] *)
Definition tagged_record (obj_type : string) (r : record) : record :=
  foldl (fun d kv => Dict.set d kv.1 kv.2) [("ObjectType", PyStr obj_type)] r.

(** What the function prints, line by line. *)
Inductive line : Type :=
  | NoDataLine                                  (* No data provided ... *)
  | RecordsLine (label : string) (n : nat)      (*   - label: n records *)
  | SuccessLine (path : string)                 (* Success! Data saved to ... *)
  | TotalLine (n : nat)                         (* Total n worksheets ... *)
  | ErrorLine (e : string).                     (* An error occurred ...: e *)

(** What the data-frame library answers to the calls of the function:
    to opening the container ([pd.ExcelWriter(...)]), to each [to_excel]
    call, given the calls that returned before it, and to closing the
    container at the end of the [with] block.  Each of them returns or
    raises. *)
Record ExcelWriter : Type := mkExcelWriter {
  open_writer : loaded unit;
  write_sheet : list (string * DataFrame) → string * DataFrame → loaded unit;
  close_writer : list (string * DataFrame) → loaded unit
}.

(** The observable effect of one call of the function: the [to_excel]
    calls that returned, in order, each with its sheet name and frame, and
    the printed lines.  A sheet name may occur in several calls: the trace
    lists calls, not the sheets of the container. *)
Record written : Type := mkWritten {
  to_excel : list (string * DataFrame);
  printed : list line
}.

(** The [to_excel] calls the function makes when none raises, each with
    the line printed after it: ALL first, when there is any record, then
    the object types in data order, when individual sheets are asked for. *)
Definition plan (data : Dict.t (list record))
    (include_individual_sheets : bool)
    : list ((string * DataFrame) * line) :=
  let all_data :=
    concat (map (fun item => map (tagged_record item.1) item.2) data) in
  (match all_data with
   | [] => []
   | _ => [(("ALL", DataFrame_of all_data),
            RecordsLine "ALL" (length all_data))]
   end) ++
  (if include_individual_sheets
   then map (fun item => ((sheet_name_of item.1, DataFrame_of item.2),
                          RecordsLine item.1 (length item.2))) data
   else []).

(** The calls of a plan, one after the other; the first that raises ends
    the [with] block with its exception. *)
Fixpoint issue_calls (writer : ExcelWriter)
    (calls : list (string * DataFrame)) (lines : list line)
    (todo : list ((string * DataFrame) * line)) : written * option string :=
  match todo with
  | [] => ({| to_excel := calls; printed := lines |}, None)
  | (call, printed_after) :: rest =>
      match write_sheet writer calls call with
      | Loaded _ =>
          issue_calls writer (calls ++ [call]) (lines ++ [printed_after]) rest
      | Raised e => ({| to_excel := calls; printed := lines |}, Some e)
      end
  end.

(** The [try] block of [write_data_to_excel].  Every exception of the
    block is caught and printed; the success lines are printed only when
    the [with] block was left without one. *)
Definition write_sheets (writer : ExcelWriter) (data : Dict.t (list record))
    (output_excel_path : string) (include_individual_sheets : bool) : written :=
  match open_writer writer with
  | Raised e => {| to_excel := []; printed := [ErrorLine e] |}
  | Loaded _ =>
      let total_sheets :=
        1 + (if include_individual_sheets then length data else 0) in
      match issue_calls writer [] [] (plan data include_individual_sheets) with
      | (w, Some e) =>
          {| to_excel := to_excel w; printed := printed w ++ [ErrorLine e] |}
      | (w, None) =>
          match close_writer writer (to_excel w) with
          | Raised e =>
              {| to_excel := to_excel w; printed := printed w ++ [ErrorLine e] |}
          | Loaded _ =>
              {| to_excel := to_excel w;
                 printed :=
                   printed w ++ [SuccessLine output_excel_path;
                                 TotalLine total_sheets] |}
          end
      end
  end.

(** [write_data_to_excel]: nothing is done for data that is [None] or
    empty. *)
Definition write_data_to_excel (writer : ExcelWriter)
    (all_sheets_data : option (Dict.t (list record)))
    (output_excel_path : string) (include_individual_sheets : bool) : written :=
  match all_sheets_data with
  | None | Some [] => {| to_excel := []; printed := [NoDataLine] |}
  | Some data =>
      write_sheets writer data output_excel_path include_individual_sheets
  end.

(** ** idf_updater: reading and validating the edit workbook *)

(** [pd.read_excel(path, sheet_name=None)]: sheet name to data frame. *)
Definition workbook : Type := Dict.t DataFrame.

Definition required_columns : list string :=
  ["ObjectName"; "FieldName"; "Value"].

(** [[col for col in required_columns if col not in df.columns]] *)
Definition missing_columns (df : DataFrame) : list string :=
  filter (fun col => col ∉ columns df) required_columns.

(** [sep.join(l)] *)
Fixpoint join (sep : string) (l : list string) : string :=
  match l with
  | [] => ""
  | [s] => s
  | s :: rest => s +:+ sep +:+ join sep rest
  end.

(** How an f-string prints a list of quote-free strings. *)
Definition repr_list (l : list string) : string :=
  "[" +:+ join ", " (map (fun s => "'" +:+ s +:+ "'") l) +:+ "]".

(** The column check of [read_excel_data], sheet by sheet: the first
    offending sheet raises. *)
Fixpoint check_columns (items : list (string * DataFrame)) : option string :=
  match items with
  | [] => None
  | (sheet_name, df) :: rest =>
      if bool_decide (sheet_name ≠ "ALL") then
        match missing_columns df with
        | [] => check_columns rest
        | missing =>
            Some ("Sheet '" +:+ sheet_name +:+ "' missing required columns: "
                  +:+ repr_list missing)
        end
      else check_columns rest
  end.

(** [read_excel_data], past its existence check; every exception of the
    body, its own included, is re-raised with the prefix. *)
Definition read_excel_data (file : loaded workbook) : loaded workbook :=
  match file with
  | Raised e => Raised ("Error reading Excel file: " +:+ e)
  | Loaded excel_data =>
      match check_columns excel_data with
      | Some e => Raised ("Error reading Excel file: " +:+ e)
      | None => Loaded excel_data
      end
  end.

(** [f"Sheet '{sheet_name}' missing columns: {missing_columns}"] *)
Definition missing_message (sheet_name : string) (missing : list string)
    : string :=
  "Sheet '" +:+ sheet_name +:+ "' missing columns: " +:+ repr_list missing.

(** [f"Sheet '{sheet_name}' is empty"] *)
Definition empty_message (sheet_name : string) : string :=
  "Sheet '" +:+ sheet_name +:+ "' is empty".

(** The messages one object sheet adds in [validate_excel_for_update]. *)
Definition sheet_messages (sheet_name : string) (df : DataFrame) : list string :=
  (match missing_columns df with
   | [] => []
   | missing => [missing_message sheet_name missing]
   end) ++
  (if df_empty df then [empty_message sheet_name] else []).

(** [for sheet_name in object_sheets], accumulating [messages]; a name
    taken from [keys()] is always found. *)
Fixpoint validate_sheets (excel_data : workbook) (object_sheets : list string)
    (messages : list string) : list string :=
  match object_sheets with
  | [] => messages
  | sheet_name :: rest =>
      match Dict.get excel_data sheet_name with
      | Some df =>
          validate_sheets excel_data rest (messages ++ sheet_messages sheet_name df)
      | None => validate_sheets excel_data rest messages
      end
  end.

(** [validate_excel_for_update]: the file is absent ([None]), unreadable, or
    read into a workbook. *)
Definition validate_excel_for_update (excel_file_path : string)
    (file : option (loaded workbook)) : bool * list string :=
  match file with
  | None => (false, ["File not found: " +:+ excel_file_path])
  | Some (Raised e) => (false, ["Error reading Excel file: " +:+ e])
  | Some (Loaded excel_data) =>
      let object_sheets :=
        filter (fun name => name ≠ "ALL") (Dict.keys excel_data) in
      match object_sheets with
      | [] =>
          (false, ["No object-specific sheets found (only 'ALL' sheet present)"])
      | _ =>
          match validate_sheets excel_data object_sheets [] with
          | [] => (true, ["Excel file format is valid for IDF updates"])
          | messages => (false, messages)
          end
      end
  end.

(** ** idf_updater.update_idf_from_excel *)

Record UpdateRecord : Type := mkUpdateRecord {
  object_type : string;
  object_name : pyval;
  field_name : pyval;
  old_value : string;
  new_value : string
}.

Record UpdateStats : Type := mkUpdateStats {
  total_updates : nat;
  successful_updates : nat;
  failed_updates : nat;
  warnings : list string;
  errors : list string;
  updated_objects : list UpdateRecord
}.

Definition initial_stats : UpdateStats :=
  {| total_updates := 0; successful_updates := 0; failed_updates := 0;
     warnings := []; errors := []; updated_objects := [] |}.

(** [stats['total_updates'] += 1; stats['successful_updates'] += 1;
     stats['updated_objects'].append(update_record)] *)
Definition record_update (stats : UpdateStats) (r : UpdateRecord) : UpdateStats :=
  {| total_updates := total_updates stats + 1;
     successful_updates := successful_updates stats + 1;
     failed_updates := failed_updates stats;
     warnings := warnings stats;
     errors := errors stats;
     updated_objects := updated_objects stats ++ [r] |}.

(** [stats['warnings'].append(w); stats['failed_updates'] += 1] *)
Definition record_warning (stats : UpdateStats) (w : string) : UpdateStats :=
  {| total_updates := total_updates stats;
     successful_updates := successful_updates stats;
     failed_updates := failed_updates stats + 1;
     warnings := warnings stats ++ [w];
     errors := errors stats;
     updated_objects := updated_objects stats |}.

(** [stats['errors'].append(e); stats['failed_updates'] += 1] *)
Definition record_error (stats : UpdateStats) (e : string) : UpdateStats :=
  {| total_updates := total_updates stats;
     successful_updates := successful_updates stats;
     failed_updates := failed_updates stats + 1;
     warnings := warnings stats;
     errors := errors stats ++ [e];
     updated_objects := updated_objects stats |}.

(** [stats['errors'].append(f"Critical error during IDF update: ...")] *)
Definition record_critical (stats : UpdateStats) (e : string) : UpdateStats :=
  {| total_updates := total_updates stats;
     successful_updates := successful_updates stats;
     failed_updates := failed_updates stats;
     warnings := warnings stats;
     errors := errors stats ++ ["Critical error during IDF update: " +:+ e];
     updated_objects := updated_objects stats |}.

(** [f"Field '{field_name}' not found in object '{object_name}' of type
    '{object_type}'"] *)
Definition field_not_found_message (field_name object_name : pyval)
    (object_type : string) : string :=
  "Field '" +:+ str field_name +:+ "' not found in object '"
  +:+ str object_name +:+ "' of type '" +:+ object_type +:+ "'".

(** [f"Error updating field '{field_name}' in object '{object_name}':
    {str(e)}"] for the [IndexError] of a list read. *)
Definition update_error_message (field_name object_name : pyval) : string :=
  "Error updating field '" +:+ str field_name +:+ "' in object '"
  +:+ str object_name +:+ "': list index out of range".

(** [f"Object '{object_name}' of type '{object_type}' not found in IDF"] *)
Definition object_not_found_message (object_name : pyval)
    (object_type : string) : string :=
  "Object '" +:+ str object_name +:+ "' of type '" +:+ object_type
  +:+ "' not found in IDF".

(** [matching_object.obj[field_index] = new_value] *)
Definition set_field (o : EpBunch) (field_index : nat) (new_value : string)
    : EpBunch :=
  {| fieldnames := fieldnames o;
     obj := <[field_index := PyStr new_value]> (obj o) |}.

(** The body of [for _, row in group_df.iterrows()], on the matching object
    and the statistics.  [field_name in field_names] holds exactly when
    [field_names.index(field_name)] answers; reading
    [matching_object.obj[field_index]] past the populated values raises
    [IndexError], which the handler of the row records. *)
Definition update_row (object_type : string) (object_name : pyval)
    (df : DataFrame) (state : EpBunch * UpdateStats) (row : list pyval)
    : EpBunch * UpdateStats :=
  let '(matching_object, stats) := state in
  let field_name := cell df row "FieldName" in
  let new_value := str (cell df row "Value") in
  match py_index field_name (fieldnames matching_object) with
  | Some field_index =>
      match obj matching_object !! field_index with
      | Some current =>
          let old_value := str current in
          if bool_decide (old_value ≠ new_value) then
            (set_field matching_object field_index new_value,
             record_update stats
               {| object_type := object_type; object_name := object_name;
                  field_name := field_name; old_value := old_value;
                  new_value := new_value |})
          else (matching_object, stats)
      | None =>
          (matching_object,
           record_error stats (update_error_message field_name object_name))
      end
  | None =>
      (matching_object,
       record_warning stats
         (field_not_found_message field_name object_name object_type))
  end.

(** [for obj in idf_objects: if hasattr(obj, 'Name') and obj.Name ==
    object_name: matching_object = obj; break]: the position of the first
    match and the object there. *)
Fixpoint find_matching (idf_objects : list EpBunch) (object_name : pyval)
    : option (nat * EpBunch) :=
  match idf_objects with
  | [] => None
  | o :: rest =>
      if hasattr_Name o && py_eq (Name o) object_name then Some (0, o)
      else prod_map S id <$> find_matching rest object_name
  end.

(** The body of [for object_name, group_df in object_groups].  The matching
    object is an element of [idf_objects], changed in place. *)
Definition update_group (object_type : string) (df : DataFrame)
    (state : list EpBunch * UpdateStats)
    (group : pyval * list (list pyval)) : list EpBunch * UpdateStats :=
  let '(idf_objects, stats) := state in
  let '(object_name, group_rows) := group in
  match find_matching idf_objects object_name with
  | Some (i, matching_object) =>
      let '(updated, stats') :=
        foldl (update_row object_type object_name df)
              (matching_object, stats) group_rows in
      (<[i := updated]> idf_objects, stats')
  | None =>
      (idf_objects,
       record_warning stats (object_not_found_message object_name object_type))
  end.

(** The order in which the grouping presents its keys: integers before
    text, integers by value, text by code point. *)
Definition key_leb (a b : pyval) : bool :=
  match a, b with
  | PyInt x, PyInt y => bool_decide (x ≤ y)%Z
  | PyInt _, _ => true
  | PyStr s, PyStr t => bool_decide (s ≤ t)%string
  | PyStr _, PyInt _ => false
  | PyStr _, PyNaN => true
  | PyNaN, PyNaN => true
  | PyNaN, _ => false
  end.

(** [df.groupby('ObjectName')]: one group per distinct key, keys in sorted
    order, rows with a missing key dropped, rows of a group in sheet
    order. *)
Definition groupby_ObjectName (df : DataFrame)
    : list (pyval * list (list pyval)) :=
  let key row := cell df row "ObjectName" in
  let keys :=
    merge_sort (fun a b => Is_true (key_leb a b))
      (remove_dups (filter (fun k => k ≠ PyNaN) (map key (rows df)))) in
  map (fun k => (k, filter (fun row => key row = k) (rows df))) keys.

(** The body of [for sheet_name, df in excel_data.items()].
    [idf.idfobjects] keeps every object type under its upper-case name and
    answers [in] and [[]] for a key by the upper case of the key, so the
    sheet's type is looked up whatever its case; messages and update
    records carry the trimmed sheet name as it is.  The instance list of
    the type is the one inside the graph. *)
Definition update_sheet (state : IDF * UpdateStats)
    (sheet : string * DataFrame) : IDF * UpdateStats :=
  let '(idf, stats) := state in
  let '(sheet_name, df) := sheet in
  if bool_decide (sheet_name = "ALL") then (idf, stats)
  else
    let object_type := strip sheet_name in
    match Dict.get idf (upper object_type) with
    | Some idf_objects =>
        let '(idf_objects', stats') :=
          foldl (update_group object_type df) (idf_objects, stats)
                (groupby_ObjectName df) in
        (Dict.set idf (upper object_type) idf_objects', stats')
    | None => (idf, stats)
    end.

(** [update_idf_from_excel], past its three existence checks.  [saveas]
    is what [idf.saveas(output_idf_path)] answers for the graph it is
    handed: it returns, or it raises.  The result is the statistics the
    function returns and the graph handed to [idf.saveas], when the run
    reaches that call.  The call is inside the [try]: when it raises, the
    handler appends the critical error to the statistics the rows have
    made, and no model is saved. *)
Definition update_idf_from_excel (original_idf : loaded IDF)
    (modified_excel : loaded workbook) (saveas : IDF → loaded unit)
    : UpdateStats * option IDF :=
  match original_idf with
  | Raised e => (record_critical initial_stats e, None)
  | Loaded idf =>
      match read_excel_data modified_excel with
      | Raised e => (record_critical initial_stats e, None)
      | Loaded excel_data =>
          let '(idf', stats) := foldl update_sheet (idf, initial_stats) excel_data in
          match saveas idf' with
          | Loaded _ => (stats, Some idf')
          | Raised e => (record_critical stats e, Some idf')
          end
      end
  end.

(** ** idf_processor.extract_idf_version *)

(** The longest leading run of characters that satisfy [p], and what
    follows it. *)
Fixpoint take_while (p : ascii -> bool) (s : string) : string :=
  match s with
  | EmptyString => EmptyString
  | String c s' => if p c then String c (take_while p s') else EmptyString
  end.

Fixpoint drop_while (p : ascii -> bool) (s : string) : string :=
  match s with
  | EmptyString => EmptyString
  | String c s' => if p c then drop_while p s' else s
  end.

(** What follows the literal [lit] at the head of [s], when it is there. *)
Fixpoint after_literal (lit s : string) : option string :=
  match lit, s with
  | EmptyString, _ => Some s
  | String a lit', String c s' =>
      if bool_decide (a = c) then after_literal lit' s' else None
  | String _ _, EmptyString => None
  end.

(** The pattern class for digits: among the code points below 256 the
    decimal digits are 0 to 9. *)
Definition isdigit (c : ascii) : bool := between 48 57 (nat_of_ascii c).

(** The character class of the version group, a digit or a dot. *)
Definition is_version_char (c : ascii) : bool :=
  isdigit c || bool_decide (c = "."%char).

(** The pattern [Version\s*,\s*([\d\.]+)\s*;] tried at the head of [s]; the
    answer is group 1.  The classes that follow one another in the pattern
    share no character, so the greedy run is the only way to match. *)
Definition match_version_at (s : string) : option string :=
  s1 ← after_literal "Version" s;
  s2 ← after_literal "," (drop_while isspace s1);
  let s3 := drop_while isspace s2 in
  let group := take_while is_version_char s3 in
  match group with
  | EmptyString => None
  | _ =>
      _ ← after_literal ";" (drop_while isspace (drop_while is_version_char s3));
      Some group
  end.

(** [re.search(pattern, s)]: the match at the leftmost position that has
    one, [match_at] telling what matches at the head of a text. *)
Fixpoint re_search {A} (match_at : string -> option A) (s : string)
    : option A :=
  match match_at s with
  | Some m => Some m
  | None =>
      match s with
      | EmptyString => None
      | String _ s' => re_search match_at s'
      end
  end.

(** [extract_idf_version]: the file's text, or the exception of reading
    it. *)
Definition extract_idf_version (content : loaded string) : option string :=
  match content with
  | Raised _ => None
  | Loaded text => re_search match_version_at text
  end.

(** ** idf_processor.suggest_idd_file *)

(** [s.split(sep)] for a one-character separator. *)
Fixpoint split_on (sep : ascii) (s : string) : list string :=
  match s with
  | EmptyString => [EmptyString]
  | String c s' =>
      if bool_decide (c = sep) then EmptyString :: split_on sep s'
      else match split_on sep s' with
           | [] => [String c EmptyString]
           | w :: ws => String c w :: ws
           end
  end.

(** [s.endswith(suffix)] *)
Definition endswith (s suffix : string) : bool :=
  bool_decide
    (String.substring (String.length s - String.length suffix)
                      (String.length suffix) s = suffix).

(** The pattern [V(\d+)-(\d+)-(\d+)-Energy\+\.idd] tried at the head of
    [s]; the answer is the three groups joined by dots. *)
Definition match_idd_at (s : string) : option string :=
  s1 ← after_literal "V" s;
  let g1 := take_while isdigit s1 in
  s2 ← after_literal "-" (drop_while isdigit s1);
  let g2 := take_while isdigit s2 in
  s3 ← after_literal "-" (drop_while isdigit s2);
  let g3 := take_while isdigit s3 in
  _ ← after_literal "-Energy+.idd" (drop_while isdigit s3);
  match g1, g2, g3 with
  | String _ _, String _ _, String _ _ => Some (g1 +:+ "." +:+ g2 +:+ "." +:+ g3)
  | _, _, _ => None
  end.

(** The version a file name carries, for the names the loop keeps. *)
Definition idd_version_of (file : string) : option string :=
  if endswith file ".idd" then re_search match_idd_at file else None.

(** [for file in os.listdir(idd_files_dir)], building
    [available_idd_files]. *)
Fixpoint available_idd_files (listing : list string)
    : list (string * string) :=
  match listing with
  | [] => []
  | file :: rest =>
      match idd_version_of file with
      | Some idd_version => (file, idd_version) :: available_idd_files rest
      | None => available_idd_files rest
      end
  end.

(** [for file, idd_version in available: if test(idd_version): return file] *)
Fixpoint first_file (test : string -> bool) (available : list (string * string))
    : option string :=
  match available with
  | [] => None
  | (file, idd_version) :: rest =>
      if test idd_version then Some file else first_file test rest
  end.

(** [int(s)] for a text of decimal digits. *)
Definition int_of (s : string) : N :=
  let fix go (acc : N) (s : string) : N :=
    match s with
    | EmptyString => acc
    | String c s' => go (acc * 10 + (N_of_ascii c - 48))%N s'
    end in
  go 0%N s.

(** The sort key [tuple(map(int, idd_version.split('.')))]. *)
Definition version_key (idd_version : string) : list N :=
  map int_of (split_on "." idd_version).

(** [a <= b] on tuples of integers. *)
Fixpoint tuple_leb (a b : list N) : bool :=
  match a, b with
  | [], _ => true
  | _ :: _, [] => false
  | x :: a', y :: b' =>
      if (x <? y)%N then true
      else if (y <? x)%N then false
      else tuple_leb a' b'
  end.

(** [available.sort(key=..., reverse=True)]: descending by key, entries
    with equal keys in their original order. *)
Fixpoint insert_descending (x : string * string) (sorted : list (string * string))
    : list (string * string) :=
  match sorted with
  | [] => [x]
  | y :: rest =>
      if tuple_leb (version_key y.2) (version_key x.2) then x :: y :: rest
      else y :: insert_descending x rest
  end.

Fixpoint sort_descending (l : list (string * string)) : list (string * string) :=
  match l with
  | [] => []
  | x :: rest => insert_descending x (sort_descending rest)
  end.

(** [major_minor]: the first two dot-separated parts of the version, or
    the whole version when it has one part only. *)
Definition major_minor_of (idf_version : string) : string :=
  match split_on "." idf_version with
  | major :: minor :: _ => major +:+ "." +:+ minor
  | _ => idf_version
  end.

(** [suggest_idd_file]: the version is absent ([None]) or a text; the
    directory is absent ([None]) or lists its entries. *)
Definition suggest_idd_file (idf_version : option string)
    (idd_files_dir : option (list string)) : option string :=
  match idf_version with
  | None | Some EmptyString => None
  | Some idf_version =>
      let major_minor := major_minor_of idf_version in
      let available :=
        match idd_files_dir with
        | Some listing => available_idd_files listing
        | None => []
        end in
      match first_file (fun v => bool_decide (v = idf_version)) available with
      | Some file => Some file
      | None =>
          match first_file (String.prefix major_minor) available with
          | Some file => Some file
          | None =>
              match sort_descending available with
              | newest :: _ => Some newest.1
              | [] => None
              end
          end
      end
  end.

(** Every character of the text satisfies [p]. *)
Fixpoint string_forall (p : ascii -> bool) (s : string) : bool :=
  match s with
  | EmptyString => true
  | String c s' => p c && string_forall p s'
  end.

(** A directory listing for the examples. *)
Definition example_listing : list string :=
  ["V9-6-0-Energy+.idd"; "readme.txt"; "V22-1-0-Energy+.idd";
   "V25-1-0-Energy+.idd"; "V25-1-0-Energy+.idd.bak"].

(** ** Worked example: the scenario of the design notes *)

(** An output path that can be written: [idf.saveas] returns. *)
Definition saves : IDF → loaded unit := fun _ => Loaded tt.

(** An output path that cannot be written: [idf.saveas] raises. *)
Definition save_fails (e : string) : IDF → loaded unit := fun _ => Raised e.

Definition zone_fields : list string := ["key"; "Name"; "Width"; "Height"].

Definition room101 : EpBunch :=
  {| fieldnames := zone_fields;
     obj := [PyStr "ZONE"; PyStr "Room101"; PyStr "10.5"; PyStr "20.0"] |}.

Definition version_object : EpBunch :=
  {| fieldnames := ["key"; "Version_Identifier"];
     obj := [PyStr "VERSION"; PyStr "22.1.0"] |}.

Definition example_idf : IDF :=
  [("VERSION", [version_object]);
   ("ZONE", [room101]);
   ("MATERIAL", [])].

Definition edit_columns : list string := ["ObjectName"; "FieldName"; "Value"; "Unit"].

Definition edit_row (name field value : string) : list pyval :=
  [PyStr name; PyStr field; PyStr value; PyNaN].

(** ** Further examples *)

(** The flat records of the example zone. *)
Definition zone_records : list record := objects_records [room101].

(** Two object types of the schema whose sanitised names agree on the first
    31 characters, and a graph with one instance of each. *)
Definition detailed_opening : string :=
  "AIRFLOWNETWORK:MULTIZONE:COMPONENT:DETAILEDOPENING".

Definition simple_opening : string :=
  "AIRFLOWNETWORK:MULTIZONE:COMPONENT:SIMPLEOPENING".

Definition opening (name : string) : EpBunch :=
  {| fieldnames := ["key"; "Name"]; obj := [PyStr "OPENING"; PyStr name] |}.

Definition airflow_idf : IDF :=
  [(detailed_opening, [opening "Door"]); (simple_opening, [opening "Window"])].

(** A workbook whose two object sheets both miss required columns. *)
Definition incomplete_workbook : workbook :=
  [("ALL", {| columns := "ObjectType" :: edit_columns; rows := [] |});
   ("ZONE", {| columns := ["ObjectName"; "Value"];
               rows := [[PyStr "Room101"; PyStr "12.0"]] |});
   ("MATERIAL", {| columns := ["FieldName"]; rows := [] |})].

(** Two rows for an object that the example graph does not have. *)
Definition ghost_frame : DataFrame :=
  {| columns := edit_columns;
     rows := [edit_row "Ghost" "Width" "12.0"; edit_row "Ghost" "Height" "3.0"] |}.

(** A row for a field the zone does not have, then a row for its width. *)
Definition mixed_frame : DataFrame :=
  {| columns := edit_columns;
     rows := [edit_row "Room101" "Depth" "4.0";
              edit_row "Room101" "Width" "12.0"] |}.

(** An edit workbook whose rows agree with each other, and the graph the
    example becomes under it. *)
Definition edit_workbook : workbook :=
  [("ALL", {| columns := "ObjectType" :: edit_columns; rows := [] |});
   ("ZONE", {| columns := edit_columns;
               rows := [edit_row "Room101" "Width" "12.0";
                        edit_row "Room101" "Height" "20.0";
                        edit_row "Room101" "Width" "12.0"] |})].

Definition edited_idf : IDF :=
  [("VERSION", [version_object]);
   ("ZONE", [{| fieldnames := zone_fields;
                obj := [PyStr "ZONE"; PyStr "Room101"; PyStr "12.0";
                        PyStr "20.0"] |}]);
   ("MATERIAL", [])].

(** The same edits on a sheet named in another letter case, with a row
    that restates the name of the zone, as every exported sheet has one. *)
Definition restating_workbook : workbook :=
  [("ALL", {| columns := "ObjectType" :: edit_columns; rows := [] |});
   ("Zone ", {| columns := edit_columns;
                rows := [edit_row "Room101" "Name" "Room101";
                         edit_row "Room101" "Width" "12.0";
                         edit_row "Room101" "Height" "20.0";
                         edit_row "Room101" "Width" "12.0"] |})].

(** A material with a roughness, a field of text, and two rows that ask
    for different roughnesses of it. *)
Definition brick : EpBunch :=
  {| fieldnames := ["key"; "Name"; "Roughness"];
     obj := [PyStr "MATERIAL"; PyStr "Brick"; PyStr "Rough"] |}.

Definition material_idf : IDF := [("MATERIAL", [brick])].

Definition conflicting_workbook : workbook :=
  [("MATERIAL", {| columns := edit_columns;
                   rows := [edit_row "Brick" "Roughness" "Smooth";
                            edit_row "Brick" "Roughness" "MediumRough"] |})].

(** Two materials, and a workbook that gives the first the name of the
    second while asking for a roughness under that name. *)
Definition renaming_idf : IDF :=
  [("MATERIAL",
    [{| fieldnames := ["key"; "Name"; "Roughness"];
        obj := [PyStr "MATERIAL"; PyStr "Stone"; PyStr "Rough"] |};
     brick])].

Definition renaming_workbook : workbook :=
  [("MATERIAL", {| columns := edit_columns;
                   rows := [edit_row "Stone" "Name" "Brick";
                            edit_row "Brick" "Roughness" "Smooth"] |})].

(** ** Notions the properties are stated with *)

(** *** Tabular writer *)

Definition record_columns : list string :=
  ["ObjectName"; "FieldName"; "Value"; "Unit"].

Definition all_columns : list string := "ObjectType" :: record_columns.

(** The [to_excel] calls the function makes when none raises. *)
Definition planned_calls (data : Dict.t (list record)) (individual : bool)
    : list (string * DataFrame) :=
  map fst (plan data individual).

(** The library lets the calls [todo] through, one after the other, after
    the calls [calls], and then lets the container be closed. *)
Fixpoint accepts_calls (writer : ExcelWriter)
    (calls todo : list (string * DataFrame)) : Prop :=
  match todo with
  | [] => close_writer writer calls = Loaded tt
  | call :: rest =>
      write_sheet writer calls call = Loaded tt ∧
      accepts_calls writer (calls ++ [call]) rest
  end.

(** The library opens the container, lets the calls through and closes
    it. *)
Definition accepts (writer : ExcelWriter)
    (calls : list (string * DataFrame)) : Prop :=
  open_writer writer = Loaded tt ∧ accepts_calls writer [] calls.

(** A library that lets everything through. *)
Definition accepting_writer : ExcelWriter :=
  {| open_writer := Loaded tt;
     write_sheet := fun _ _ => Loaded tt;
     close_writer := fun _ => Loaded tt |}.

(** A library that refuses a sheet without a name. *)
Definition naming_writer : ExcelWriter :=
  {| open_writer := Loaded tt;
     write_sheet := fun _ call =>
       if bool_decide (call.1 = "") then Raised "Invalid sheet name"
       else Loaded tt;
     close_writer := fun _ => Loaded tt |}.

(** *** Validator *)

(** The object sheets of a workbook, as the validator lists them. *)
Definition object_sheets_of (excel_data : workbook) : list string :=
  filter (fun name => name ≠ "ALL") (Dict.keys excel_data).

(** The messages the validator's loop adds for one sheet name. *)
Definition messages_of (excel_data : workbook) (sheet_name : string)
    : list string :=
  match Dict.get excel_data sheet_name with
  | Some df => sheet_messages sheet_name df
  | None => []
  end.

(** The number of violations of one object sheet: one for missing columns,
    one for having no rows. *)
Definition violations (df : DataFrame) : nat :=
  (match missing_columns df with [] => 0 | _ => 1 end)
  + (if df_empty df then 1 else 0).

(** Whether a text holds an opening bracket. *)
Fixpoint has_bracket (s : string) : bool :=
  match s with
  | EmptyString => false
  | String c s' => bool_decide (c = "["%char) || has_bracket s'
  end.

(** The part of a text that starts at its last opening bracket. *)
Fixpoint from_last_bracket (s : string) : string :=
  match s with
  | EmptyString => EmptyString
  | String c s' => if has_bracket s' then from_last_bracket s' else s
  end.

(** *** Update engine *)

(** The update counters agree with each other and with the log. *)
Definition stats_consistent (stats : UpdateStats) : Prop :=
  total_updates stats = successful_updates stats ∧
  successful_updates stats = length (updated_objects stats).


(** What a row of an edit sheet addresses: a type, by the key under which
    the graph keeps it, an object name, a field name, and the text it wants
    there. *)
Record address : Type := mkAddress {
  a_type : string;
  a_object : pyval;
  a_field : pyval;
  a_value : string
}.

Definition row_address (sheet_name : string) (df : DataFrame)
    (row : list pyval) : address :=
  {| a_type := upper (strip sheet_name);
     a_object := cell df row "ObjectName";
     a_field := cell df row "FieldName";
     a_value := str (cell df row "Value") |}.

(** The addresses of the rows the engine reads: those of every sheet but
    ALL. *)
Definition sheet_addresses (sheet : string * DataFrame) : list address :=
  if bool_decide (sheet.1 = "ALL") then []
  else map (row_address sheet.1 sheet.2) (rows sheet.2).

Definition addresses (excel_data : workbook) : list address :=
  concat (map sheet_addresses excel_data).

(** No two rows of the workbook want different texts in the same field of
    the same object of the same type. *)
Definition conflict_free (excel_data : workbook) : bool :=
  forallb (fun a =>
    forallb (fun b =>
      implb (bool_decide (a_type a = a_type b ∧ a_object a = a_object b ∧
                          a_field a = a_field b))
            (bool_decide (a_value a = a_value b)))
      (addresses excel_data))
    (addresses excel_data).

(** No row of the workbook asks for another name: a row for the field
    called Name wants the text of its own ObjectName there. *)
Definition keeps_names (excel_data : workbook) : bool :=
  forallb (fun a => implb (bool_decide (a_field a = PyStr "Name"))
                          (bool_decide (a_value a = str (a_object a))))
          (addresses excel_data).

(** The object holds, wherever field [f] resolves to a populated position,
    a value whose text is [v]. *)
Definition settled (o : EpBunch) (f : pyval) (v : string) : Prop :=
  ∀ idx cur,
    py_index f (fieldnames o) = Some idx → obj o !! idx = Some cur →
    str cur = v.

(** The name under which the scan finds an object. *)
Definition name_key (o : EpBunch) : bool * pyval := (hasattr_Name o, Name o).

(** The instances of one type are settled for the requests [D] when every
    request is settled on the object its name selects. *)
Definition settled_list (idf_objects : list EpBunch)
    (D : pyval → pyval → string → Prop) : Prop :=
  ∀ k f v i o,
    D k f v → find_matching idf_objects k = Some (i, o) → settled o f v.

(** The graph is settled for the requests [D] when every request is settled
    on the object that its type and name select. *)
Definition settled_idf (idf : IDF) (D : address → Prop) : Prop :=
  ∀ a idf_objects i o,
    D a → Dict.get idf (a_type a) = Some idf_objects →
    find_matching idf_objects (a_object a) = Some (i, o) →
    settled o (a_field a) (a_value a).



(** ** Further notions for the update engine *)

(** A field name that some row carries on a sheet that resolves to the
    type kept under [key]. *)
Definition named_field (excel_data : workbook) (key : string)
    (n : string) : Prop :=
  ∃ sheet_name df row,
    (sheet_name, df) ∈ excel_data ∧ sheet_name ≠ "ALL" ∧
    upper (strip sheet_name) = key ∧ row ∈ rows df ∧
    cell df row "FieldName" = PyStr n.

(** Object [o'] is object [o] but for the values of the fields in [F]. *)
Definition kept_but (F : string → Prop) (o o' : EpBunch) : Prop :=
  fieldnames o' = fieldnames o ∧ length (obj o') = length (obj o) ∧
  ∀ idx n, fieldnames o !! idx = Some n → ¬ F n →
           obj o' !! idx = obj o !! idx.

(** From state [s] to state [s'] no update is counted unless the first
    component changes. *)
Definition calm {A} (s s' : A * UpdateStats) : Prop :=
  successful_updates s.2 ≤ successful_updates s'.2 ∧
  (successful_updates s'.2 = successful_updates s.2 → s'.1 = s.1).

(** An update record that renders a row of the workbook: the row's sheet,
    object, field and value, with an old value that differs. *)
Definition edit_of (excel_data : workbook) (r : UpdateRecord) : Prop :=
  old_value r ≠ new_value r ∧
  ∃ sheet_name df row,
    (sheet_name, df) ∈ excel_data ∧ sheet_name ≠ "ALL" ∧ row ∈ rows df ∧
    object_type r = strip sheet_name ∧
    object_name r = cell df row "ObjectName" ∧
    field_name r = cell df row "FieldName" ∧
    new_value r = str (cell df row "Value").

(** ** Further notions for the extraction and the writer *)

(** The entry the extraction makes for one object type of the graph: none
    when the type yields no record. *)
Definition type_entry (item : string * list EpBunch)
    : option (string * list record) :=
  match objects_records item.2 with
  | [] => None
  | object_data => Some (item.1, object_data)
  end.

(** A character the writer keeps in a worksheet name. *)
Definition sheet_char (c : ascii) : bool :=
  isalnum c || bool_decide (c = " "%char) || bool_decide (c = "_"%char).

(** A code point of ASCII. *)
Definition is_ascii (c : ascii) : bool := nat_of_ascii c <? 128.

(** A letter or a digit of ASCII, a space or an underscore. *)
Definition ascii_sheet_char (c : ascii) : bool :=
  let n := nat_of_ascii c in
  between 48 57 n || between 65 90 n || between 97 122 n
  || (n =? 32) || (n =? 95).

(** The frame without the rows whose ObjectName cell is missing. *)
Definition named_rows (df : DataFrame) : DataFrame :=
  {| columns := columns df;
     rows := filter (fun row => cell df row "ObjectName" ≠ PyNaN) (rows df) |}.

(** * Properties *)

(** The worked example, run. *)
Example example_update :
  update_idf_from_excel (Loaded example_idf)
    (Loaded [("ZONE", {| columns := edit_columns;
                        rows := [edit_row "Room101" "Width" "12.0"] |})])
    saves
  = ({| total_updates := 1; successful_updates := 1; failed_updates := 0;
        warnings := []; errors := [];
        updated_objects :=
          [{| object_type := "ZONE"; object_name := PyStr "Room101";
              field_name := PyStr "Width"; old_value := "10.5";
              new_value := "12.0" |}] |},
     Some [("VERSION", [version_object]);
           ("ZONE", [{| fieldnames := zone_fields;
                        obj := [PyStr "ZONE"; PyStr "Room101"; PyStr "12.0";
                                PyStr "20.0"] |}]);
           ("MATERIAL", [])]).
Proof. vm_compute. reflexivity. Qed.

(** ** Python equality, membership and index *)

Lemma py_eq_true a b : py_eq a b = true ↔ a = b ∧ a ≠ PyNaN.
Proof.
  destruct a, b; simpl; try (split; [done | intros [? ?]; done]).
  - rewrite bool_decide_eq_true. split; [by intros -> | by intros [[= ->] _]].
  - rewrite bool_decide_eq_true. split; [by intros -> | by intros [[= ->] _]].
Qed.

Lemma py_index_Some x names i :
  py_index x names = Some i ↔
  (∃ n, names !! i = Some n ∧ x = PyStr n) ∧
  ∀ j n, j < i → names !! j = Some n → x ≠ PyStr n.
Proof.
  revert i. induction names as [|n names IH]; intros i; simpl.
  - split; [done | by intros [(? & ? & _) _]].
  - destruct (py_eq (PyStr n) x) eqn:E.
    + apply py_eq_true in E as [<- _]. split.
      * intros ?; simplify_eq. split; [by exists n | intros; lia].
      * intros [_ H]. destruct i as [|i]; [done|].
        exfalso. by apply (H 0 n); [lia| |].
    + assert (x ≠ PyStr n) as Hne.
      { intros ->. simpl in E. by rewrite bool_decide_eq_false in E. }
      rewrite fmap_Some. destruct i as [|i].
      * split; [by intros (j & _ & [=]) |].
        intros [(m & Hm & ->) _]. by simplify_eq/=.
      * split.
        -- intros (j & Hj & ?); simplify_eq. apply IH in Hj as [Hj Hlt].
           split; [done|].
           intros [|k] m ? ?; simplify_eq/=; [done|].
           apply (Hlt k m); [lia|done].
        -- intros [Hi Hlt]. exists i. split; [|done]. apply IH. split; [done|].
           intros k m ? ?. apply (Hlt (S k) m); [lia|done].
Qed.

Lemma py_index_lookup x names i :
  py_index x names = Some i → ∃ n, names !! i = Some n ∧ x = PyStr n.
Proof. intros H. by apply py_index_Some in H as [? _]. Qed.

Lemma py_in_index x names : py_in x names = true ↔ is_Some (py_index x names).
Proof.
  induction names as [|n names IH]; simpl.
  - split; [done | by intros [? ?]].
  - destruct (py_eq (PyStr n) x); simpl; [by split; eauto|].
    rewrite IH. destruct (py_index x names); simpl; split; eauto;
      intros [? ?]; done.
Qed.

(** ** Lists *)

Lemma elem_of_map {A B} (f : A → B) (l : list A) y :
  y ∈ map f l ↔ ∃ x, y = f x ∧ x ∈ l.
Proof.
  rewrite list_elem_of_In, in_map_iff.
  split; intros (x & ? & ?); exists x; by rewrite ?list_elem_of_In in *.
Qed.

Lemma elem_of_concat {A} (ls : list (list A)) x :
  x ∈ concat ls ↔ ∃ l, x ∈ l ∧ l ∈ ls.
Proof.
  rewrite list_elem_of_In, in_concat.
  split; intros (l & ? & ?); exists l; by rewrite ?list_elem_of_In in *.
Qed.

(** ** Dictionaries *)

Lemma dict_get_set {V} (d : Dict.t V) k v k' :
  Dict.get (Dict.set d k v) k' = if bool_decide (k = k') then Some v else Dict.get d k'.
Proof.
  induction d as [|[k0 v0] d IH]; simpl.
  - done.
  - destruct (bool_decide_reflect (k0 = k)) as [->|Hne]; simpl.
    + by destruct (bool_decide_reflect (k = k')).
    + destruct (bool_decide_reflect (k0 = k')) as [->|?].
      * by rewrite bool_decide_eq_false_2.
      * done.
Qed.

Lemma dict_set_id {V} (d : Dict.t V) k v :
  Dict.get d k = Some v → Dict.set d k v = d.
Proof.
  induction d as [|[k0 v0] d IH]; simpl; [done|].
  destruct (bool_decide_reflect (k0 = k)) as [->|Hne].
  - by intros [= ->].
  - intros H. by rewrite IH.
Qed.

Lemma dict_elem_of_set {V} (d : Dict.t V) k v k' v' :
  (k', v') ∈ Dict.set d k v → (k', v') ∈ d ∨ (k' = k ∧ v' = v).
Proof.
  induction d as [|[k0 v0] d IH]; simpl.
  - rewrite list_elem_of_singleton. intros [= -> ->]. by right.
  - destruct (bool_decide_reflect (k0 = k)) as [->|Hne].
    + rewrite !elem_of_cons. intros [[= -> ->]|?]; [by right | by left; right].
    + rewrite !elem_of_cons. intros [?|H]; [by left; left|].
      destruct (IH H) as [?|?]; [by left; right | by right].
Qed.

Lemma dict_get_elem_of {V} (d : Dict.t V) k v :
  Dict.get d k = Some v → (k, v) ∈ d.
Proof.
  induction d as [|[k0 v0] d IH]; simpl; [done|].
  destruct (bool_decide_reflect (k0 = k)) as [->|Hne].
  - intros [= ->]. apply elem_of_cons; by left.
  - intros ?. apply elem_of_cons; right; auto.
Qed.

(** ** Extraction *)

(** The guarded enumeration pairs field names with populated values,
    position by position, and stops at the shorter of the two. *)
Lemma object_records_zip o i l :
  object_records o i l = zip_with (flat_record o) (drop i (fieldnames o)) l.
Proof.
  revert i. induction l as [|v l IH]; intros i; simpl.
  - by destruct (drop i (fieldnames o)).
  - destruct (fieldnames o !! i) as [fn|] eqn:E.
    + rewrite (drop_S _ _ _ E). simpl. by rewrite IH.
    + rewrite IH. apply lookup_ge_None in E.
      rewrite !drop_ge; [done | lia | lia].
Qed.

Lemma object_records_lookup o i r :
  object_records o 0 (obj o) !! i = Some r ↔
  ∃ fn v, fieldnames o !! i = Some fn ∧ obj o !! i = Some v ∧
          r = flat_record o fn v.
Proof.
  rewrite object_records_zip, drop_0, lookup_zip_with_Some.
  split; intros (fn & v & ? & ? & ?); exists fn, v; done.
Qed.

Lemma object_records_length o :
  length (object_records o 0 (obj o))
  = length (fieldnames o) `min` length (obj o).
Proof. by rewrite object_records_zip, drop_0, length_zip_with. Qed.

Lemma elem_of_objects_records objects r :
  r ∈ objects_records objects ↔
  ∃ o, o ∈ objects ∧ r ∈ object_records o 0 (obj o).
Proof.
  unfold objects_records. rewrite elem_of_concat. split.
  - intros (l & Hr & Hl). apply elem_of_map in Hl as (o & -> & ?). eauto.
  - intros (o & ? & ?). eexists. split; [done|].
    apply elem_of_map. eauto.
Qed.

Lemma elem_of_extract_types idf obj_types acc obj_type recs :
  (obj_type, recs) ∈ extract_types idf obj_types acc →
  (obj_type, recs) ∈ acc ∨
  ∃ objects, Dict.get idf obj_type = Some objects ∧
             recs = objects_records objects ∧ recs ≠ [].
Proof.
  revert acc. induction obj_types as [|t rest IH]; intros acc; simpl; [by left|].
  intros H. apply IH in H as [H|H]; [|by right].
  destruct (Dict.get idf t) as [[|o objects]|] eqn:Et; [by left| |by left].
  destruct (objects_records (o :: objects)) as [|r rs] eqn:Er; [by left|].
  apply dict_elem_of_set in H as [?|[-> ->]]; [by left|].
  right. exists (o :: objects). by rewrite Er.
Qed.

Lemma find_matching_Some idf_objects object_name i o :
  find_matching idf_objects object_name = Some (i, o) →
  idf_objects !! i = Some o ∧ hasattr_Name o = true ∧ Name o = object_name ∧
  object_name ≠ PyNaN.
Proof.
  revert i. induction idf_objects as [|o' rest IH]; intros i; simpl; [done|].
  destruct (hasattr_Name o' && py_eq (Name o') object_name) eqn:E.
  - intros ?; simplify_eq. apply andb_true_iff in E as [? E].
    apply py_eq_true in E as [<- ?]. done.
  - rewrite fmap_Some. intros ([j o''] & Hj & ?); simplify_eq/=.
    by apply IH.
Qed.

(** C5 -- Schema-driven field alignment.  Every list of flat records the
    extraction emits for an object type is the concatenation, instance by
    instance, of that instance's records; the record at position [i] of an
    instance exists exactly when both the schema's field-name list and the
    populated values reach position [i], and it then carries that field name
    and the text of that value: names and values never drift apart. *)
Theorem field_alignment idf data obj_type recs :
  extract_idf_data (Loaded idf) = Some data →
  (obj_type, recs) ∈ data →
  ∃ objects,
    Dict.get idf obj_type = Some objects ∧
    recs = concat (map (fun o => object_records o 0 (obj o)) objects) ∧
    ∀ o, o ∈ objects →
      length (object_records o 0 (obj o))
        = length (fieldnames o) `min` length (obj o) ∧
      ∀ i r, object_records o 0 (obj o) !! i = Some r ↔
             ∃ fn v, fieldnames o !! i = Some fn ∧ obj o !! i = Some v ∧
                     Dict.get r "FieldName" = Some (PyStr fn) ∧
                     Dict.get r "Value" = Some (PyStr (str v)) ∧
                     r = flat_record o fn v.
Proof.
  intros [= <-] Hin.
  apply elem_of_extract_types in Hin as [Hin|(objects & Hget & -> & _)].
  { by apply elem_of_nil in Hin. }
  exists objects. split; [done|]. split; [done|].
  intros o _. split; [apply object_records_length|].
  intros i r. rewrite object_records_lookup.
  split.
  - intros (fn & v & ? & ? & ->). by exists fn, v.
  - intros (fn & v & ? & ? & _ & _ & ->). by exists fn, v.
Qed.

(** The alignment theorem on the zone of the worked example. *)
Lemma field_alignment_witness :
  ∃ objects,
    Dict.get example_idf "ZONE" = Some objects ∧
    zone_records = concat (map (fun o => object_records o 0 (obj o)) objects) ∧
    ∀ o, o ∈ objects →
      length (object_records o 0 (obj o))
        = length (fieldnames o) `min` length (obj o) ∧
      ∀ i r, object_records o 0 (obj o) !! i = Some r ↔
             ∃ fn v, fieldnames o !! i = Some fn ∧ obj o !! i = Some v ∧
                     Dict.get r "FieldName" = Some (PyStr fn) ∧
                     Dict.get r "Value" = Some (PyStr (str v)) ∧
                     r = flat_record o fn v.
Proof.
  apply (field_alignment example_idf
           (extract_types example_idf (Dict.keys example_idf) []) "ZONE").
  - reflexivity.
  - vm_compute. apply list_elem_of_further, list_elem_of_here.
Defined.

(** C10 -- Nameless-object placeholder.  An instance without a Name field
    has the literal N/A as the ObjectName of every flat record emitted for
    it, and the update engine's scan by name never selects such an
    instance. *)
Theorem nameless_placeholder o :
  hasattr_Name o = false →
  (∀ r, r ∈ object_records o 0 (obj o) →
        Dict.get r "ObjectName" = Some (PyStr "N/A")) ∧
  (∀ idf_objects object_name i,
      find_matching idf_objects object_name ≠ Some (i, o)).
Proof.
  intros Hno. split.
  - intros r Hr. apply list_elem_of_lookup in Hr as [i Hi].
    apply object_records_lookup in Hi as (fn & v & _ & _ & ->).
    unfold flat_record. by rewrite Hno.
  - intros objs k i H. apply find_matching_Some in H as (_ & Hhas & _).
    congruence.
Qed.

(** The placeholder theorem on the version object, which has no Name. *)
Lemma nameless_placeholder_witness :
  hasattr_Name version_object = false ∧
  (∀ r, r ∈ object_records version_object 0 (obj version_object) →
        Dict.get r "ObjectName" = Some (PyStr "N/A")) ∧
  (∀ idf_objects object_name i,
      find_matching idf_objects object_name ≠ Some (i, version_object)).
Proof. split; [reflexivity | apply (nameless_placeholder version_object); reflexivity]. Defined.

(** ** The tabular writer *)

(** Records that all carry the same keys, in the same order, make a frame
    with exactly those columns. *)
Lemma frame_columns_uniform K data :
  add_new_keys [] K = K → add_new_keys K K = K →
  data ≠ [] → (∀ r, r ∈ data → Dict.keys r = K) →
  frame_columns data = K.
Proof.
  intros H0 HK Hne Hall. unfold frame_columns.
  destruct data as [|r0 data]; [done|]. simpl.
  rewrite (Hall r0), H0 by apply list_elem_of_here.
  assert (∀ r, r ∈ data → Dict.keys r = K) as Hrest.
  { intros r ?. apply Hall. by apply list_elem_of_further. }
  clear Hall Hne. induction data as [|r data IH]; simpl; [done|].
  rewrite (Hrest r), HK by apply list_elem_of_here.
  apply IH. intros r' ?. apply Hrest. by apply list_elem_of_further.
Qed.

Lemma extract_types_flat idf obj_type recs :
  (obj_type, recs) ∈ extract_types idf (Dict.keys idf) [] →
  recs ≠ [] ∧ ∀ r, r ∈ recs → ∃ o fn v, r = flat_record o fn v.
Proof.
  intros H. apply elem_of_extract_types in H as [H|(objects & _ & -> & Hne)].
  { by apply elem_of_nil in H. }
  split; [done|]. intros r Hr.
  apply elem_of_objects_records in Hr as (o & _ & Hr).
  apply list_elem_of_lookup in Hr as [i Hi].
  apply object_records_lookup in Hi as (fn & v & _ & _ & ->). eauto.
Qed.

Lemma type_frame recs :
  recs ≠ [] → (∀ r, r ∈ recs → ∃ o fn v, r = flat_record o fn v) →
  columns (DataFrame_of recs) = record_columns ∧
  ∀ row, row ∈ rows (DataFrame_of recs) →
         cell (DataFrame_of recs) row "Unit" = PyStr "".
Proof.
  intros Hne Hflat.
  assert (frame_columns recs = record_columns) as Hcols.
  { apply frame_columns_uniform; [done..|].
    intros r Hr. by destruct (Hflat r Hr) as (o & fn & v & ->). }
  split; [done|]. intros row Hrow. unfold cell, DataFrame_of in *. simpl in *.
  rewrite Hcols in *. apply elem_of_map in Hrow as (r & -> & Hr).
  by destruct (Hflat r Hr) as (o & fn & v & ->).
Qed.

Lemma all_frame (data : Dict.t (list record)) :
  let all_data :=
    concat (map (fun item => map (tagged_record item.1) item.2) data) in
  all_data ≠ [] →
  (∀ item r, item ∈ data → r ∈ item.2 → ∃ o fn v, r = flat_record o fn v) →
  columns (DataFrame_of all_data) = all_columns ∧
  ∀ row, row ∈ rows (DataFrame_of all_data) →
         cell (DataFrame_of all_data) row "Unit" = PyStr "".
Proof.
  intros all_data Hne Hflat.
  assert (∀ r, r ∈ all_data →
               ∃ t o fn v, r = tagged_record t (flat_record o fn v)) as Htag.
  { intros r Hr. apply elem_of_concat in Hr as (l & Hr & Hl).
    apply elem_of_map in Hl as (item & -> & Hitem).
    apply elem_of_map in Hr as (r0 & -> & Hr0).
    destruct (Hflat item r0 Hitem Hr0) as (o & fn & v & ->). eauto. }
  assert (frame_columns all_data = all_columns) as Hcols.
  { apply frame_columns_uniform; [done..|].
    intros r Hr. by destruct (Htag r Hr) as (t & o & fn & v & ->). }
  split; [done|]. intros row Hrow. unfold cell, DataFrame_of in *. simpl in *.
  rewrite Hcols in *. apply elem_of_map in Hrow as (r & -> & Hr).
  by destruct (Htag r Hr) as (t & o & fn & v & ->).
Qed.

(** *** The calls of the writer *)

Lemma issue_calls_trace writer calls lines todo w err :
  issue_calls writer calls lines todo = (w, err) →
  ∃ returned,
    returned `prefix_of` todo ∧
    to_excel w = calls ++ map fst returned ∧
    printed w = lines ++ map snd returned ∧
    (err = None → returned = todo).
Proof.
  revert calls lines. induction todo as [|[call ln] todo IH];
    intros calls lines; cbn [issue_calls].
  - intros [= <- <-]. exists []. by rewrite !app_nil_r.
  - destruct (write_sheet writer calls call) as [e|[]].
    + intros [= <- <-]. exists []. rewrite !app_nil_r.
      split; [apply prefix_nil | done].
    + intros (returned & Hp & -> & -> & Hall)%IH.
      exists ((call, ln) :: returned). cbn [map fst snd].
      rewrite <- !app_assoc. split; [by apply prefix_cons|].
      split; [done|]. split; [done|]. intros He. by rewrite Hall.
Qed.

Lemma issue_calls_accepted writer calls lines todo :
  accepts_calls writer calls (map fst todo) →
  issue_calls writer calls lines todo
  = ({| to_excel := calls ++ map fst todo;
        printed := lines ++ map snd todo |}, None) ∧
  close_writer writer (calls ++ map fst todo) = Loaded tt.
Proof.
  revert calls lines. induction todo as [|[call ln] todo IH];
    intros calls lines; cbn [issue_calls accepts_calls map fst snd].
  - intros H. by rewrite !app_nil_r.
  - intros [-> H]. destruct (IH _ (lines ++ [ln]) H) as [-> Hc].
    by rewrite <- !app_assoc in *.
Qed.

Lemma write_data_nonempty writer data path individual :
  data ≠ [] →
  write_data_to_excel writer (Some data) path individual
  = write_sheets writer data path individual.
Proof. by destruct data. Qed.

(** When the library lets the calls through, the function makes every call
    of its plan and prints the success lines. *)
Lemma write_accepted writer data path individual :
  data ≠ [] →
  accepts writer (planned_calls data individual) →
  write_data_to_excel writer (Some data) path individual
  = {| to_excel := planned_calls data individual;
       printed :=
         map snd (plan data individual)
         ++ [SuccessLine path;
             TotalLine (1 + (if individual then length data else 0))] |}.
Proof.
  intros Hne [Hopen Hcalls]. rewrite write_data_nonempty by done.
  unfold write_sheets. rewrite Hopen.
  destruct (issue_calls_accepted writer [] [] (plan data individual) Hcalls)
    as [-> Hclose].
  cbn [app to_excel printed] in *. by rewrite Hclose.
Qed.

(** Whatever the library answers, the calls that returned are calls of the
    plan. *)
Lemma write_calls_planned writer data path individual call :
  call ∈ to_excel (write_data_to_excel writer (Some data) path individual) →
  call ∈ planned_calls data individual.
Proof.
  destruct (decide (data = [])) as [->|Hne]; [by intros ?%elem_of_nil|].
  rewrite write_data_nonempty by done. unfold write_sheets.
  destruct (open_writer writer); [by intros ?%elem_of_nil|].
  destruct (issue_calls writer [] [] (plan data individual)) as [w err] eqn:E.
  apply issue_calls_trace in E as (returned & [k Hk] & Hcalls & _ & _).
  assert (call ∈ to_excel w → call ∈ planned_calls data individual) as H.
  { rewrite Hcalls. cbn [app]. unfold planned_calls. rewrite Hk, map_app.
    intros ?. apply elem_of_app. by left. }
  destruct err; [done|]. by destruct (close_writer writer (to_excel w)).
Qed.

Lemma planned_calls_eq data individual :
  let all_data :=
    concat (map (fun item => map (tagged_record item.1) item.2) data) in
  planned_calls data individual
  = (match all_data with
     | [] => []
     | _ => [("ALL", DataFrame_of all_data)]
     end) ++
    (if individual
     then map (fun item => (sheet_name_of item.1, DataFrame_of item.2)) data
     else []).
Proof.
  intros all_data. unfold planned_calls, plan. fold all_data.
  rewrite map_app. f_equal.
  - by destruct all_data.
  - destruct individual; [|done]. rewrite map_map. done.
Qed.

Lemma planned_lines_eq data individual :
  let all_data :=
    concat (map (fun item => map (tagged_record item.1) item.2) data) in
  map snd (plan data individual)
  = (match all_data with
     | [] => []
     | _ => [RecordsLine "ALL" (length all_data)]
     end) ++
    (if individual
     then map (fun item => RecordsLine item.1 (length item.2)) data
     else []).
Proof.
  intros all_data. unfold plan. fold all_data. rewrite map_app. f_equal.
  - by destruct all_data.
  - destruct individual; [|done]. rewrite map_map. done.
Qed.

Lemma accepting_writer_accepts calls : accepts accepting_writer calls.
Proof.
  split; [done|]. generalize (@nil (string * DataFrame)).
  induction calls as [|call calls IH]; intros returned; simpl; [done|].
  split; [done | apply IH].
Qed.

(** C6 -- Sheet column shape, as the code has it.  For the data the
    extraction produces, the first call the writer plans is for ALL, with
    exactly the columns ObjectType, ObjectName, FieldName, Value, Unit, and
    the calls it plans for the object types (when individual sheets are
    requested) have exactly the columns ObjectName, FieldName, Value, Unit;
    the Unit cell of every row of every frame is the empty string.  Every
    call made is one of those, whatever the library answers, and when the
    library lets them through the calls made are exactly those. *)
Theorem sheet_columns writer idf data path individual :
  extract_idf_data (Loaded idf) = Some data →
  data ≠ [] →
  let result := write_data_to_excel writer (Some data) path individual in
  ∃ all_df,
    planned_calls data individual
      = ("ALL", all_df) ::
        (if individual
         then map (fun item => (sheet_name_of item.1, DataFrame_of item.2)) data
         else []) ∧
    (∀ call, call ∈ to_excel result → call ∈ planned_calls data individual) ∧
    (accepts writer (planned_calls data individual) →
     to_excel result = planned_calls data individual) ∧
    columns all_df
      = ["ObjectType"; "ObjectName"; "FieldName"; "Value"; "Unit"] ∧
    (∀ row, row ∈ rows all_df → cell all_df row "Unit" = PyStr "") ∧
    ∀ item, item ∈ data →
      columns (DataFrame_of item.2)
        = ["ObjectName"; "FieldName"; "Value"; "Unit"] ∧
      ∀ row, row ∈ rows (DataFrame_of item.2) →
             cell (DataFrame_of item.2) row "Unit" = PyStr "".
Proof.
  intros [= <-] Hne.
  set (data := extract_types idf (Dict.keys idf) []) in *.
  assert (∀ item, item ∈ data →
            item.2 ≠ [] ∧ ∀ r, r ∈ item.2 → ∃ o fn v, r = flat_record o fn v)
    as Hflat.
  { intros [t recs] ?. by apply (extract_types_flat idf t). }
  set (all_data :=
         concat (map (fun item => map (tagged_record item.1) item.2) data)).
  assert (all_data ≠ []) as Hall.
  { destruct data as [|[t recs] rest] eqn:Ed; [done|].
    destruct (Hflat (t, recs)) as [Hrecs _]; [apply list_elem_of_here|].
    destruct recs; [done|]. done. }
  destruct (all_frame data Hall) as [Hcols Hunit].
  { intros item r Hi Hr. by apply (Hflat item Hi). }
  intros result. exists (DataFrame_of all_data).
  split; [|split; [|split; [|split; [done|split; [done|]]]]].
  - rewrite planned_calls_eq. cbv zeta. fold all_data.
    by destruct all_data eqn:Ea.
  - intros call. apply write_calls_planned.
  - intros Hacc. subst result. by rewrite write_accepted.
  - intros item Hi. destruct (Hflat item Hi). by apply type_frame.
Qed.

(** The column shapes on the worked example, with a library that lets the
    calls through. *)
Lemma sheet_columns_witness :
  let data := extract_types example_idf (Dict.keys example_idf) [] in
  let result := write_data_to_excel accepting_writer (Some data) "out.xlsx"
                                    true in
  ∃ all_df,
    planned_calls data true
      = ("ALL", all_df) ::
        map (fun item => (sheet_name_of item.1, DataFrame_of item.2)) data ∧
    (∀ call, call ∈ to_excel result → call ∈ planned_calls data true) ∧
    (accepts accepting_writer (planned_calls data true) →
     to_excel result = planned_calls data true) ∧
    columns all_df
      = ["ObjectType"; "ObjectName"; "FieldName"; "Value"; "Unit"] ∧
    (∀ row, row ∈ rows all_df → cell all_df row "Unit" = PyStr "") ∧
    ∀ item, item ∈ data →
      columns (DataFrame_of item.2)
        = ["ObjectName"; "FieldName"; "Value"; "Unit"] ∧
      ∀ row, row ∈ rows (DataFrame_of item.2) →
             cell (DataFrame_of item.2) row "Unit" = PyStr "".
Proof.
  apply (sheet_columns accepting_writer example_idf _ "out.xlsx" true).
  - reflexivity.
  - vm_compute. discriminate.
Defined.

(** C6, the claim as written fails: on the worked example the ALL sheet
    carries a fifth column, Unit. *)
Lemma all_sheet_has_unit_column :
  ¬ (∀ df,
       ("ALL", df) ∈ to_excel (write_data_to_excel accepting_writer
                                 (extract_idf_data (Loaded example_idf))
                                 "out.xlsx" true) →
       columns df = ["ObjectType"; "ObjectName"; "FieldName"; "Value"]).
Proof.
  intros H.
  specialize (H (DataFrame_of
    (concat (map (fun item => map (tagged_record item.1) item.2)
                 (extract_types example_idf (Dict.keys example_idf) []))))).
  assert (columns (DataFrame_of
    (concat (map (fun item => map (tagged_record item.1) item.2)
                 (extract_types example_idf (Dict.keys example_idf) []))))
          = all_columns) as Hc by (vm_compute; reflexivity).
  rewrite Hc in H. discriminate H. vm_compute. apply list_elem_of_here.
Qed.

(** *** Worksheet names *)

Lemma substring_length n s : String.length (String.substring 0 n s) ≤ n.
Proof.
  revert s. induction n as [|n IH]; intros [|c s]; simpl; try lia.
  specialize (IH s). lia.
Qed.

Lemma sheet_name_of_length obj_type : String.length (sheet_name_of obj_type) ≤ 31.
Proof. apply substring_length. Qed.

(** C7 -- Sheet-name collisions: the code has no check for them.  With
    individual sheets requested, and the library letting the calls through,
    the writer makes one [to_excel] call per object type, in data order,
    under the type's sanitised name (at most 31 characters), after at most
    one call for ALL; so two types whose sanitised names coincide are both
    written under that one sheet name.  Everything printed before the two
    closing lines is a per-sheet record count, and the closing lines report
    success with a total that counts every type: no line reports a
    collision. *)
Theorem sheet_name_collisions_unreported writer data path :
  data ≠ [] →
  accepts writer (planned_calls data true) →
  let w := write_data_to_excel writer (Some data) path true in
  (∃ all_part,
      length all_part ≤ 1 ∧
      to_excel w
        = all_part ++
          map (fun item => (sheet_name_of item.1, DataFrame_of item.2)) data ∧
      ∀ i j ti tj di dj,
        data !! i = Some (ti, di) → data !! j = Some (tj, dj) →
        sheet_name_of ti = sheet_name_of tj →
        String.length (sheet_name_of ti) ≤ 31 ∧
        to_excel w !! (length all_part + i)
          = Some (sheet_name_of ti, DataFrame_of di) ∧
        to_excel w !! (length all_part + j)
          = Some (sheet_name_of ti, DataFrame_of dj)) ∧
  (∃ counts,
      printed w = counts ++ [SuccessLine path; TotalLine (1 + length data)] ∧
      ∀ l, l ∈ counts → ∃ label n, l = RecordsLine label n).
Proof.
  intros Hne Hacc w. subst w. rewrite write_accepted by done.
  rewrite planned_calls_eq, planned_lines_eq. cbv zeta. cbn [to_excel printed].
  set (all_data := concat (map (fun item => map (tagged_record item.1) item.2) data)).
  set (all_part := match all_data with
                   | [] => []
                   | _ => [("ALL", DataFrame_of all_data)]
                   end).
  split.
  - exists all_part. split; [|split; [done|]].
    { subst all_part. destruct all_data; simpl; lia. }
    intros i j ti tj di dj Hi Hj Heq. split; [apply sheet_name_of_length|].
    assert (∀ k n : nat, n + k - n = k) as Hsub by (intros; lia).
    rewrite !lookup_app_r, !Hsub by lia.
    change (map ?f ?l) with (f <$> l). rewrite !list_lookup_fmap, Hi, Hj.
    simpl. by rewrite Heq.
  - exists ((match all_data with
             | [] => []
             | _ => [RecordsLine "ALL" (length all_data)]
             end) ++
            map (fun item => RecordsLine item.1 (length item.2)) data).
    split; [by rewrite <- app_assoc|].
    intros l [Hl|Hl]%elem_of_app.
    + destruct all_data; simpl in Hl.
      * by apply elem_of_nil in Hl.
      * apply list_elem_of_singleton in Hl as ->. eauto.
    + apply elem_of_map in Hl as (it & -> & _). eauto.
Qed.

(** The writer on the two opening types, with a library that lets the
    calls through. *)
Lemma sheet_name_collisions_unreported_witness :
  let data := extract_types airflow_idf (Dict.keys airflow_idf) [] in
  let w := write_data_to_excel accepting_writer (Some data) "out.xlsx" true in
  (∃ all_part,
      length all_part ≤ 1 ∧
      to_excel w
        = all_part ++
          map (fun item => (sheet_name_of item.1, DataFrame_of item.2)) data ∧
      ∀ i j ti tj di dj,
        data !! i = Some (ti, di) → data !! j = Some (tj, dj) →
        sheet_name_of ti = sheet_name_of tj →
        String.length (sheet_name_of ti) ≤ 31 ∧
        to_excel w !! (length all_part + i)
          = Some (sheet_name_of ti, DataFrame_of di) ∧
        to_excel w !! (length all_part + j)
          = Some (sheet_name_of ti, DataFrame_of dj)) ∧
  (∃ counts,
      printed w = counts ++ [SuccessLine "out.xlsx"; TotalLine (1 + length data)] ∧
      ∀ l, l ∈ counts → ∃ label n, l = RecordsLine label n).
Proof.
  intros data.
  apply (sheet_name_collisions_unreported accepting_writer data "out.xlsx").
  - vm_compute. discriminate.
  - apply accepting_writer_accepts.
Defined.

(** C7 at the two opening types: they differ only past character 31 of
    their sanitised names; the two frames go to [to_excel] under the same
    sheet name, and the printed lines are the ordinary success report with
    a total of three sheets. *)
Example colliding_sheets_written_silently :
  let w := write_data_to_excel accepting_writer
             (extract_idf_data (Loaded airflow_idf)) "out.xlsx" true in
  detailed_opening ≠ simple_opening ∧
  sheet_name_of detailed_opening = sheet_name_of simple_opening ∧
  (to_excel w).*1
    = ["ALL"; "AIRFLOWNETWORKMULTIZONECOMPONEN";
       "AIRFLOWNETWORKMULTIZONECOMPONEN"] ∧
  printed w
    = [RecordsLine "ALL" 4; RecordsLine detailed_opening 2;
       RecordsLine simple_opening 2; SuccessLine "out.xlsx"; TotalLine 3].
Proof. vm_compute. repeat split; discriminate. Qed.

(** ** The validator *)

(** *** Messages of different sheets are different texts *)

Lemma string_app_cons c s t : String c s +:+ t = String c (s +:+ t).
Proof. reflexivity. Qed.

Lemma string_app_nil t : "" +:+ t = t.
Proof. reflexivity. Qed.

Lemma has_bracket_app s r : has_bracket (s +:+ String "[" r) = true.
Proof.
  induction s as [|c s IH]; [done|].
  rewrite string_app_cons. simpl. by rewrite IH, orb_true_r.
Qed.

Lemma from_last_bracket_app s r :
  has_bracket r = false →
  from_last_bracket (s +:+ String "[" r) = String "[" r.
Proof.
  intros Hr. induction s as [|c s IH].
  - rewrite string_app_nil. simpl. by rewrite Hr.
  - rewrite string_app_cons. simpl. by rewrite has_bracket_app.
Qed.

Lemma string_app_length s t :
  String.length (s +:+ t) = String.length s + String.length t.
Proof.
  induction s as [|c s IH]; [done|].
  rewrite string_app_cons. simpl. by rewrite IH.
Qed.

Lemma string_app_assoc s t u : (s +:+ t) +:+ u = s +:+ t +:+ u.
Proof.
  induction s as [|c s IH]; [done|].
  rewrite !string_app_cons. by rewrite IH.
Qed.

Lemma string_app_inv_tail s t u : s +:+ u = t +:+ u → s = t.
Proof.
  revert t. induction s as [|c s IH]; intros [|d t] H.
  - done.
  - apply (f_equal String.length) in H.
    rewrite string_app_nil, string_app_cons in H. simpl in H.
    rewrite string_app_length in H. lia.
  - apply (f_equal String.length) in H.
    rewrite string_app_nil, string_app_cons in H. simpl in H.
    rewrite string_app_length in H. lia.
  - rewrite !string_app_cons in H. injection H as -> H. f_equal. by apply IH.
Qed.

(** The printed list of missing columns opens with its only bracket. *)
Lemma repr_missing_columns df :
  ∃ r, repr_list (missing_columns df) = String "[" r ∧ has_bracket r = false.
Proof.
  unfold missing_columns, required_columns.
  rewrite !filter_cons, filter_nil.
  repeat case_decide; eexists; (split; [reflexivity | reflexivity]).
Qed.

Lemma missing_message_inj s1 s2 df1 df2 :
  missing_message s1 (missing_columns df1)
    = missing_message s2 (missing_columns df2) →
  s1 = s2.
Proof.
  unfold missing_message. intros H.
  destruct (repr_missing_columns df1) as (r1 & E1 & H1).
  destruct (repr_missing_columns df2) as (r2 & E2 & H2).
  rewrite E1, E2 in H.
  assert (String "[" r1 = String "[" r2) as Hr.
  { apply (f_equal from_last_bracket) in H.
    rewrite <- !string_app_assoc in H.
    by rewrite !from_last_bracket_app in H. }
  rewrite Hr in H. injection H as H.
  repeat match type of H with
         | String ?c _ = String ?c _ => injection H as H
         end.
  rewrite !string_app_nil, <- !string_app_assoc in H.
  by apply string_app_inv_tail, string_app_inv_tail in H.
Qed.

(** *** The loop over the object sheets *)

Lemma validate_sheets_concat excel_data object_sheets messages :
  validate_sheets excel_data object_sheets messages
  = messages ++ concat (map (messages_of excel_data) object_sheets).
Proof.
  revert messages.
  induction object_sheets as [|s rest IH]; intros messages; simpl.
  - by rewrite app_nil_r.
  - unfold messages_of at 1. destruct (Dict.get excel_data s) as [df|].
    + by rewrite IH, app_assoc.
    + by rewrite IH.
Qed.

Lemma sheet_messages_length sheet_name df :
  length (sheet_messages sheet_name df) = violations df.
Proof.
  unfold sheet_messages, violations.
  destruct (missing_columns df), (df_empty df); done.
Qed.

Lemma dict_get_keys {V} (d : Dict.t V) k :
  k ∈ Dict.keys d → is_Some (Dict.get d k).
Proof.
  unfold Dict.keys. induction d as [|[k0 v0] d IH]; simpl.
  - by intros ?%elem_of_nil.
  - destruct (bool_decide_reflect (k0 = k)); [by eauto|].
    intros [?|?]%elem_of_cons; [done | auto].
Qed.

Lemma validate_result path excel_data :
  validate_excel_for_update path (Some (Loaded excel_data))
  = match object_sheets_of excel_data with
    | [] =>
        (false, ["No object-specific sheets found (only 'ALL' sheet present)"])
    | sheets =>
        match concat (map (messages_of excel_data) sheets) with
        | [] => (true, ["Excel file format is valid for IDF updates"])
        | messages => (false, messages)
        end
    end.
Proof.
  unfold validate_excel_for_update. fold (object_sheets_of excel_data).
  destruct (object_sheets_of excel_data); [done|].
  by rewrite validate_sheets_concat.
Qed.

Lemma concat_nil {A} (ls : list (list A)) :
  concat ls = [] ↔ ∀ l, l ∈ ls → l = [].
Proof.
  induction ls as [|l ls IH]; simpl.
  - split; [by intros _ l ?%elem_of_nil | done].
  - split.
    + intros [-> Hls]%app_eq_nil l' [->|?]%elem_of_cons; [done|]. by apply IH.
    + intros H. rewrite (H l) by apply list_elem_of_here. simpl.
      apply IH. intros l' ?. apply H. by apply list_elem_of_further.
Qed.

Lemma concat_length {A} (ls : list (list A)) :
  length (concat ls) = sum_list (map length ls).
Proof.
  induction ls as [|l ls IH]; simpl; [done|]. by rewrite length_app, IH.
Qed.

Lemma sheet_messages_nil sheet_name df :
  sheet_messages sheet_name df = [] ↔
  missing_columns df = [] ∧ df_empty df = false.
Proof.
  unfold sheet_messages.
  destruct (missing_columns df), (df_empty df); simpl;
    (split; [intros ? | intros [? ?]]); done.
Qed.

(** The answer of the validator on a workbook that was read, in terms of
    the messages of its object sheets. *)
Lemma validate_answer path excel_data :
  let result := validate_excel_for_update path (Some (Loaded excel_data)) in
  (result.1 = true ↔
     object_sheets_of excel_data ≠ [] ∧
     ∀ sheet df, sheet ∈ object_sheets_of excel_data →
                 Dict.get excel_data sheet = Some df →
                 missing_columns df = [] ∧ df_empty df = false) ∧
  (object_sheets_of excel_data = [] →
     result
     = (false, ["No object-specific sheets found (only 'ALL' sheet present)"])) ∧
  (∀ sheet df,
     sheet ∈ Dict.keys excel_data → sheet ≠ "ALL" →
     Dict.get excel_data sheet = Some df →
     (missing_columns df ≠ [] →
        result.1 = false ∧
        missing_message sheet (missing_columns df) ∈ result.2) ∧
     (df_empty df = true →
        result.1 = false ∧ empty_message sheet ∈ result.2)) ∧
  (object_sheets_of excel_data ≠ [] → result.1 = false →
     result.2
       = concat (map (messages_of excel_data) (object_sheets_of excel_data)) ∧
     length result.2
       = sum_list (map (fun sheet =>
                          from_option violations 0 (Dict.get excel_data sheet))
                       (object_sheets_of excel_data))) ∧
  (∀ s1 s2 df1 df2,
     s1 ≠ s2 →
     missing_message s1 (missing_columns df1)
       ≠ missing_message s2 (missing_columns df2)) ∧
  (validate_excel_for_update path None).1 = false ∧
  (∀ e, (validate_excel_for_update path (Some (Raised e))).1 = false).
Proof.
  intros result.
  set (sheets := object_sheets_of excel_data).
  set (messages := concat (map (messages_of excel_data) sheets)).
  assert (sheets = [] ∧
          result = (false, ["No object-specific sheets found (only 'ALL' sheet present)"])
          ∨ sheets ≠ [] ∧ messages = [] ∧
            result = (true, ["Excel file format is valid for IDF updates"])
          ∨ sheets ≠ [] ∧ messages ≠ [] ∧ result = (false, messages)) as Hres.
  { subst result messages. rewrite validate_result. fold sheets.
    generalize sheets. intros [|s l]; [by left|]. right.
    destruct (concat _); [by left | by right]. }
  clearbody result.
  assert (messages = [] ↔
          ∀ sheet df, sheet ∈ sheets → Dict.get excel_data sheet = Some df →
                      missing_columns df = [] ∧ df_empty df = false) as Hnil.
  { unfold messages. rewrite concat_nil. split.
    - intros H sheet df Hin Hget. apply (sheet_messages_nil sheet).
      apply H, elem_of_map. exists sheet. split; [|done].
      unfold messages_of. by rewrite Hget.
    - intros H l (sheet & -> & Hin)%elem_of_map. unfold messages_of.
      destruct (Dict.get excel_data sheet) as [df|] eqn:Hget; [|done].
      apply sheet_messages_nil. by apply (H sheet). }
  assert (∀ sheet df m, sheet ∈ sheets → Dict.get excel_data sheet = Some df →
            m ∈ sheet_messages sheet df → result.1 = false ∧ m ∈ result.2)
    as Hrep.
  { intros sheet df m Hin Hget Hm.
    assert (m ∈ messages) as Hmem.
    { apply elem_of_concat. exists (sheet_messages sheet df). split; [done|].
      apply elem_of_map. exists sheet. split; [|done].
      unfold messages_of. by rewrite Hget. }
    destruct Hres as [[Hs _]|[(_ & Hm0 & _)|(_ & _ & ->)]].
    - rewrite Hs in Hin. by apply elem_of_nil in Hin.
    - rewrite Hm0 in Hmem. by apply elem_of_nil in Hmem.
    - done. }
  split; [|split; [|split; [|split; [|split; [|split]]]]].
  - destruct Hres as [[Hs ->]|[(Hs & Hm0 & ->)|(Hs & Hm0 & ->)]]; simpl.
    + split; [done | by intros [? _]].
    + split; [|done]. intros _. split; [done|]. by apply Hnil.
    + split; [done|]. intros [_ H]. by apply (proj2 Hnil) in H.
  - intros Hs. by destruct Hres as [[_ ->]|[(? & _)|(? & _)]].
  - intros sheet df Hkey Hne Hget.
    assert (sheet ∈ sheets) as Hin by by apply list_elem_of_filter.
    split.
    + intros Hmiss. apply (Hrep sheet df); [done..|]. unfold sheet_messages.
      destruct (missing_columns df); [done|]. apply elem_of_app. left.
      apply list_elem_of_here.
    + intros Hemp. apply (Hrep sheet df); [done..|]. unfold sheet_messages.
      rewrite Hemp. apply elem_of_app. right. apply list_elem_of_here.
  - intros Hne Hfalse.
    destruct Hres as [[Hs _]|[(_ & _ & ->)|(_ & _ & ->)]]; [done..|].
    simpl. split; [done|]. unfold messages. rewrite concat_length.
    f_equal. rewrite map_map. apply map_ext. intros sheet.
    unfold messages_of. destruct (Dict.get excel_data sheet); [|done].
    apply sheet_messages_length.
  - intros s1 s2 df1 df2 Hne H. by apply missing_message_inj in H.
  - done.
  - done.
Qed.

(** *** The required columns, by name *)

Lemma missing_columns_nil df :
  missing_columns df = [] ↔
  ∀ col, col ∈ ["ObjectName"; "FieldName"; "Value"] → col ∈ columns df.
Proof.
  unfold missing_columns, required_columns. rewrite !filter_cons, filter_nil.
  split.
  - intros H col Hcol. repeat case_decide; try done.
    destruct (decide (col ∈ columns df)) as [|Hn]; [done|].
    repeat (apply elem_of_cons in Hcol as [->|Hcol]; [done|]).
    by apply elem_of_nil in Hcol.
  - intros H.
    assert ("ObjectName" ∈ columns df) by apply H, list_elem_of_here.
    assert ("FieldName" ∈ columns df)
      by apply H, list_elem_of_further, list_elem_of_here.
    assert ("Value" ∈ columns df)
      by (apply H; do 2 apply list_elem_of_further; apply list_elem_of_here).
    by rewrite !decide_False by (intros Hn; by apply Hn).
Qed.

Lemma elem_of_missing_columns df col :
  col ∈ missing_columns df ↔
  col ∈ ["ObjectName"; "FieldName"; "Value"] ∧ col ∉ columns df.
Proof.
  unfold missing_columns, required_columns.
  rewrite list_elem_of_filter. tauto.
Qed.

Lemma df_empty_true df :
  df_empty df = true ↔ columns df = [] ∨ rows df = [].
Proof.
  unfold df_empty. destruct (columns df), (rows df); simpl; split;
    try done; try (by intros [?|?]); intros _; (by left) || (by right).
Qed.

(** C8 -- Validation completeness.  The required columns are ObjectName,
    FieldName and Value; an object sheet is a sheet other than ALL; a sheet
    is empty when it has no column or no row.  On a workbook that was read,
    [validate_excel_for_update] answers valid exactly when there is an
    object sheet and every object sheet has the three required columns and
    is not empty; with no object sheet it answers invalid with the one
    message saying so.  Every object sheet that lacks a required column has
    its own message in the answer, whatever the other sheets do: the text
    names the sheet and lists the required columns it lacks, that column
    among them (for a single lacking column the text is spelled out); so
    has every empty object sheet.  An invalid answer holds exactly one
    message per violation, and the missing-column messages of two different
    sheets are two different texts.  A file that is absent or unreadable is
    invalid. *)
Theorem validation_complete path excel_data :
  let result := validate_excel_for_update path (Some (Loaded excel_data)) in
  let required := ["ObjectName"; "FieldName"; "Value"] in
  let lacking df := filter (fun col => col ∉ columns df) required in
  let object_sheet sheet df :=
    sheet ∈ Dict.keys excel_data ∧ sheet ≠ "ALL" ∧
    Dict.get excel_data sheet = Some df in
  (result.1 = true ↔
     (∃ sheet, sheet ∈ Dict.keys excel_data ∧ sheet ≠ "ALL") ∧
     ∀ sheet df, object_sheet sheet df →
       (∀ col, col ∈ required → col ∈ columns df) ∧
       columns df ≠ [] ∧ rows df ≠ []) ∧
  ((∀ sheet, sheet ∈ Dict.keys excel_data → sheet = "ALL") →
     result
     = (false, ["No object-specific sheets found (only 'ALL' sheet present)"])) ∧
  (∀ sheet df col,
     object_sheet sheet df → col ∈ required → col ∉ columns df →
     result.1 = false ∧ col ∈ lacking df ∧
     "Sheet '" +:+ sheet +:+ "' missing columns: " +:+ repr_list (lacking df)
       ∈ result.2 ∧
     (lacking df = [col] →
      "Sheet '" +:+ sheet +:+ "' missing columns: ['" +:+ col +:+ "']"
        ∈ result.2)) ∧
  (∀ sheet df,
     object_sheet sheet df → columns df = [] ∨ rows df = [] →
     result.1 = false ∧ "Sheet '" +:+ sheet +:+ "' is empty" ∈ result.2) ∧
  ((∃ sheet, sheet ∈ Dict.keys excel_data ∧ sheet ≠ "ALL") →
   result.1 = false →
   length result.2
     = sum_list
         (map (fun sheet =>
                 match Dict.get excel_data sheet with
                 | Some df =>
                     (match lacking df with [] => 0 | _ => 1 end)
                     + (match columns df, rows df with
                        | [], _ | _, [] => 1
                        | _, _ => 0
                        end)
                 | None => 0
                 end)
              (filter (fun sheet => sheet ≠ "ALL") (Dict.keys excel_data)))) ∧
  (∀ s1 s2 df1 df2,
     s1 ≠ s2 →
     "Sheet '" +:+ s1 +:+ "' missing columns: " +:+ repr_list (lacking df1)
       ≠ "Sheet '" +:+ s2 +:+ "' missing columns: "
         +:+ repr_list (lacking df2)) ∧
  (validate_excel_for_update path None).1 = false ∧
  (∀ e, (validate_excel_for_update path (Some (Raised e))).1 = false).
Proof.
  intros result required lacking object_sheet.
  destruct (validate_answer path excel_data)
    as (Hvalid & Honly & Hsheet & Hcount & Hdiff & Hnone & Hraised).
  fold result in Hvalid, Honly, Hsheet, Hcount.
  assert (object_sheets_of excel_data ≠ [] ↔
          ∃ sheet, sheet ∈ Dict.keys excel_data ∧ sheet ≠ "ALL") as Hsome.
  { unfold object_sheets_of. split.
    - intros Hne. destruct (filter _ _) as [|s l] eqn:E; [done|].
      assert (s ∈ filter (fun name => name ≠ "ALL") (Dict.keys excel_data))
        as Hs by (rewrite E; apply list_elem_of_here).
      apply list_elem_of_filter in Hs as [? ?]. eauto.
    - intros (s & Hk & Hs) E.
      assert (s ∈ filter (fun name => name ≠ "ALL") (Dict.keys excel_data))
        as Hin by by apply list_elem_of_filter.
      rewrite E in Hin. by apply elem_of_nil in Hin. }
  split; [|split; [|split; [|split; [|split; [|split; [|split]]]]]].
  - rewrite Hvalid, Hsome. split.
    + intros [Hex Hall]. split; [done|].
      intros sheet df (Hk & Hs & Hget).
      destruct (Hall sheet df) as [Hm He]; [by apply list_elem_of_filter|done|].
      split; [by apply missing_columns_nil|].
      destruct (df_empty df) eqn:Hd; [done|].
      split; intros Hz;
        (assert (df_empty df = true) as Ht
           by (apply df_empty_true; (by left) || (by right)));
        congruence.
    + intros [Hex Hall]. split; [done|].
      intros sheet df [Hk Hs]%list_elem_of_filter Hget.
      destruct (Hall sheet df) as (Hc & Hcol & Hrow); [done|].
      split; [by apply missing_columns_nil|].
      destruct (df_empty df) eqn:Hd; [|done].
      by apply df_empty_true in Hd as [?|?].
  - intros Hall. apply Honly.
    destruct (object_sheets_of excel_data) as [|s l] eqn:E; [done|].
    assert (s ∈ object_sheets_of excel_data) as Hs
      by (rewrite E; apply list_elem_of_here).
    apply list_elem_of_filter in Hs as [Hne Hk]. by destruct Hne; apply Hall.
  - intros sheet df col (Hk & Hs & Hget) Hreq Hcol.
    assert (col ∈ missing_columns df) as Hin by by apply elem_of_missing_columns.
    assert (missing_columns df ≠ []) as Hne.
    { intros E. rewrite E in Hin. by apply elem_of_nil in Hin. }
    destruct (proj1 (Hsheet sheet df Hk Hs Hget) Hne) as [Hf Hm].
    split; [done|]. split; [done|]. split; [done|].
    intros E. change (lacking df) with (missing_columns df) in E.
    unfold missing_message in Hm. rewrite E in Hm.
    assert (repr_list [col] = "['" +:+ col +:+ "']") as Hr.
    { unfold repr_list. cbn [map join]. by rewrite !string_app_assoc. }
    by rewrite Hr in Hm.
  - intros sheet df (Hk & Hs & Hget) He.
    apply (proj2 (Hsheet sheet df Hk Hs Hget)). by apply df_empty_true.
  - intros Hex Hfalse. apply Hsome in Hex.
    destruct (Hcount Hex Hfalse) as [_ ->]. f_equal. apply map_ext.
    intros sheet. destruct (Dict.get excel_data sheet) as [df|]; [|done].
    simpl. unfold violations, df_empty.
    change (lacking df) with (missing_columns df).
    by destruct (columns df), (rows df).
  - intros s1 s2 df1 df2 Hne. by apply Hdiff.
  - done.
  - done.
Qed.

(** The claim's scenario: the two object sheets of the incomplete workbook
    both lack required columns.  The answer is invalid and holds a message
    for each of the two sheets, and the two messages are different
    texts. *)
Lemma validation_complete_witness :
  let result :=
    validate_excel_for_update "edits.xlsx" (Some (Loaded incomplete_workbook)) in
  result.1 = false ∧
  "Sheet 'ZONE' missing columns: ['FieldName']" ∈ result.2 ∧
  "Sheet 'MATERIAL' missing columns: ['ObjectName', 'Value']" ∈ result.2 ∧
  "Sheet 'ZONE' missing columns: ['FieldName']"
    ≠ "Sheet 'MATERIAL' missing columns: ['ObjectName', 'Value']".
Proof.
  pose proof (validation_complete "edits.xlsx" incomplete_workbook) as H.
  cbv zeta in H. destruct H as (_ & _ & Hsheet & _ & _ & Hdiff & _).
  destruct (Hsheet "ZONE" {| columns := ["ObjectName"; "Value"];
                             rows := [[PyStr "Room101"; PyStr "12.0"]] |}
              "FieldName") as (Hf & _ & _ & Hzone).
  { split; [|split; [discriminate | reflexivity]].
    apply list_elem_of_further, list_elem_of_here. }
  { apply list_elem_of_further, list_elem_of_here. }
  { vm_compute. intros H. by repeat (inversion H as [|? ? ? H']; clear H; rename H' into H). }
  destruct (Hsheet "MATERIAL" {| columns := ["FieldName"]; rows := [] |}
              "ObjectName") as (_ & _ & Hmat & _).
  { split; [|split; [discriminate | reflexivity]].
    do 2 apply list_elem_of_further. apply list_elem_of_here. }
  { apply list_elem_of_here. }
  { vm_compute. intros H. by repeat (inversion H as [|? ? ? H']; clear H; rename H' into H). }
  split; [exact Hf|]. split; [exact (Hzone eq_refl)|]. split; [exact Hmat|].
  exact (Hdiff "ZONE" "MATERIAL"
           {| columns := ["ObjectName"; "Value"];
              rows := [[PyStr "Room101"; PyStr "12.0"]] |}
           {| columns := ["FieldName"]; rows := [] |} ltac:(discriminate)).
Defined.

(** The two object sheets of the incomplete workbook each miss required
    columns; the validator reports both, and the empty one as well. *)
Example validation_reports_both_sheets :
  validate_excel_for_update "edits.xlsx" (Some (Loaded incomplete_workbook))
  = (false,
     ["Sheet 'ZONE' missing columns: ['FieldName']";
      "Sheet 'MATERIAL' missing columns: ['ObjectName', 'Value']";
      "Sheet 'MATERIAL' is empty"]).
Proof. vm_compute. reflexivity. Qed.

(** ** The update engine *)

(** *** Grouping *)

Lemma elem_of_groupby df object_name group_rows :
  (object_name, group_rows) ∈ groupby_ObjectName df →
  object_name ≠ PyNaN ∧
  group_rows
    = filter (fun row => cell df row "ObjectName" = object_name) (rows df).
Proof.
  unfold groupby_ObjectName. intros (k & [= -> ->] & Hk)%elem_of_map.
  split; [|done].
  rewrite merge_sort_Permutation, elem_of_remove_dups in Hk.
  by apply list_elem_of_filter in Hk as [? _].
Qed.

Lemma elem_of_group df object_name group_rows row :
  (object_name, group_rows) ∈ groupby_ObjectName df →
  row ∈ group_rows →
  row ∈ rows df ∧ cell df row "ObjectName" = object_name.
Proof.
  intros [_ ->]%elem_of_groupby Hrow.
  by apply list_elem_of_filter in Hrow as [? ?].
Qed.

(** *** Loops keep what every step keeps *)

Lemma foldl_invariant {A B} (P : A → Prop) (f : A → B → A) (l : list B) a :
  P a → (∀ a b, b ∈ l → P a → P (f a b)) → P (foldl f a l).
Proof.
  revert a. induction l as [|b l IH]; intros a Ha Hstep; simpl; [done|].
  apply IH.
  - apply Hstep; [apply list_elem_of_here | done].
  - intros a' b' ? ?. apply Hstep; [by apply list_elem_of_further | done].
Qed.

(** *** The statistics *)

(** What one row does to the statistics: it counts one update and logs its
    record, or counts one failure and leaves the update counters alone, or
    changes nothing. *)
Lemma update_row_stats object_type object_name df o stats row :
  let stats' := (update_row object_type object_name df (o, stats) row).2 in
  (∃ r, stats' = record_update stats r) ∨
  (∃ w, stats' = record_warning stats w) ∨
  (∃ e, stats' = record_error stats e) ∨
  stats' = stats.
Proof.
  unfold update_row.
  destruct (py_index _ _) as [idx|]; [|right; left; eauto].
  destruct (obj o !! idx) as [cur|]; [|right; right; left; eauto].
  case_bool_decide; [left; eauto | by right; right; right].
Qed.

Lemma update_row_consistent object_type object_name df state row :
  stats_consistent state.2 →
  stats_consistent (update_row object_type object_name df state row).2.
Proof.
  destruct state as [o stats]. intros [Ht Hs].
  destruct (update_row_stats object_type object_name df o stats row)
    as [[r ->]|[[w ->]|[[e ->]| ->]]]; unfold stats_consistent; simpl;
    rewrite ?length_app; simpl in *; lia.
Qed.

Lemma update_group_consistent object_type df state group :
  stats_consistent state.2 →
  stats_consistent (update_group object_type df state group).2.
Proof.
  destruct state as [objs stats], group as [k rs]. simpl. intros Hc.
  destruct (find_matching objs k) as [[i o]|]; [|done].
  pose proof (foldl_invariant (fun s => stats_consistent s.2)
                (update_row object_type k df) rs (o, stats) Hc) as H.
  destruct (foldl _ _ _) as [o' stats']. simpl. apply H.
  intros a b _. apply update_row_consistent.
Qed.

Lemma update_sheet_consistent state sheet :
  stats_consistent state.2 →
  stats_consistent (update_sheet state sheet).2.
Proof.
  destruct state as [idf stats], sheet as [sheet_name df]. simpl. intros Hc.
  case_bool_decide; [done|].
  destruct (Dict.get idf (upper (strip sheet_name))) as [objs|]; [|done].
  pose proof (foldl_invariant (fun s => stats_consistent s.2)
                (update_group (strip sheet_name) df) (groupby_ObjectName df)
                (objs, stats) Hc) as Hinv.
  destruct (foldl _ _ _) as [objs' stats']. simpl. apply Hinv.
  intros a b _. apply update_group_consistent.
Qed.

(** C9 -- Stats invariant.  Whatever the original model and the edit
    workbook are, read or not, and whether the save returns or raises, the
    statistics the run returns have
    total_updates equal to successful_updates and both equal to the number
    of logged update records.  Row by row: a row either counts one update
    in both counters and appends exactly one record, or leaves both
    counters and the log as they were; a row that counts a failure is of
    the second kind. *)
Theorem stats_invariant original_idf modified_excel saveas :
  stats_consistent
    (update_idf_from_excel original_idf modified_excel saveas).1 ∧
  ∀ object_type object_name df o stats row,
    let stats' := (update_row object_type object_name df (o, stats) row).2 in
    (total_updates stats' = total_updates stats + 1 ∧
     successful_updates stats' = successful_updates stats + 1 ∧
     failed_updates stats' = failed_updates stats ∧
     ∃ r, updated_objects stats' = updated_objects stats ++ [r]) ∨
    (total_updates stats' = total_updates stats ∧
     successful_updates stats' = successful_updates stats ∧
     updated_objects stats' = updated_objects stats).
Proof.
  split.
  - unfold update_idf_from_excel.
    destruct original_idf as [e|idf]; [by split|].
    destruct (read_excel_data modified_excel) as [e|excel_data]; [by split|].
    pose proof (foldl_invariant (fun s => stats_consistent s.2)
                  update_sheet excel_data (idf, initial_stats)) as H.
    destruct (foldl _ _ _) as [idf' stats']. simpl in H.
    assert (stats_consistent stats') as Hc.
    { apply H; [by split|]. intros a b _. apply update_sheet_consistent. }
    by destruct (saveas idf').
  - intros object_type object_name df o stats row stats'. subst stats'.
    destruct (update_row_stats object_type object_name df o stats row)
      as [[r ->]|[[w ->]|[[e ->]| ->]]]; simpl; eauto 10.
Qed.

(** *** Objects and types that are not found *)

Lemma find_matching_None idf_objects object_name :
  (∀ o, o ∈ idf_objects → hasattr_Name o = true → Name o ≠ object_name) →
  find_matching idf_objects object_name = None.
Proof.
  induction idf_objects as [|o rest IH]; intros H; simpl; [done|].
  destruct (hasattr_Name o) eqn:Ho; simpl.
  - destruct (py_eq (Name o) object_name) eqn:E.
    + apply py_eq_true in E as [E _]. exfalso.
      by apply (H o); [apply list_elem_of_here | |].
    + rewrite IH; [done|]. intros o' ?. apply H. by apply list_elem_of_further.
  - rewrite IH; [done|]. intros o' ?. apply H. by apply list_elem_of_further.
Qed.

(** C2 -- Unmatched object name, as the code has it.  When the group's
    ObjectName equals the Name of no instance of the sheet's type, the
    group as a whole counts one failed update, whatever the number of its
    rows, and one warning naming the missing object and the type is
    appended; the instances, the other counters and the log stay as they
    were. *)
Theorem unmatched_group_fails_once object_type df idf_objects stats
    object_name group_rows :
  (∀ o, o ∈ idf_objects → hasattr_Name o = true → Name o ≠ object_name) →
  update_group object_type df (idf_objects, stats) (object_name, group_rows)
  = (idf_objects,
     {| total_updates := total_updates stats;
        successful_updates := successful_updates stats;
        failed_updates := failed_updates stats + 1;
        warnings :=
          warnings stats
          ++ ["Object '" +:+ str object_name +:+ "' of type '"
              +:+ object_type +:+ "' not found in IDF"];
        errors := errors stats;
        updated_objects := updated_objects stats |}).
Proof.
  intros H. unfold update_group. by rewrite find_matching_None.
Qed.

(** A group of two rows for an object the zone list does not have. *)
Lemma unmatched_group_fails_once_witness :
  update_group "ZONE" ghost_frame ([room101], initial_stats)
               (PyStr "Ghost", rows ghost_frame)
  = ([room101],
     {| total_updates := 0; successful_updates := 0; failed_updates := 0 + 1;
        warnings := [] ++ ["Object 'Ghost' of type 'ZONE' not found in IDF"];
        errors := []; updated_objects := [] |}).
Proof.
  apply (unmatched_group_fails_once "ZONE" ghost_frame [room101] initial_stats
           (PyStr "Ghost") (rows ghost_frame)).
  intros o Ho _. apply list_elem_of_singleton in Ho as ->. vm_compute. discriminate.
Defined.

(** C2, the claim as written fails: the ZONE sheet has a group of two rows
    for an object that does not exist, and the run counts one failed
    update, not two. *)
Lemma unmatched_group_of_two_rows_counts_one :
  groupby_ObjectName ghost_frame = [(PyStr "Ghost", rows ghost_frame)] ∧
  length (rows ghost_frame) = 2 ∧
  failed_updates
    (update_idf_from_excel (Loaded example_idf)
                           (Loaded [("ZONE", ghost_frame)]) saves).1 = 1.
Proof. vm_compute. done. Qed.

Lemma update_groups_no_instances object_type df stats groups :
  foldl (update_group object_type df) ([], stats) groups
  = ([], foldl (fun st g =>
                  record_warning st (object_not_found_message g.1 object_type))
               stats groups).
Proof.
  revert stats. induction groups as [|[k rs] groups IH]; intros stats; [done|].
  simpl. by rewrite IH.
Qed.

Lemma record_warnings_fold stats (ws : list string) :
  let stats' := foldl record_warning stats ws in
  total_updates stats' = total_updates stats ∧
  successful_updates stats' = successful_updates stats ∧
  failed_updates stats' = failed_updates stats + length ws ∧
  warnings stats' = warnings stats ++ ws ∧
  errors stats' = errors stats ∧
  updated_objects stats' = updated_objects stats.
Proof.
  revert stats. induction ws as [|w ws IH]; intros stats; simpl.
  - by rewrite app_nil_r, Nat.add_0_r.
  - destruct (IH (record_warning stats w)) as (-> & -> & -> & -> & -> & ->).
    simpl. rewrite <- app_assoc. repeat split; try done. lia.
Qed.

Lemma foldl_map {A B C} (f : A → C → A) (g : B → C) (l : list B) a :
  foldl (fun a b => f a (g b)) a l = foldl f a (map g l).
Proof. revert a. induction l as [|b l IH]; intros a; simpl; [done|]. apply IH. Qed.

(** C3 -- Missing object type: the code drops such a sheet without a
    word.  A sheet whose trimmed name is, in whatever letter case, no key
    of the parsed graph is skipped: the graph and the statistics stay as
    they were, with no failed update and no warning, whatever its rows.
    The path beside it does report: a sheet other than ALL whose type is a
    key of the graph with no instance leaves the graph as it was and counts
    one failed update per ObjectName group, each with the warning that
    names the missing object and the type. *)
Theorem missing_object_type idf stats sheet_name df :
  (Dict.get idf (upper (strip sheet_name)) = None →
   update_sheet (idf, stats) (sheet_name, df) = (idf, stats)) ∧
  (sheet_name ≠ "ALL" → Dict.get idf (upper (strip sheet_name)) = Some [] →
   ∃ stats',
     update_sheet (idf, stats) (sheet_name, df) = (idf, stats') ∧
     total_updates stats' = total_updates stats ∧
     successful_updates stats' = successful_updates stats ∧
     failed_updates stats'
       = failed_updates stats + length (groupby_ObjectName df) ∧
     warnings stats'
       = warnings stats
         ++ map (fun g => "Object '" +:+ str g.1 +:+ "' of type '"
                          +:+ strip sheet_name +:+ "' not found in IDF")
                (groupby_ObjectName df) ∧
     errors stats' = errors stats ∧
     updated_objects stats' = updated_objects stats).
Proof.
  split.
  - intros Hget. unfold update_sheet. rewrite Hget. by case_bool_decide.
  - intros Hne Hget. unfold update_sheet.
    rewrite bool_decide_eq_false_2, Hget, update_groups_no_instances by done.
    rewrite (dict_set_id _ _ _ Hget). eexists. split; [done|].
    rewrite (foldl_map record_warning
               (fun g => object_not_found_message g.1 (strip sheet_name))).
    destruct (record_warnings_fold stats
                (map (fun g => object_not_found_message g.1 (strip sheet_name))
                     (groupby_ObjectName df)))
      as (-> & -> & -> & -> & -> & ->).
    by rewrite length_map.
Qed.

(** A sheet under the name the writer gives the sheet of
    BUILDINGSURFACE:DETAILED, which is the name of no type, and a sheet for
    a type the example graph knows without instances. *)
Lemma missing_object_type_witness :
  update_sheet (example_idf, initial_stats)
               ("BUILDINGSURFACEDETAILED", ghost_frame)
    = (example_idf, initial_stats) ∧
  ∃ stats',
    update_sheet (example_idf, initial_stats) ("Material", ghost_frame)
      = (example_idf, stats') ∧
    total_updates stats' = total_updates initial_stats ∧
    successful_updates stats' = successful_updates initial_stats ∧
    failed_updates stats'
      = failed_updates initial_stats + length (groupby_ObjectName ghost_frame) ∧
    warnings stats'
      = warnings initial_stats
        ++ map (fun g => "Object '" +:+ str g.1 +:+ "' of type '"
                         +:+ strip "Material" +:+ "' not found in IDF")
               (groupby_ObjectName ghost_frame) ∧
    errors stats' = errors initial_stats ∧
    updated_objects stats' = updated_objects initial_stats.
Proof.
  split.
  - apply (proj1 (missing_object_type example_idf initial_stats
                    "BUILDINGSURFACEDETAILED" ghost_frame)). reflexivity.
  - apply (proj2 (missing_object_type example_idf initial_stats
                    "Material" ghost_frame)); [discriminate | reflexivity].
Defined.

(** C3 on a run: a workbook whose one sheet is named after no type, with
    two rows.  The run reaches the save with the statistics at their
    initial values: no failed update, no warning. *)
Example missing_type_sheet_is_skipped :
  Dict.get example_idf (upper (strip "BUILDINGSURFACEDETAILED")) = None ∧
  length (rows ghost_frame) = 2 ∧
  update_idf_from_excel (Loaded example_idf)
                        (Loaded [("BUILDINGSURFACEDETAILED", ghost_frame)])
                        saves
  = (initial_stats, Some example_idf).
Proof. vm_compute. done. Qed.

(** *** One row at a time *)

(** A row never changes the field names of the object nor the number of its
    populated values. *)
Lemma update_row_shape object_type object_name df o stats row :
  let o' := (update_row object_type object_name df (o, stats) row).1 in
  fieldnames o' = fieldnames o ∧ length (obj o') = length (obj o).
Proof.
  unfold update_row.
  destruct (py_index _ _) as [idx|]; [|done].
  destruct (obj o !! idx) as [cur|]; [|done].
  case_bool_decide; [|done]. simpl. by rewrite length_insert.
Qed.

Lemma update_rows_shape object_type object_name df o stats group_rows :
  let o' := (foldl (update_row object_type object_name df) (o, stats)
                   group_rows).1 in
  fieldnames o' = fieldnames o ∧ length (obj o') = length (obj o).
Proof.
  apply (foldl_invariant
           (fun s => fieldnames s.1 = fieldnames o ∧
                     length (obj s.1) = length (obj o))); [done|].
  intros [o1 st1] row _ [Hf Hl].
  destruct (update_row_shape object_type object_name df o1 st1 row) as [-> ->].
  done.
Qed.

(** The row whose field is in the schema but past the populated values:
    the list read raises, the handler logs it. *)
Lemma update_row_raises object_type object_name df o stats row idx :
  py_index (cell df row "FieldName") (fieldnames o) = Some idx →
  obj o !! idx = None →
  update_row object_type object_name df (o, stats) row
  = (o, record_error stats
          (update_error_message (cell df row "FieldName") object_name)).
Proof. intros Hi Hv. unfold update_row. by rewrite Hi, Hv. Qed.

Lemma update_row_missing_field object_type object_name df o stats row :
  py_index (cell df row "FieldName") (fieldnames o) = None →
  update_row object_type object_name df (o, stats) row
  = (o, record_warning stats
          (field_not_found_message (cell df row "FieldName") object_name
                                   object_type)).
Proof. intros Hi. unfold update_row. by rewrite Hi. Qed.

Lemma update_row_applies object_type object_name df o stats row idx cur :
  py_index (cell df row "FieldName") (fieldnames o) = Some idx →
  obj o !! idx = Some cur →
  str cur ≠ str (cell df row "Value") →
  update_row object_type object_name df (o, stats) row
  = (set_field o idx (str (cell df row "Value")),
     record_update stats
       {| object_type := object_type; object_name := object_name;
          field_name := cell df row "FieldName"; old_value := str cur;
          new_value := str (cell df row "Value") |}).
Proof.
  intros Hi Hv Hne. unfold update_row. rewrite Hi, Hv.
  by rewrite bool_decide_eq_true_2.
Qed.


(** *** A sheet of two rows for one object *)

Lemma groupby_pair df r1 r2 object_name :
  rows df = [r1; r2] →
  cell df r1 "ObjectName" = object_name →
  cell df r2 "ObjectName" = object_name →
  object_name ≠ PyNaN →
  groupby_ObjectName df = [(object_name, [r1; r2])].
Proof.
  intros Hrows H1 H2 Hk. unfold groupby_ObjectName. rewrite Hrows. simpl.
  rewrite H1, H2.
  rewrite !filter_cons_True, filter_nil by done. simpl.
  destruct (decide_rel elem_of object_name [object_name]) as [_|Hn];
    [|exfalso; apply Hn, list_elem_of_here].
  cbv [merge_sort merge_sort_aux merge_stack merge_list_to_stack]. simpl.
  by rewrite !filter_cons_True, filter_nil by done.
Qed.

Lemma set_field_lookup o idx v cur :
  obj o !! idx = Some cur → obj (set_field o idx v) !! idx = Some (PyStr v).
Proof.
  intros H. simpl. apply list_lookup_insert_eq. by eapply lookup_lt_Some.
Qed.

Lemma read_single_sheet sheet_name df :
  sheet_name ≠ "ALL" → missing_columns df = [] →
  read_excel_data (Loaded [(sheet_name, df)]) = Loaded [(sheet_name, df)].
Proof.
  intros Hne Hm. simpl. by rewrite bool_decide_eq_true_2, Hm.
Qed.

(** C4 -- Single-row fault isolation.  (1) A row whose field is in the
    schema but past the populated values of the object makes the list read
    raise; the row's handler appends one entry to errors and counts one
    failed update, and the object and the other counters stay as they
    were.  (2) That row aborts nothing: the rows after it in the group are
    processed from exactly the state the rows before it left, with the one
    error logged.  (3) A sheet of two rows for one matched object, one
    naming a field that does not exist and one naming a field whose
    populated value differs from the row's, in either order, ends the run
    with failed_updates = 1, successful_updates = 1, total_updates = 1, no
    error from the rows (the only error there can be is the critical one of
    a save that raises), and the valid field holding the new value in the
    graph handed to the save. *)
Theorem fault_isolation :
  (∀ object_type object_name df o stats row idx,
     py_index (cell df row "FieldName") (fieldnames o) = Some idx →
     obj o !! idx = None →
     update_row object_type object_name df (o, stats) row
     = (o, {| total_updates := total_updates stats;
              successful_updates := successful_updates stats;
              failed_updates := failed_updates stats + 1;
              warnings := warnings stats;
              errors :=
                errors stats
                ++ [update_error_message (cell df row "FieldName") object_name];
              updated_objects := updated_objects stats |})) ∧
  (∀ object_type object_name df o stats before row after idx,
     py_index (cell df row "FieldName") (fieldnames o) = Some idx →
     obj o !! idx = None →
     let step := update_row object_type object_name df in
     let reached := foldl step (o, stats) before in
     foldl step (o, stats) (before ++ row :: after)
     = foldl step
         (reached.1,
          record_error reached.2
            (update_error_message (cell df row "FieldName") object_name))
         after) ∧
  (∀ idf sheet_name df idf_objects i o object_name bad_row good_row idx cur
      saveas,
     sheet_name ≠ "ALL" →
     missing_columns df = [] →
     Dict.get idf (upper (strip sheet_name)) = Some idf_objects →
     find_matching idf_objects object_name = Some (i, o) →
     rows df = [bad_row; good_row] ∨ rows df = [good_row; bad_row] →
     cell df bad_row "ObjectName" = object_name →
     cell df good_row "ObjectName" = object_name →
     py_index (cell df bad_row "FieldName") (fieldnames o) = None →
     py_index (cell df good_row "FieldName") (fieldnames o) = Some idx →
     obj o !! idx = Some cur →
     str cur ≠ str (cell df good_row "Value") →
     ∃ stats idf' idf_objects' o',
       update_idf_from_excel (Loaded idf) (Loaded [(sheet_name, df)]) saveas
         = (stats, Some idf') ∧
       failed_updates stats = 1 ∧ successful_updates stats = 1 ∧
       total_updates stats = 1 ∧
       errors stats
         = match saveas idf' with
           | Loaded _ => []
           | Raised e => ["Critical error during IDF update: " +:+ e]
           end ∧
       Dict.get idf' (upper (strip sheet_name)) = Some idf_objects' ∧
       idf_objects' !! i = Some o' ∧
       obj o' !! idx = Some (PyStr (str (cell df good_row "Value")))).
Proof.
  split; [|split].
  - intros ??????? Hi Hv. by apply (update_row_raises _ _ _ _ _ _ idx).
  - intros object_type object_name df o stats before row after idx Hi Hv
           step reached.
    rewrite foldl_app. simpl. fold reached. f_equal.
    destruct reached as [o1 st1] eqn:Er.
    destruct (update_rows_shape object_type object_name df o stats before)
      as [Hf Hl].
    fold step in Hf, Hl. fold reached in Hf, Hl. rewrite Er in Hf, Hl.
    simpl in Hf, Hl. simpl. apply update_row_raises with idx.
    + by rewrite Hf.
    + apply lookup_ge_None. rewrite Hl. by apply lookup_ge_None.
  - intros idf sheet_name df idf_objects i o object_name bad_row good_row
           idx cur saveas Hne Hmiss Hget Hfind Hrows Hbad Hgood Hnofield
           Hfield Hcur Hdiff.
    destruct (find_matching_Some _ _ _ _ Hfind) as (Hio & _ & _ & Hk).
    unfold update_idf_from_excel.
    rewrite read_single_sheet by done. simpl.
    rewrite bool_decide_eq_false_2, Hget by done.
    set (v := str (cell df good_row "Value")).
    assert (∃ stats,
              foldl (update_row (strip sheet_name) object_name df)
                    (o, initial_stats) (rows df)
              = (set_field o idx v, stats) ∧
              failed_updates stats = 1 ∧ successful_updates stats = 1 ∧
              total_updates stats = 1 ∧ errors stats = []) as (stats & Hrun & Hstats).
    { destruct Hrows as [-> | ->]; cbn [foldl].
      - rewrite update_row_missing_field by done.
        rewrite (update_row_applies _ _ _ _ _ _ idx cur) by done.
        eexists. split; [done|]. done.
      - rewrite (update_row_applies _ _ _ _ _ _ idx cur) by done.
        rewrite update_row_missing_field by done.
        eexists. split; [done|]. done. }
    assert (groupby_ObjectName df = [(object_name, rows df)]) as ->.
    { destruct Hrows as [Hr | Hr]; rewrite Hr; by apply groupby_pair. }
    simpl. rewrite Hfind, Hrun.
    set (idf' := Dict.set idf (upper (strip sheet_name))
                          (<[i := set_field o idx v]> idf_objects)).
    destruct Hstats as (Hf & Hs & Ht & He).
    assert (Dict.get idf' (upper (strip sheet_name))
            = Some (<[i := set_field o idx v]> idf_objects)) as Hget'.
    { subst idf'. by rewrite dict_get_set, bool_decide_eq_true_2. }
    assert (<[i := set_field o idx v]> idf_objects !! i
            = Some (set_field o idx v)) as Hi'.
    { apply list_lookup_insert_eq. by eapply lookup_lt_Some. }
    pose proof (set_field_lookup o idx v cur Hcur) as Hv'.
    destruct (saveas idf') as [e|u] eqn:Hsave.
    + exists (record_critical stats e), idf',
             (<[i := set_field o idx v]> idf_objects), (set_field o idx v).
      rewrite Hsave. simpl. by rewrite Hf, Hs, Ht, He.
    + exists stats, idf',
             (<[i := set_field o idx v]> idf_objects), (set_field o idx v).
      rewrite Hsave. done.
Qed.

(** The two-row scenario on the worked example. *)
Lemma fault_isolation_witness :
  ∃ stats idf' idf_objects' o',
    update_idf_from_excel (Loaded example_idf) (Loaded [("ZONE", mixed_frame)])
                          saves
      = (stats, Some idf') ∧
    failed_updates stats = 1 ∧ successful_updates stats = 1 ∧
    total_updates stats = 1 ∧
    errors stats
      = match saves idf' with
        | Loaded _ => []
        | Raised e => ["Critical error during IDF update: " +:+ e]
        end ∧
    Dict.get idf' (upper (strip "ZONE")) = Some idf_objects' ∧
    idf_objects' !! 0 = Some o' ∧
    obj o' !! 2
      = Some (PyStr (str (cell mixed_frame (edit_row "Room101" "Width" "12.0")
                               "Value"))).
Proof.
  apply (proj2 (proj2 fault_isolation) example_idf "ZONE" mixed_frame
           [room101] 0 room101 (PyStr "Room101")
           (edit_row "Room101" "Depth" "4.0")
           (edit_row "Room101" "Width" "12.0") 2 (PyStr "10.5") saves).
  - discriminate.
  - reflexivity.
  - reflexivity.
  - reflexivity.
  - left. reflexivity.
  - reflexivity.
  - reflexivity.
  - reflexivity.
  - reflexivity.
  - reflexivity.
  - vm_compute. discriminate.
Defined.

(** The same two rows with an output path that cannot be written: the
    rows are counted as before, and the exception of the save is the one
    entry of errors. *)
Example failed_save_keeps_the_row_counts :
  (update_idf_from_excel (Loaded example_idf) (Loaded [("ZONE", mixed_frame)])
                         (save_fails "Permission denied")).1
  = {| total_updates := 1; successful_updates := 1; failed_updates := 1;
       warnings :=
         ["Field 'Depth' not found in object 'Room101' of type 'ZONE'"];
       errors := ["Critical error during IDF update: Permission denied"];
       updated_objects :=
         [{| object_type := "ZONE"; object_name := PyStr "Room101";
             field_name := PyStr "Width"; old_value := "10.5";
             new_value := "12.0" |}] |}.
Proof. vm_compute. reflexivity. Qed.

(** *** Applying an edit workbook a second time *)

Lemma conflict_free_spec excel_data a b :
  conflict_free excel_data = true →
  a ∈ addresses excel_data → b ∈ addresses excel_data →
  a_type a = a_type b → a_object a = a_object b → a_field a = a_field b →
  a_value a = a_value b.
Proof.
  unfold conflict_free. rewrite forallb_forall. intros H Ha Hb ? ? ?.
  apply list_elem_of_In in Ha, Hb. specialize (H a Ha).
  rewrite forallb_forall in H. specialize (H b Hb).
  rewrite bool_decide_eq_true_2 in H by done. simpl in H.
  by apply bool_decide_eq_true in H.
Qed.

Lemma keeps_names_spec excel_data a :
  keeps_names excel_data = true →
  a ∈ addresses excel_data →
  a_field a = PyStr "Name" → a_value a = str (a_object a).
Proof.
  unfold keeps_names. rewrite forallb_forall. intros H Ha Hf.
  apply list_elem_of_In in Ha. specialize (H a Ha).
  rewrite bool_decide_eq_true_2 in H by done. simpl in H.
  by apply bool_decide_eq_true in H.
Qed.

Lemma elem_of_addresses excel_data sheet_name df row :
  (sheet_name, df) ∈ excel_data → sheet_name ≠ "ALL" → row ∈ rows df →
  row_address sheet_name df row ∈ addresses excel_data.
Proof.
  intros Hs Hne Hr. unfold addresses. apply elem_of_concat.
  exists (sheet_addresses (sheet_name, df)). split.
  - unfold sheet_addresses. simpl. rewrite bool_decide_eq_false_2 by done.
    apply elem_of_map. eauto.
  - apply elem_of_map. eauto.
Qed.

(** After a row, the object is settled for what the row asked. *)
Lemma update_row_settles object_type object_name df o stats row :
  settled (update_row object_type object_name df (o, stats) row).1
          (cell df row "FieldName") (str (cell df row "Value")).
Proof.
  unfold update_row, settled.
  destruct (py_index _ (fieldnames o)) as [idx|] eqn:Hi.
  - destruct (obj o !! idx) as [cur|] eqn:Hv.
    + case_bool_decide as Hne; simpl.
      * intros idx' cur' Hi' Hv'. rewrite Hi in Hi'. injection Hi' as <-.
        rewrite list_lookup_insert_eq in Hv' by by eapply lookup_lt_Some.
        by injection Hv' as <-.
      * intros idx' cur' Hi' Hv'. rewrite Hi in Hi'. injection Hi' as <-.
        rewrite Hv in Hv'. injection Hv' as <-.
        destruct (decide (str cur = str (cell df row "Value"))); [done|].
        by destruct Hne.
    + simpl. intros idx' cur' Hi' Hv'. rewrite Hi in Hi'. injection Hi' as <-.
      by rewrite Hv in Hv'.
  - simpl. intros idx' cur' Hi'. by rewrite Hi in Hi'.
Qed.

(** A row leaves the object settled for every request it does not
    contradict. *)
Lemma update_row_keeps_settled object_type object_name df o stats row f v :
  settled o f v →
  (f = cell df row "FieldName" → v = str (cell df row "Value")) →
  settled (update_row object_type object_name df (o, stats) row).1 f v.
Proof.
  intros Hs Hsame. unfold update_row.
  destruct (py_index _ (fieldnames o)) as [idx|] eqn:Hi; [|done].
  destruct (obj o !! idx) as [cur|] eqn:Hv; [|done].
  case_bool_decide; [|done]. simpl.
  intros idx' cur' Hi' Hv'. simpl in *.
  destruct (decide (idx' = idx)) as [->|Hne].
  - apply py_index_lookup in Hi as (n & Hn & Hf).
    apply py_index_lookup in Hi' as (n' & Hn' & Hf').
    rewrite Hn in Hn'. simplify_eq.
    rewrite list_lookup_insert_eq in Hv' by by eapply lookup_lt_Some.
    simplify_eq. simpl. symmetry. by apply Hsame.
  - rewrite list_lookup_insert_ne in Hv' by done. by eapply Hs.
Qed.

Lemma update_row_name object_type object_name df o stats row :
  Name o = object_name →
  (cell df row "FieldName" = PyStr "Name" →
   str (cell df row "Value") = str object_name) →
  name_key (update_row object_type object_name df (o, stats) row).1
  = name_key o.
Proof.
  intros Hname Hnr. unfold update_row.
  destruct (py_index _ (fieldnames o)) as [idx|] eqn:Hi; [|done].
  destruct (obj o !! idx) as [cur|] eqn:Hv; [|done].
  case_bool_decide as Hne; [|done]. simpl.
  unfold name_key, hasattr_Name. simpl. f_equal.
  unfold Name in *. simpl.
  destruct (py_index (PyStr "Name") (fieldnames o)) as [iN|] eqn:HN; [|done].
  rewrite list_lookup_insert_ne; [done|]. intros ->.
  apply py_index_lookup in Hi as (n & Hn & Hf).
  apply py_index_lookup in HN as (n' & Hn' & Hf').
  rewrite Hn in Hn'. rewrite Hv in Hname. simpl in Hname.
  injection Hn' as <-. injection Hf' as <-. subst cur.
  apply Hne. symmetry. by apply Hnr.
Qed.

Lemma update_rows_name object_type object_name df o stats group_rows :
  Name o = object_name →
  (∀ row, row ∈ group_rows →
          cell df row "FieldName" = PyStr "Name" →
          str (cell df row "Value") = str object_name) →
  name_key (foldl (update_row object_type object_name df) (o, stats)
                  group_rows).1
  = name_key o.
Proof.
  intros Hname Hnr.
  apply (foldl_invariant (fun s => name_key s.1 = name_key o)); [done|].
  intros [o1 st1] row Hrow Hk. cbn beta in *. cbn [fst] in *.
  rewrite update_row_name; [done | | by apply Hnr].
  unfold name_key in Hk. congruence.
Qed.

(** The rows of a group, one after the other: what was settled stays
    settled, and every row of the group becomes settled, as long as the
    requests agree with each other. *)
Lemma update_rows_settle (C : pyval → string → Prop) object_type object_name
    df group_rows :
  (∀ f v v', C f v → C f v' → v = v') →
  (∀ row, row ∈ group_rows →
          C (cell df row "FieldName") (str (cell df row "Value"))) →
  ∀ o stats (D : pyval → string → Prop),
    (∀ f v, D f v → C f v) →
    (∀ f v, D f v → settled o f v) →
    ∀ f v,
      D f v ∨ (∃ row, row ∈ group_rows ∧ f = cell df row "FieldName" ∧
                      v = str (cell df row "Value")) →
      settled (foldl (update_row object_type object_name df) (o, stats)
                     group_rows).1 f v.
Proof.
  intros Hfun. induction group_rows as [|row rest IH];
    intros Hrows o stats D HD Hset f v Hfv.
  - destruct Hfv as [?|(row & ?%elem_of_nil & _)]; [|done]. by apply Hset.
  - cbn [foldl].
    destruct (update_row object_type object_name df (o, stats) row)
      as [o1 st1] eqn:E.
    assert (C (cell df row "FieldName") (str (cell df row "Value"))) as Hrow
      by apply Hrows, list_elem_of_here.
    apply (IH (fun r Hr => Hrows r (list_elem_of_further _ _ _ Hr)) o1 st1
              (fun f v => D f v ∨ (f = cell df row "FieldName" ∧
                                   v = str (cell df row "Value")))).
    + intros f' v' [?|[-> ->]]; [by apply HD | done].
    + intros f' v' [Hd|[-> ->]].
      * change o1 with (o1, st1).1. rewrite <- E.
        apply update_row_keeps_settled; [by apply Hset|].
        intros ->. apply (Hfun (cell df row "FieldName")); [by apply HD|done].
      * change o1 with (o1, st1).1. rewrite <- E. apply update_row_settles.
    + destruct Hfv as [?|(r & [->|?]%elem_of_cons & -> & ->)].
      * by left; left.
      * by left; right.
      * right. eauto.
Qed.

(** *** The scan by name depends on the names alone *)

Lemma find_matching_names idf_objects idf_objects' object_name :
  map name_key idf_objects = map name_key idf_objects' →
  fst <$> find_matching idf_objects object_name
  = fst <$> find_matching idf_objects' object_name.
Proof.
  revert idf_objects'.
  induction idf_objects as [|o rest IH]; intros [|o' rest'] H; try done.
  injection H as Hh Hn Hrest.
  cbn [find_matching]. rewrite Hh, Hn.
  destruct (hasattr_Name o' && py_eq (Name o') object_name); [done|].
  specialize (IH rest' Hrest).
  destruct (find_matching rest object_name) as [[j x]|],
           (find_matching rest' object_name) as [[j' x']|];
    simpl in *; congruence.
Qed.

Lemma insert_names idf_objects i o o' :
  idf_objects !! i = Some o → name_key o' = name_key o →
  map name_key (<[i := o']> idf_objects) = map name_key idf_objects.
Proof.
  intros Hi Hk. change (map ?f ?l) with (f <$> l).
  rewrite list_fmap_insert, Hk. apply list_insert_id.
  by rewrite list_lookup_fmap, Hi.
Qed.

Lemma update_group_settle (C : pyval → pyval → string → Prop) object_type df
    idf_objects stats object_name group_rows (D : pyval → pyval → string → Prop) :
  (∀ k f v v', C k f v → C k f v' → v = v') →
  (∀ row, row ∈ group_rows →
          C object_name (cell df row "FieldName") (str (cell df row "Value")) ∧
          (cell df row "FieldName" = PyStr "Name" →
           str (cell df row "Value") = str object_name)) →
  (∀ k f v, D k f v → C k f v) →
  settled_list idf_objects D →
  let idf_objects' :=
    (update_group object_type df (idf_objects, stats)
                  (object_name, group_rows)).1 in
  map name_key idf_objects' = map name_key idf_objects ∧
  settled_list idf_objects'
    (fun k f v =>
       D k f v ∨ (k = object_name ∧
                  ∃ row, row ∈ group_rows ∧ f = cell df row "FieldName" ∧
                         v = str (cell df row "Value"))).
Proof.
  intros Hfun Hrows HD Hset. unfold update_group.
  destruct (find_matching idf_objects object_name) as [[i o]|] eqn:Hfind.
  - destruct (foldl _ (o, stats) group_rows) as [o' stats'] eqn:Hrun. simpl.
    destruct (find_matching_Some _ _ _ _ Hfind) as (Hio & _ & Hname & _).
    assert (name_key o' = name_key o) as Hkey.
    { change o' with (o', stats').1. rewrite <- Hrun.
      apply update_rows_name; [done|]. intros row Hr. by apply Hrows. }
    assert (map name_key (<[i:=o']> idf_objects) = map name_key idf_objects)
      as Hnames by by apply insert_names with o.
    split; [done|].
    intros k f v j oj Hreq Hfind'.
    destruct (find_matching_Some _ _ _ _ Hfind') as (Hj & _ & Hkj & _).
    pose proof (find_matching_names _ _ k Hnames) as Hsame.
    rewrite Hfind' in Hsame. simpl in Hsame.
    destruct (find_matching idf_objects k) as [[j' oj0]|] eqn:Hfind0;
      [|done]. simpl in Hsame. injection Hsame as <-.
    destruct (find_matching_Some _ _ _ _ Hfind0) as (Hj0 & _ & Hkj0 & _).
    destruct (decide (j = i)) as [->|Hne].
    + rewrite Hio in Hj0. injection Hj0 as <-.
      rewrite list_lookup_insert_eq in Hj by by eapply lookup_lt_Some.
      injection Hj as <-.
      assert (k = object_name) as -> by congruence.
      change o' with (o', stats').1. rewrite <- Hrun.
      apply (update_rows_settle (C object_name) object_type object_name df
               group_rows (Hfun object_name)
               (fun row Hr => proj1 (Hrows row Hr)) o stats (D object_name)).
      * intros f' v'. apply HD.
      * intros f' v' Hd. by apply (Hset object_name f' v' i o).
      * destruct Hreq as [?|[_ ?]]; [by left | by right].
    + rewrite list_lookup_insert_ne in Hj by done.
      rewrite Hj0 in Hj. injection Hj as <-.
      destruct Hreq as [Hd|[-> _]].
      * by apply (Hset k f v j oj0).
      * rewrite Hfind in Hfind0. by simplify_eq.
  - simpl. split; [done|]. intros k f v j oj [Hd|[-> _]] Hfind'.
    + by apply (Hset k f v j oj).
    + by rewrite Hfind in Hfind'.
Qed.

Lemma update_groups_settle (C : pyval → pyval → string → Prop) object_type df
    groups :
  (∀ k f v v', C k f v → C k f v' → v = v') →
  (∀ k rs row, (k, rs) ∈ groups → row ∈ rs →
     C k (cell df row "FieldName") (str (cell df row "Value")) ∧
     (cell df row "FieldName" = PyStr "Name" →
      str (cell df row "Value") = str k)) →
  ∀ idf_objects stats (D : pyval → pyval → string → Prop),
    (∀ k f v, D k f v → C k f v) →
    settled_list idf_objects D →
    let idf_objects' :=
      (foldl (update_group object_type df) (idf_objects, stats) groups).1 in
    map name_key idf_objects' = map name_key idf_objects ∧
    settled_list idf_objects'
      (fun k f v =>
         D k f v ∨
         ∃ rs row, (k, rs) ∈ groups ∧ row ∈ rs ∧
                   f = cell df row "FieldName" ∧
                   v = str (cell df row "Value")).
Proof.
  intros Hfun. induction groups as [|[k rs] groups IH];
    intros Hrows objs stats D HD Hset.
  - simpl. split; [done|]. intros k f v i o [?|(rs & row & ?%elem_of_nil & _)];
      [|done]. by apply Hset.
  - cbn [foldl].
    assert (∀ row, row ∈ rs →
              C k (cell df row "FieldName") (str (cell df row "Value")) ∧
              (cell df row "FieldName" = PyStr "Name" →
               str (cell df row "Value") = str k)) as Hrs.
    { intros row Hr. apply (Hrows k rs); [apply list_elem_of_here | done]. }
    destruct (update_group_settle C object_type df objs stats k rs D Hfun
                Hrs HD Hset) as [Hnames1 Hset1].
    destruct (update_group object_type df (objs, stats) (k, rs))
      as [objs1 stats1] eqn:E.
    cbn [fst] in Hnames1, Hset1.
    set (D1 := fun k' f v =>
           D k' f v ∨ (k' = k ∧
             ∃ row, row ∈ rs ∧ f = cell df row "FieldName" ∧
                    v = str (cell df row "Value"))) in *.
    assert (∀ k' f v, D1 k' f v → C k' f v) as HD1.
    { intros k' f v [?|[-> (row & Hr & -> & ->)]]; [by apply HD|].
      by apply Hrs. }
    destruct (IH (fun k' rs' row Hg => Hrows k' rs' row
                    (list_elem_of_further _ _ _ Hg)) objs1 stats1 D1 HD1 Hset1)
      as [Hnames2 Hset2].
    split; [by rewrite Hnames2|].
    intros k' f v i o Hreq Hf. apply (Hset2 k' f v i o); [|done].
    destruct Hreq as [?|(rs' & row & [Hg|Hg]%elem_of_cons & Hr & -> & ->)].
    + by left; left.
    + injection Hg as -> ->. left; right. split; [done|]. by exists row.
    + right. by exists rs', row.
Qed.

Lemma groupby_complete df row :
  row ∈ rows df → cell df row "ObjectName" ≠ PyNaN →
  ∃ rs, (cell df row "ObjectName", rs) ∈ groupby_ObjectName df ∧ row ∈ rs.
Proof.
  intros Hrow Hk. eexists. split.
  - unfold groupby_ObjectName. apply elem_of_map.
    exists (cell df row "ObjectName"). split; [reflexivity|].
    rewrite merge_sort_Permutation, elem_of_remove_dups.
    apply list_elem_of_filter. split; [done|]. apply elem_of_map. eauto.
  - by apply list_elem_of_filter.
Qed.

Section first_pass.
Variable U : address → Prop.
Hypothesis U_conflict_free :
  ∀ a b, U a → U b → a_type a = a_type b → a_object a = a_object b →
         a_field a = a_field b → a_value a = a_value b.
Hypothesis U_keeps_names :
  ∀ a, U a → a_field a = PyStr "Name" → a_value a = str (a_object a).

Lemma update_sheet_settle idf stats sheet (D : address → Prop) :
  (∀ a, D a → U a) →
  (∀ a, a ∈ sheet_addresses sheet → U a) →
  settled_idf idf D →
  settled_idf (update_sheet (idf, stats) sheet).1
              (fun a => D a ∨ a ∈ sheet_addresses sheet).
Proof.
  destruct sheet as [sheet_name df]. intros HD HU Hset.
  unfold update_sheet, sheet_addresses in *. cbn [fst snd] in *.
  case_bool_decide as Hall.
  { intros a objs i o [?|?%elem_of_nil]; [|done]. by apply Hset. }
  set (t := upper (strip sheet_name)) in *.
  destruct (Dict.get idf t) as [objs|] eqn:Hget.
  2:{ intros a objs i o [?|Ha]; [by apply Hset|].
      apply elem_of_map in Ha as (row & -> & _). simpl. intros Hg.
      fold t in Hg. by rewrite Hget in Hg. }
  set (C := fun k f v =>
         U {| a_type := t; a_object := k; a_field := f; a_value := v |}).
  set (D3 := fun k f v =>
         D {| a_type := t; a_object := k; a_field := f; a_value := v |}).
  assert (∀ k f v v', C k f v → C k f v' → v = v') as HC.
  { intros k f v v' H1 H2. by apply (U_conflict_free _ _ H1 H2). }
  assert (∀ k rs row, (k, rs) ∈ groupby_ObjectName df → row ∈ rs →
            C k (cell df row "FieldName") (str (cell df row "Value")) ∧
            (cell df row "FieldName" = PyStr "Name" →
             str (cell df row "Value") = str k)) as Hgroups.
  { intros k rs row Hg Hr.
    destruct (elem_of_group _ _ _ _ Hg Hr) as [Hrow Hk].
    assert (U (row_address sheet_name df row)) as Hu.
    { apply HU, elem_of_map. eauto. }
    split.
    - unfold C. rewrite <- Hk. exact Hu.
    - rewrite <- Hk. apply (U_keeps_names _ Hu). }
  assert (∀ k f v, D3 k f v → C k f v) as HD3.
  { intros k f v. apply HD. }
  assert (settled_list objs D3) as Hset3.
  { intros k f v i o Hd Hf. by apply (Hset _ objs i o Hd). }
  destruct (update_groups_settle C (strip sheet_name) df
              (groupby_ObjectName df) HC Hgroups
              objs stats D3 HD3 Hset3) as [_ Hset'].
  destruct (foldl _ (objs, stats) _) as [objs' stats'] eqn:Hrun.
  cbn [fst] in *.
  intros a objs'' i o Ha Hg Hf. rewrite dict_get_set in Hg.
  case_bool_decide as Ht.
  - injection Hg as <-. destruct a as [ta k f v]. simpl in *. subst ta.
    apply (Hset' k f v i o); [|done].
    destruct Ha as [?|Ha]; [by left|]. right.
    apply elem_of_map in Ha as (row & Ha & Hrow).
    injection Ha as -> -> ->.
    destruct (find_matching_Some _ _ _ _ Hf) as (_ & _ & _ & Hk).
    destruct (groupby_complete df row Hrow Hk) as (rs & ? & ?).
    by exists rs, row.
  - destruct Ha as [Hd|Ha]; [by apply (Hset a objs'' i o)|].
    apply elem_of_map in Ha as (row & -> & _). by destruct Ht.
Qed.

Lemma update_sheets_settle sheets :
  ∀ idf stats (D : address → Prop),
    (∀ a, D a → U a) →
    (∀ sheet a, sheet ∈ sheets → a ∈ sheet_addresses sheet → U a) →
    settled_idf idf D →
    settled_idf (foldl update_sheet (idf, stats) sheets).1
                (fun a => D a ∨ ∃ sheet, sheet ∈ sheets ∧
                                         a ∈ sheet_addresses sheet).
Proof.
  induction sheets as [|sheet sheets IH]; intros idf stats D HD HU Hset.
  - simpl. intros a objs i o [?|(? & ?%elem_of_nil & _)]; [|done].
    by apply Hset.
  - cbn [foldl].
    pose proof (update_sheet_settle idf stats sheet D HD
                  (fun a => HU sheet a (list_elem_of_here _ _)) Hset) as H1.
    destruct (update_sheet (idf, stats) sheet) as [idf1 stats1].
    cbn [fst] in H1.
    pose proof (IH idf1 stats1 _
                  (fun a (H : D a ∨ a ∈ sheet_addresses sheet) =>
                     match H with
                     | or_introl d => HD a d
                     | or_intror s => HU sheet a (list_elem_of_here _ _) s
                     end)
                  (fun s a Hs => HU s a (list_elem_of_further _ _ _ Hs))
                  H1) as H2.
    intros a objs i o Ha Hg Hf. apply (H2 a objs i o); [|done..].
    destruct Ha as [?|(s & [->|?]%elem_of_cons & ?)].
    + by left; left.
    + by left; right.
    + right. by exists s.
Qed.
End first_pass.









Lemma elem_of_addresses_inv excel_data a :
  a ∈ addresses excel_data ↔
  ∃ sheet, sheet ∈ excel_data ∧ a ∈ sheet_addresses sheet.
Proof.
  unfold addresses. rewrite elem_of_concat. split.
  - intros (l & Ha & (sheet & -> & Hs)%elem_of_map). eauto.
  - intros (sheet & Hs & Ha). exists (sheet_addresses sheet).
    split; [done|]. apply elem_of_map. eauto.
Qed.

(** *** Reading a saved graph again *)









(** A row that asks for another name breaks idempotence as well, with no
    two rows in conflict: the first application succeeds on both rows,
    the roughness going to the instance that is called Brick then, and
    saves; after it the name Brick selects the renamed instance, whose
    roughness the second application changes. *)
Example renaming_rows_update_again :
  conflict_free renaming_workbook = true ∧
  keeps_names renaming_workbook = false ∧
  ∃ stats saved,
    update_idf_from_excel (Loaded renaming_idf) (Loaded renaming_workbook)
                          saves
      = (stats, Some saved) ∧
    successful_updates stats = 2 ∧ failed_updates stats = 0 ∧
    successful_updates
      (update_idf_from_excel (Loaded saved) (Loaded renaming_workbook)
                             saves).1 = 1.
Proof. split; [done|]. split; [done|]. do 2 eexists. vm_compute. done. Qed.

(** * Further properties *)

(** ** Version detection *)

Lemma re_search_Some {A} (match_at : string → option A) s m :
  re_search match_at s = Some m →
  ∃ pre suffix, s = pre +:+ suffix ∧ match_at suffix = Some m.
Proof.
  induction s as [|c s IH]; simpl.
  - destruct (match_at "") eqn:E; [|done]. intros [= <-]. by exists "", "".
  - destruct (match_at (String c s)) eqn:E.
    + intros [= <-]. by exists "", (String c s).
    + intros (pre & suffix & -> & ?)%IH. by exists (String c pre), suffix.
Qed.

Lemma re_search_head {A} (match_at : string → option A) s m :
  match_at s = Some m → re_search match_at s = Some m.
Proof. intros H. destruct s; simpl; by rewrite H. Qed.

Lemma take_while_forall p s : string_forall p (take_while p s) = true.
Proof.
  induction s as [|c s IH]; simpl; [done|].
  destruct (p c) eqn:E; simpl; [by rewrite E|done].
Qed.

Lemma take_while_app p v s :
  string_forall p v = true →
  (match s with String c _ => p c = false | EmptyString => True end) →
  take_while p (v +:+ s) = v.
Proof.
  intros Hv Hs. induction v as [|c v IH].
  - rewrite string_app_nil. destruct s; simpl; [done|]. by rewrite Hs.
  - rewrite string_app_cons. simpl in *.
    apply andb_true_iff in Hv as [-> Hv]. by rewrite IH.
Qed.

Lemma drop_while_app p v s :
  string_forall p v = true → drop_while p (v +:+ s) = drop_while p s.
Proof.
  intros Hv. induction v as [|c v IH]; [done|].
  rewrite string_app_cons. simpl in *.
  apply andb_true_iff in Hv as [-> Hv]. by apply IH.
Qed.

Lemma drop_while_stop p s :
  (match s with String c _ => p c = false | EmptyString => True end) →
  drop_while p s = s.
Proof. destruct s; simpl; [done|]. by intros ->. Qed.

Lemma after_literal_app lit s : after_literal lit (lit +:+ s) = Some s.
Proof.
  induction lit as [|c lit IH]; [by destruct s|].
  rewrite string_app_cons. simpl. by rewrite bool_decide_eq_true_2.
Qed.

Lemma isspace_not_version c : isspace c = true → is_version_char c = false.
Proof. destruct c as [[] [] [] [] [] [] [] []]; by vm_compute. Qed.

Lemma version_char_not_space c : is_version_char c = true → isspace c = false.
Proof.
  intros H. destruct (isspace c) eqn:E; [|done].
  apply isspace_not_version in E. congruence.
Qed.

Lemma re_search_skip {A} (match_at : string → option A) pre s :
  string_forall (fun c => bool_decide (c ≠ "V"%char)) pre = true →
  (∀ c rest, c ≠ "V"%char → match_at (String c rest) = None) →
  re_search match_at (pre +:+ s) = re_search match_at s.
Proof.
  intros Hpre Hm. induction pre as [|c pre IH]; [done|].
  rewrite string_app_cons. simpl in Hpre.
  apply andb_true_iff in Hpre as [Hc Hpre]. apply bool_decide_eq_true in Hc.
  cbn [re_search]. rewrite (Hm c _ Hc). by apply IH.
Qed.

Lemma match_version_at_not_V c rest :
  c ≠ "V"%char → match_version_at (String c rest) = None.
Proof.
  intros Hc. unfold match_version_at. cbn [after_literal].
  rewrite bool_decide_eq_false_2; [done|]. by intros <-.
Qed.

(** X2 -- A version line is found as it is written: after any text free
    of the letter V, the word Version, a comma, a non-empty run of digits
    and dots and a semicolon, with any white space between them, make the
    function answer exactly that run, whatever follows. *)
Theorem extract_idf_version_finds pre ws1 ws2 version ws3 rest :
  string_forall (fun c => bool_decide (c ≠ "V"%char)) pre = true →
  string_forall isspace ws1 = true →
  string_forall isspace ws2 = true →
  string_forall isspace ws3 = true →
  version ≠ "" →
  string_forall is_version_char version = true →
  extract_idf_version
    (Loaded (pre +:+ "Version" +:+ ws1 +:+ "," +:+ ws2 +:+ version +:+ ws3
             +:+ ";" +:+ rest))
  = Some version.
Proof.
  intros Hpre H1 H2 H3 Hne Hv. simpl.
  rewrite (re_search_skip _ pre); [|done|apply match_version_at_not_V].
  assert (match_version_at ("Version" +:+ ws1 +:+ "," +:+ ws2 +:+ version
                            +:+ ws3 +:+ ";" +:+ rest) = Some version) as Hm.
  { unfold match_version_at. rewrite after_literal_app.
    cbn [mbind option_bind].
    rewrite drop_while_app by done.
    rewrite (drop_while_stop isspace ("," +:+ _)) by done.
    rewrite after_literal_app. cbn [mbind option_bind].
    rewrite drop_while_app by done.
    assert (match ws3 +:+ ";" +:+ rest with
            | String c _ => is_version_char c = false
            | EmptyString => True
            end) as Hstop.
    { destruct ws3 as [|c ws3]; [done|]. rewrite string_app_cons.
      simpl in H3. apply andb_true_iff in H3 as [H3 _].
      by apply isspace_not_version. }
    assert (drop_while isspace (version +:+ ws3 +:+ ";" +:+ rest)
            = version +:+ ws3 +:+ ";" +:+ rest) as ->.
    { apply drop_while_stop. destruct version as [|c v]; [done|].
      rewrite string_app_cons. simpl in Hv.
      apply andb_true_iff in Hv as [Hv _]. by apply version_char_not_space. }
    rewrite take_while_app by done.
    destruct version as [|c v]; [done|].
    rewrite drop_while_app by done.
    rewrite (drop_while_stop is_version_char) by done.
    rewrite drop_while_app by done.
    rewrite (drop_while_stop isspace (";" +:+ rest)) by done.
    by rewrite after_literal_app. }
  by apply re_search_head.
Qed.

Lemma extract_idf_version_finds_witness :
  extract_idf_version
    (Loaded ("!- model
" +:+ "Version" +:+ " " +:+ "," +:+ "  " +:+ "22.1.0" +:+ "" +:+ ";"
             +:+ " Zone,Room101;"))
  = Some "22.1.0".
Proof.
  apply (extract_idf_version_finds "!- model
" " " "  " "22.1.0" "" " Zone,Room101;"); (reflexivity || discriminate).
Defined.

(** ** Schema-file suggestion *)

Lemma elem_of_available listing file idd_version :
  (file, idd_version) ∈ available_idd_files listing ↔
  file ∈ listing ∧ idd_version_of file = Some idd_version.
Proof.
  induction listing as [|f rest IH]; simpl.
  - split; [by intros ?%elem_of_nil | by intros [?%elem_of_nil _]].
  - destruct (idd_version_of f) as [v|] eqn:E.
    + rewrite !elem_of_cons, IH. split.
      * intros [[= -> ->]|[? ?]]; [by split; [left|] | by split; [right|]].
      * intros [[->|?] Hv]; [left; congruence | by right].
    + rewrite elem_of_cons, IH. split.
      * intros [? ?]. by split; [right|].
      * intros [[->|?] Hv]; [congruence | done].
Qed.

Lemma first_file_Some test available file :
  first_file test available = Some file →
  ∃ idd_version, (file, idd_version) ∈ available ∧ test idd_version = true.
Proof.
  induction available as [|[f v] rest IH]; simpl; [done|].
  destruct (test v) eqn:E.
  - intros [= <-]. exists v. split; [apply list_elem_of_here | done].
  - intros (v' & ? & ?)%IH. exists v'. split; [by apply list_elem_of_further|done].
Qed.

Lemma first_file_None test available :
  first_file test available = None ↔
  ∀ file idd_version, (file, idd_version) ∈ available → test idd_version = false.
Proof.
  induction available as [|[f v] rest IH]; simpl.
  - split; [by intros _ ?? ?%elem_of_nil | done].
  - destruct (test v) eqn:E.
    + split; [done|]. intros H. specialize (H f v (list_elem_of_here _ _)).
      congruence.
    + rewrite IH. split.
      * intros H f' v' [[= -> ->]|?]%elem_of_cons; [done | by apply (H f')].
      * intros H f' v' ?. apply (H f'). by apply list_elem_of_further.
Qed.

Lemma tuple_leb_total a b : tuple_leb a b = true ∨ tuple_leb b a = true.
Proof.
  revert b. induction a as [|x a IH]; intros [|y b]; simpl; auto.
  destruct (N.ltb_spec x y), (N.ltb_spec y x); auto; lia.
Qed.

Lemma tuple_leb_trans a b c :
  tuple_leb a b = true → tuple_leb b c = true → tuple_leb a c = true.
Proof.
  revert b c. induction a as [|x a IH]; intros [|y b] [|z c]; simpl; try done.
  destruct (N.ltb_spec x y), (N.ltb_spec y x), (N.ltb_spec y z),
    (N.ltb_spec z y), (N.ltb_spec x z), (N.ltb_spec z x);
    try done; try lia. apply IH.
Qed.

Lemma tuple_leb_refl a : tuple_leb a a = true.
Proof. by destruct (tuple_leb_total a a). Qed.

Lemma insert_descending_elem x sorted y :
  y ∈ insert_descending x sorted ↔ y = x ∨ y ∈ sorted.
Proof.
  induction sorted as [|z rest IH]; simpl.
  - rewrite list_elem_of_singleton, elem_of_nil. tauto.
  - destruct (tuple_leb _ _); rewrite !elem_of_cons; [tauto|].
    rewrite IH. tauto.
Qed.

Lemma sort_descending_elem l y : y ∈ sort_descending l ↔ y ∈ l.
Proof.
  induction l as [|x l IH]; simpl; [done|].
  by rewrite insert_descending_elem, elem_of_cons, IH.
Qed.

(** The head of the sorted list is a newest entry. *)
Lemma sort_descending_head l x rest :
  sort_descending l = x :: rest →
  ∀ y, y ∈ l → tuple_leb (version_key y.2) (version_key x.2) = true.
Proof.
  revert x rest. induction l as [|a l IH]; intros x rest; simpl; [done|].
  destruct (sort_descending l) as [|z r] eqn:Es.
  - simpl. intros [= <- <-] y Hy. apply elem_of_cons in Hy as [->|Hy].
    + apply tuple_leb_refl.
    + apply sort_descending_elem in Hy. rewrite Es in Hy.
      by apply elem_of_nil in Hy.
  - simpl. destruct (tuple_leb (version_key z.2) (version_key a.2)) eqn:E.
    + intros [= <- <-] y Hy. apply elem_of_cons in Hy as [->|Hy].
      * apply tuple_leb_refl.
      * apply tuple_leb_trans with (version_key z.2); [|done].
        by apply (IH z r).
    + intros [= <- <-] y Hy. apply elem_of_cons in Hy as [->|Hy].
      * destruct (tuple_leb_total (version_key a.2) (version_key z.2));
          [done | congruence].
      * by apply (IH z r).
Qed.

Lemma sort_descending_nil l : sort_descending l = [] → l = [].
Proof.
  destruct l as [|a l]; [done|]. simpl.
  destruct (sort_descending l) as [|z r]; simpl; [done|].
  by destruct (tuple_leb _ _).
Qed.

(** X3 -- A suggestion is always a file of the directory whose name ends
    in .idd and carries a version; nothing is suggested from an absent
    directory. *)
Theorem suggested_file_is_listed idf_version idd_files_dir file :
  suggest_idd_file idf_version idd_files_dir = Some file →
  ∃ listing idd_version,
    idd_files_dir = Some listing ∧ file ∈ listing ∧
    endswith file ".idd" = true ∧
    re_search match_idd_at file = Some idd_version.
Proof.
  unfold suggest_idd_file. destruct idf_version as [[|c v]|]; [done| |done].
  intros H.
  assert (∃ listing idd_version,
            idd_files_dir = Some listing ∧
            (file, idd_version) ∈ available_idd_files listing)
    as (listing & idd_version & -> & Hin).
  { destruct idd_files_dir as [listing|].
    - exists listing.
      destruct (first_file _ _) as [f|] eqn:E1.
      { injection H as <-. apply first_file_Some in E1 as (w & ? & _). eauto. }
      destruct (first_file (String.prefix _) _) as [f|] eqn:E2.
      { injection H as <-. apply first_file_Some in E2 as (w & ? & _). eauto. }
      destruct (sort_descending _) as [|[f w] r] eqn:E3; [done|].
      injection H as <-. exists w. split; [done|].
      apply sort_descending_elem. rewrite E3. apply list_elem_of_here.
    - by simpl in H. }
  apply elem_of_available in Hin as [Hin Hv].
  exists listing, idd_version. split; [done|]. split; [done|].
  unfold idd_version_of in Hv. by destruct (endswith file ".idd").
Qed.

Lemma suggested_file_is_listed_witness :
  ∃ listing idd_version,
    Some example_listing = Some listing ∧
    "V22-1-0-Energy+.idd" ∈ listing ∧
    endswith "V22-1-0-Energy+.idd" ".idd" = true ∧
    re_search match_idd_at "V22-1-0-Energy+.idd" = Some idd_version.
Proof.
  apply (suggested_file_is_listed (Some "22.1.0") (Some example_listing)).
  reflexivity.
Defined.

(** X4 -- An exact match wins: when some file of the directory carries
    exactly the model's version, the suggestion is a file that carries
    exactly that version. *)
Theorem exact_version_is_suggested idf_version listing file :
  idf_version ≠ "" →
  file ∈ listing →
  idd_version_of file = Some idf_version →
  ∃ suggested,
    suggest_idd_file (Some idf_version) (Some listing) = Some suggested ∧
    suggested ∈ listing ∧
    idd_version_of suggested = Some idf_version.
Proof.
  intros Hne Hin Hv. unfold suggest_idd_file.
  destruct idf_version as [|c v]; [done|].
  destruct (first_file (fun w => bool_decide (w = String c v))
                       (available_idd_files listing)) as [f|] eqn:E.
  - apply first_file_Some in E as (w & Hf & Hw).
    apply bool_decide_eq_true in Hw as ->.
    apply elem_of_available in Hf as [? ?]. by exists f.
  - exfalso.
    assert ((file, String c v) ∈ available_idd_files listing) as Hav
      by by apply elem_of_available.
    pose proof (proj1 (first_file_None _ _) E file (String c v) Hav) as H.
    cbv beta in H. by rewrite bool_decide_eq_true_2 in H.
Qed.

Lemma exact_version_is_suggested_witness :
  ∃ suggested,
    suggest_idd_file (Some "25.1.0") (Some example_listing) = Some suggested ∧
    suggested ∈ example_listing ∧
    idd_version_of suggested = Some "25.1.0".
Proof.
  apply (exact_version_is_suggested "25.1.0" example_listing
           "V25-1-0-Energy+.idd").
  - discriminate.
  - vm_compute. do 3 apply list_elem_of_further. apply list_elem_of_here.
  - reflexivity.
Defined.

(** X5 -- Nothing is suggested exactly when the version is absent or
    empty, or no file of the directory (if there is one) ends in .idd and
    carries a version. *)
Theorem nothing_suggested_iff idf_version idd_files_dir :
  suggest_idd_file idf_version idd_files_dir = None ↔
  idf_version = None ∨ idf_version = Some "" ∨
  idd_files_dir = None ∨
  ∃ listing, idd_files_dir = Some listing ∧
             ∀ file, file ∈ listing → idd_version_of file = None.
Proof.
  unfold suggest_idd_file.
  destruct idf_version as [[|c v]|]; [by split; auto | | by split; auto].
  set (available := match idd_files_dir with
                    | Some listing => available_idd_files listing
                    | None => []
                    end).
  assert (available = [] ↔
          idd_files_dir = None ∨
          ∃ listing, idd_files_dir = Some listing ∧
                     ∀ file, file ∈ listing → idd_version_of file = None)
    as Hav.
  { subst available. destruct idd_files_dir as [listing|].
    - split.
      + intros H. right. exists listing. split; [done|]. intros f Hf.
        destruct (idd_version_of f) as [w|] eqn:E; [|done].
        assert ((f, w) ∈ available_idd_files listing) as Hin
          by by apply elem_of_available.
        rewrite H in Hin. by apply elem_of_nil in Hin.
      + intros [?|(l & [= <-] & H)]; [done|].
        destruct (available_idd_files listing) as [|[f w] r] eqn:E; [done|].
        assert ((f, w) ∈ available_idd_files listing) as Hin
          by (rewrite E; apply list_elem_of_here).
        apply elem_of_available in Hin as [Hf Hw]. rewrite (H f Hf) in Hw.
        done.
    - split; [by left | done]. }
  split.
  - intros H. right. right. apply Hav.
    destruct (first_file _ available); [done|].
    destruct (first_file _ available); [done|].
    destruct (sort_descending available) eqn:E; [|done].
    by apply sort_descending_nil.
  - intros [?|[?|H]]; [done..|]. apply Hav in H. by rewrite H.
Qed.

Lemma split_on_head sep s w ws :
  split_on sep s = w :: ws → ∃ tail, s = w +:+ tail.
Proof.
  revert w ws. induction s as [|c s IH]; intros w ws; simpl.
  - intros [= <- <-]. by exists "".
  - case_bool_decide.
    + intros [= <- <-]. by exists (String c s).
    + destruct (split_on sep s) as [|w0 ws0] eqn:E.
      * intros [= <- <-]. exists s. done.
      * intros [= <- <-]. destruct (IH w0 ws0 eq_refl) as [tail ->].
        by exists tail.
Qed.

Lemma split_on_two sep s w1 w2 ws :
  split_on sep s = w1 :: w2 :: ws →
  ∃ tail, s = w1 +:+ String sep w2 +:+ tail.
Proof.
  revert w1 w2 ws. induction s as [|c s IH]; intros w1 w2 ws; simpl; [done|].
  case_bool_decide as Hc.
  - intros [= <- Hs]. subst c.
    destruct (split_on_head _ _ _ _ Hs) as [tail ->]. by exists tail.
  - destruct (split_on sep s) as [|w0 ws0] eqn:E; [done|].
    intros [= <- ->]. destruct (IH w0 w2 ws eq_refl) as [tail ->].
    by exists tail.
Qed.

Lemma prefix_app p t : String.prefix p (p +:+ t) = true.
Proof.
  induction p as [|c p IH]; [by destruct t|].
  rewrite string_app_cons. simpl. by destruct (ascii_dec c c).
Qed.

Lemma prefix_refl p : String.prefix p p = true.
Proof.
  induction p as [|c p IH]; [done|]. simpl. by destruct (ascii_dec c c).
Qed.

(** The version always starts with its own major.minor text. *)
Lemma major_minor_prefix idf_version :
  String.prefix (major_minor_of idf_version) idf_version = true.
Proof.
  unfold major_minor_of.
  destruct (split_on "." idf_version) as [|w1 [|w2 ws]] eqn:E;
    try apply prefix_refl.
  destruct (split_on_two _ _ _ _ _ E) as [tail ->].
  replace (w1 +:+ String "." w2 +:+ tail)
    with ((w1 +:+ "." +:+ w2) +:+ tail) by (by rewrite string_app_assoc).
  apply prefix_app.
Qed.

(** X6 -- The fall-back is the newest file: when no file's version text
    starts with the model's major.minor text, the suggestion is a file
    whose version, read as a tuple of integers, is at least that of every
    file of the directory that carries one. *)
Theorem newest_file_is_fallback idf_version listing :
  idf_version ≠ "" →
  (∃ file, file ∈ listing ∧ is_Some (idd_version_of file)) →
  (∀ file idd_version,
     file ∈ listing → idd_version_of file = Some idd_version →
     String.prefix (major_minor_of idf_version) idd_version = false) →
  ∃ suggested newest,
    suggest_idd_file (Some idf_version) (Some listing) = Some suggested ∧
    suggested ∈ listing ∧
    idd_version_of suggested = Some newest ∧
    ∀ file idd_version,
      file ∈ listing → idd_version_of file = Some idd_version →
      tuple_leb (version_key idd_version) (version_key newest) = true.
Proof.
  intros Hne (f0 & Hf0 & [v0 Hv0]) Hnone. unfold suggest_idd_file.
  destruct idf_version as [|c v]; [done|].
  set (available := available_idd_files listing).
  assert (first_file (String.prefix (major_minor_of (String c v))) available
          = None) as ->.
  { apply first_file_None. intros f w [? ?]%elem_of_available.
    by apply (Hnone f). }
  assert (first_file (fun w => bool_decide (w = String c v)) available = None)
    as ->.
  { apply first_file_None. intros f w [Hf Hw]%elem_of_available.
    apply bool_decide_eq_false. intros ->.
    specialize (Hnone f _ Hf Hw). by rewrite major_minor_prefix in Hnone. }
  destruct (sort_descending available) as [|[f w] r] eqn:Es.
  - apply sort_descending_nil in Es.
    assert ((f0, v0) ∈ available) as Hin by by apply elem_of_available.
    rewrite Es in Hin. by apply elem_of_nil in Hin.
  - assert ((f, w) ∈ available) as Hin.
    { apply sort_descending_elem. rewrite Es. apply list_elem_of_here. }
    apply elem_of_available in Hin as [Hf Hw].
    exists f, w. split; [done|]. split; [done|]. split; [done|].
    intros f' w' Hf' Hw'.
    apply (sort_descending_head _ _ _ Es (f', w')).
    by apply elem_of_available.
Qed.

Lemma newest_file_is_fallback_witness :
  ∃ suggested newest,
    suggest_idd_file (Some "8.9.0") (Some example_listing) = Some suggested ∧
    suggested ∈ example_listing ∧
    idd_version_of suggested = Some newest ∧
    ∀ file idd_version,
      file ∈ example_listing → idd_version_of file = Some idd_version →
      tuple_leb (version_key idd_version) (version_key newest) = true.
Proof.
  apply (newest_file_is_fallback "8.9.0" example_listing).
  - discriminate.
  - exists "V9-6-0-Energy+.idd". split; [apply list_elem_of_here | by eexists].
  - intros file idd_version Hin Hv.
    repeat (apply elem_of_cons in Hin as [->|Hin];
            [vm_compute in Hv; by (discriminate Hv || injection Hv as <-)|]).
    by apply elem_of_nil in Hin.
Defined.

(** ** Reading the workbook, validating it, and running the update *)

Lemma check_columns_None items :
  check_columns items = None ↔
  ∀ sheet_name df, (sheet_name, df) ∈ items → sheet_name ≠ "ALL" →
                   missing_columns df = [].
Proof.
  induction items as [|[s d] rest IH]; simpl.
  - split; [by intros _ ?? ?%elem_of_nil | done].
  - case_bool_decide as Hs.
    + destruct (missing_columns d) eqn:Em.
      * rewrite IH. split.
        -- intros H s' d' [[= -> ->]|?]%elem_of_cons ?; [done | by apply (H s')].
        -- intros H s' d' ? ?. apply (H s'); [by apply list_elem_of_further|done].
      * split; [done|]. intros H.
        specialize (H s d (list_elem_of_here _ _) Hs). congruence.
    + rewrite IH. split.
      * intros H s' d' [[= -> ->]|?]%elem_of_cons ?; [done | by apply (H s')].
      * intros H s' d' ? ?. apply (H s'); [by apply list_elem_of_further|done].
Qed.

Lemma check_columns_Some items e :
  check_columns items = Some e →
  ∃ sheet_name df,
    (sheet_name, df) ∈ items ∧ sheet_name ≠ "ALL" ∧
    missing_columns df ≠ [] ∧
    e = "Sheet '" +:+ sheet_name +:+ "' missing required columns: "
        +:+ repr_list (missing_columns df).
Proof.
  induction items as [|[s d] rest IH]; simpl; [done|].
  case_bool_decide as Hs.
  - destruct (missing_columns d) eqn:Em.
    + intros (s' & d' & ? & ?)%IH. exists s', d'.
      split; [by apply list_elem_of_further | done].
    + intros [= <-]. exists s, d. rewrite Em.
      split; [apply list_elem_of_here | done].
  - intros (s' & d' & ? & ?)%IH. exists s', d'.
    split; [by apply list_elem_of_further | done].
Qed.

Lemma dict_get_NoDup {V} (d : Dict.t V) k v :
  NoDup (Dict.keys d) → (k, v) ∈ d → Dict.get d k = Some v.
Proof.
  unfold Dict.keys. induction d as [|[k0 v0] d IH]; simpl.
  - by intros _ ?%elem_of_nil.
  - intros [Hk0 Hd]%NoDup_cons [[= -> ->]|Hin]%elem_of_cons.
    + by rewrite bool_decide_eq_true_2.
    + rewrite bool_decide_eq_false_2; [by apply IH|].
      intros ->. apply Hk0. apply list_elem_of_fmap. by exists (k, v).
Qed.

(** X7 -- A workbook the validator accepts is one the update can read:
    with one sheet per name, a valid answer of
    [validate_excel_for_update] means that [read_excel_data] hands the
    workbook back unchanged and that the update run reaches the save, for
    every model and whatever the save answers. *)
Theorem validated_workbook_is_read path excel_data :
  NoDup (Dict.keys excel_data) →
  (validate_excel_for_update path (Some (Loaded excel_data))).1 = true →
  read_excel_data (Loaded excel_data) = Loaded excel_data ∧
  ∀ idf saveas, ∃ stats idf',
    update_idf_from_excel (Loaded idf) (Loaded excel_data) saveas
      = (stats, Some idf').
Proof.
  intros Hnd Hvalid.
  assert (check_columns excel_data = None) as Hcheck.
  { apply check_columns_None. intros s d Hin Hs.
    rewrite validate_result in Hvalid.
    assert (s ∈ object_sheets_of excel_data) as Hobj.
    { apply list_elem_of_filter. split; [done|].
      apply list_elem_of_fmap. by exists (s, d). }
    destruct (object_sheets_of excel_data) as [|s0 r] eqn:Es; [done|].
    rewrite <- Es in *.
    destruct (concat _) eqn:Ec; [|done].
    assert (messages_of excel_data s = []) as Hm.
    { apply (proj1 (concat_nil _) Ec), elem_of_map. by exists s. }
    unfold messages_of in Hm. rewrite (dict_get_NoDup _ _ _ Hnd Hin) in Hm.
    by apply sheet_messages_nil in Hm as [? _]. }
  assert (read_excel_data (Loaded excel_data) = Loaded excel_data) as Hread.
  { simpl. by rewrite Hcheck. }
  split; [done|]. intros idf saveas. unfold update_idf_from_excel.
  rewrite Hread. destruct (foldl update_sheet _ _) as [idf' stats].
  destruct (saveas idf'); eauto.
Qed.

Lemma validated_workbook_is_read_witness :
  read_excel_data (Loaded edit_workbook) = Loaded edit_workbook ∧
  ∀ idf saveas, ∃ stats idf',
    update_idf_from_excel (Loaded idf) (Loaded edit_workbook) saveas
      = (stats, Some idf').
Proof.
  apply (validated_workbook_is_read "edits.xlsx" edit_workbook).
  - apply (bool_decide_unpack _). vm_compute. exact I.
  - reflexivity.
Defined.

(** X8 -- One sheet with a missing required column stops the whole run:
    whatever the other sheets hold, the save is never reached, every
    counter stays 0, and the only message is one critical error that names
    an offending sheet and its missing columns. *)
Theorem missing_columns_abort_the_run idf excel_data saveas sheet_name df :
  (sheet_name, df) ∈ excel_data → sheet_name ≠ "ALL" →
  missing_columns df ≠ [] →
  ∃ culprit culprit_df,
    (culprit, culprit_df) ∈ excel_data ∧ culprit ≠ "ALL" ∧
    missing_columns culprit_df ≠ [] ∧
    update_idf_from_excel (Loaded idf) (Loaded excel_data) saveas
    = ({| total_updates := 0; successful_updates := 0; failed_updates := 0;
          warnings := [];
          errors :=
            ["Critical error during IDF update: Error reading Excel file: "
             +:+ "Sheet '" +:+ culprit +:+ "' missing required columns: "
             +:+ repr_list (missing_columns culprit_df)];
          updated_objects := [] |},
       None).
Proof.
  intros Hin Hs Hm. unfold update_idf_from_excel, read_excel_data.
  destruct (check_columns excel_data) as [e|] eqn:E.
  - apply check_columns_Some in E as (c & d & ? & ? & ? & ->).
    exists c, d. by repeat split.
  - exfalso. apply Hm. by apply (proj1 (check_columns_None _) E sheet_name).
Qed.

Lemma missing_columns_abort_the_run_witness :
  ∃ culprit culprit_df,
    (culprit, culprit_df) ∈ incomplete_workbook ∧ culprit ≠ "ALL" ∧
    missing_columns culprit_df ≠ [] ∧
    update_idf_from_excel (Loaded example_idf) (Loaded incomplete_workbook)
                          saves
    = ({| total_updates := 0; successful_updates := 0; failed_updates := 0;
          warnings := [];
          errors :=
            ["Critical error during IDF update: Error reading Excel file: "
             +:+ "Sheet '" +:+ culprit +:+ "' missing required columns: "
             +:+ repr_list (missing_columns culprit_df)];
          updated_objects := [] |},
       None).
Proof.
  apply (missing_columns_abort_the_run example_idf incomplete_workbook saves
           "MATERIAL" {| columns := ["FieldName"]; rows := [] |}).
  - do 2 apply list_elem_of_further. apply list_elem_of_here.
  - discriminate.
  - vm_compute. discriminate.
Defined.

Lemma check_columns_without_all items :
  check_columns (filter (fun sheet => sheet.1 ≠ "ALL") items)
  = check_columns items.
Proof.
  induction items as [|[s d] rest IH]; [done|].
  rewrite filter_cons. simpl. case_decide as Hs.
  - simpl. rewrite bool_decide_eq_true_2 by done.
    by destruct (missing_columns d).
  - rewrite bool_decide_eq_false_2; [done|]. by intros ?.
Qed.

Lemma update_sheets_without_all sheets state :
  foldl update_sheet state (filter (fun sheet => sheet.1 ≠ "ALL") sheets)
  = foldl update_sheet state sheets.
Proof.
  revert state. induction sheets as [|[s d] rest IH]; intros [idf stats];
    [done|].
  rewrite filter_cons. simpl. case_decide as Hs.
  - cbn [foldl]. apply IH.
  - cbn [foldl]. rewrite <- IH. f_equal. unfold update_sheet.
    rewrite bool_decide_eq_true_2; [done|].
    destruct (decide (s = "ALL")); [done|]. by destruct Hs.
Qed.

(** X9 -- The ALL sheet plays no part in an update: a run on a workbook
    and a run on the same workbook without its ALL sheet give the same
    statistics and hand the same graph to the save. *)
Theorem all_sheet_is_ignored original_idf excel_data saveas :
  update_idf_from_excel original_idf (Loaded excel_data) saveas
  = update_idf_from_excel original_idf
      (Loaded (filter (fun sheet => sheet.1 ≠ "ALL") excel_data)) saveas.
Proof.
  unfold update_idf_from_excel, read_excel_data.
  destruct original_idf as [e|idf]; [done|].
  rewrite check_columns_without_all.
  destruct (check_columns excel_data); [done|].
  by rewrite update_sheets_without_all.
Qed.


(** ** What an update keeps *)

Lemma kept_but_refl F o : kept_but F o o.
Proof. done. Qed.

Lemma kept_but_trans F o1 o2 o3 :
  kept_but F o1 o2 → kept_but F o2 o3 → kept_but F o1 o3.
Proof.
  intros (Hf1 & Hl1 & H1) (Hf2 & Hl2 & H2). split; [congruence|].
  split; [congruence|]. intros idx n Hn HF.
  transitivity (obj o2 !! idx);
    [apply (H2 idx n); [by rewrite Hf1 | done] | by apply (H1 idx n)].
Qed.

Lemma update_row_kept (F : string → Prop) object_type object_name df o stats
    row :
  (∀ n, cell df row "FieldName" = PyStr n → F n) →
  kept_but F o (update_row object_type object_name df (o, stats) row).1.
Proof.
  intros HF. unfold update_row.
  destruct (py_index _ (fieldnames o)) as [idx|] eqn:Hi; [|done].
  destruct (obj o !! idx) as [cur|] eqn:Hv; [|done].
  case_bool_decide; [|done]. cbn [fst]. unfold set_field.
  split; [done|]. split; [apply length_insert|].
  intros idx' n Hn Hnot. cbn [obj fieldnames] in *.
  destruct (decide (idx = idx')) as [<-|Hne].
  - apply py_index_lookup in Hi as (n' & Hn' & Hf).
    rewrite Hn in Hn'. injection Hn' as <-. destruct Hnot. by apply HF.
  - by rewrite list_lookup_insert_ne.
Qed.

Lemma update_group_kept (F : string → Prop) object_type df idf_objects stats
    object_name group_rows :
  (∀ row n, row ∈ group_rows → cell df row "FieldName" = PyStr n → F n) →
  Forall2 (kept_but F) idf_objects
    (update_group object_type df (idf_objects, stats)
                  (object_name, group_rows)).1.
Proof.
  intros HF. unfold update_group.
  assert (Forall2 (kept_but F) idf_objects idf_objects) as Hrefl.
  { apply Forall_Forall2_diag, Forall_forall. intros. apply kept_but_refl. }
  destruct (find_matching idf_objects object_name) as [[i o]|] eqn:Hfind;
    [|done].
  pose proof (foldl_invariant (fun s => kept_but F o s.1)
                (update_row object_type object_name df) group_rows (o, stats)
                (kept_but_refl F o)) as Hinv.
  destruct (foldl _ _ _) as [o' stats']. simpl in *.
  apply find_matching_Some in Hfind as (Hio & _).
  rewrite <- (list_insert_id idf_objects i o Hio) at 1.
  apply Forall2_insert; [done|]. apply Hinv.
  intros [o1 st1] row Hrow Hk. simpl in *.
  apply kept_but_trans with o1; [done|].
  apply update_row_kept. intros n. by apply HF.
Qed.

Lemma update_groups_kept (F : string → Prop) object_type df groups
    idf_objects stats :
  (∀ k rs row n, (k, rs) ∈ groups → row ∈ rs →
                 cell df row "FieldName" = PyStr n → F n) →
  Forall2 (kept_but F) idf_objects
    (foldl (update_group object_type df) (idf_objects, stats) groups).1.
Proof.
  intros HF.
  apply (foldl_invariant (fun s => Forall2 (kept_but F) idf_objects s.1)).
  - apply Forall_Forall2_diag, Forall_forall. intros. apply kept_but_refl.
  - intros [objs st] [k rs] Hg H. simpl in *.
    eapply Forall2_trans; [apply kept_but_trans | exact H |].
    apply update_group_kept. intros row n ? ?. by apply (HF k rs row).
Qed.

Lemma dict_keys_set {V} (d : Dict.t V) k v v' :
  Dict.get d k = Some v → Dict.keys (Dict.set d k v') = Dict.keys d.
Proof.
  unfold Dict.keys. induction d as [|[k0 v0] d IH]; simpl; [done|].
  case_bool_decide; simpl; [done|]. intros ?. f_equal. by apply IH.
Qed.

(** X11 -- An update keeps the shape of the graph and everything it was
    not asked to change: the graph handed to the save has the same object
    types in the same order and, type by type, the same number of
    instances, each with its field names and its number of populated
    values; and the value of a field stays what it was unless some row
    names that field on a sheet that resolves to the type (a sheet other
    than ALL whose trimmed name is, in upper case, the key of the type). *)
Theorem update_keeps_the_rest idf excel_data saveas stats idf' :
  update_idf_from_excel (Loaded idf) (Loaded excel_data) saveas
    = (stats, Some idf') →
  Dict.keys idf' = Dict.keys idf ∧
  ∀ key idf_objects,
    Dict.get idf key = Some idf_objects →
    ∃ idf_objects',
      Dict.get idf' key = Some idf_objects' ∧
      length idf_objects' = length idf_objects ∧
      ∀ i o, idf_objects !! i = Some o →
        ∃ o', idf_objects' !! i = Some o' ∧
              fieldnames o' = fieldnames o ∧
              length (obj o') = length (obj o) ∧
              ∀ idx n, fieldnames o !! idx = Some n →
                       ¬ named_field excel_data key n →
                       obj o' !! idx = obj o !! idx.
Proof.
  unfold update_idf_from_excel, read_excel_data.
  destruct (check_columns excel_data); [done|].
  set (Q := fun g : IDF =>
         Dict.keys g = Dict.keys idf ∧
         ∀ t objs, Dict.get idf t = Some objs →
           ∃ objs', Dict.get g t = Some objs' ∧
                    Forall2 (kept_but (named_field excel_data t)) objs objs').
  assert (Q (foldl update_sheet (idf, initial_stats) excel_data).1) as HQ.
  { apply (foldl_invariant (fun s => Q s.1)).
    - split; [done|]. intros t objs Ht. exists objs. split; [done|].
      apply Forall_Forall2_diag, Forall_forall. intros. apply kept_but_refl.
    - intros [g st] [sn df] Hsheet [Hkeys Hrel]. simpl in *.
      unfold update_sheet. case_bool_decide as Hall; [by split|].
      destruct (Dict.get g (upper (strip sn))) as [objs1|] eqn:Hget;
        [|by split].
      pose proof (update_groups_kept (named_field excel_data (upper (strip sn)))
                    (strip sn) df (groupby_ObjectName df) objs1 st) as Hk.
      destruct (foldl _ (objs1, st) _) as [objs1' st']. simpl in *.
      split; [by rewrite (dict_keys_set _ _ objs1)|].
      intros t objs Ht. rewrite dict_get_set.
      destruct (Hrel t objs Ht) as (objs0 & Hg0 & Hf0).
      case_bool_decide as Ht0; [|by exists objs0].
      subst t. rewrite Hget in Hg0. injection Hg0 as <-.
      exists objs1'. split; [done|].
      eapply Forall2_trans; [apply kept_but_trans | exact Hf0 |].
      apply Hk. intros k rs row n Hg Hr Hn.
      destruct (elem_of_group _ _ _ _ Hg Hr) as [Hrow _].
      by exists sn, df, row. }
  destruct (foldl update_sheet _ _) as [g st]. simpl in HQ.
  intros Hrun. assert (g = idf') as -> by (destruct (saveas g); congruence).
  destruct HQ as [Hkeys Hrel]. split; [done|].
  intros t objs Ht. destruct (Hrel t objs Ht) as (objs' & Hg & Hf).
  exists objs'. split; [done|]. split; [symmetry; by eapply Forall2_length|].
  intros i o Hi.
  destruct (Forall2_lookup_l _ _ _ _ _ Hf Hi) as (o' & Hi' & Hk).
  exists o'. by destruct Hk as (? & ? & ?).
Qed.

Lemma update_keeps_the_rest_witness :
  Dict.keys edited_idf = Dict.keys example_idf ∧
  ∀ key idf_objects,
    Dict.get example_idf key = Some idf_objects →
    ∃ idf_objects',
      Dict.get edited_idf key = Some idf_objects' ∧
      length idf_objects' = length idf_objects ∧
      ∀ i o, idf_objects !! i = Some o →
        ∃ o', idf_objects' !! i = Some o' ∧
              fieldnames o' = fieldnames o ∧
              length (obj o') = length (obj o) ∧
              ∀ idx n, fieldnames o !! idx = Some n →
                       ¬ named_field restating_workbook key n →
                       obj o' !! idx = obj o !! idx.
Proof.
  apply (update_keeps_the_rest example_idf restating_workbook saves
           (update_idf_from_excel (Loaded example_idf)
                                  (Loaded restating_workbook) saves).1).
  vm_compute. reflexivity.
Defined.

Lemma calm_refl {A} (s : A * UpdateStats) : calm s s.
Proof. by split. Qed.

Lemma calm_trans {A} (s1 s2 s3 : A * UpdateStats) :
  calm s1 s2 → calm s2 s3 → calm s1 s3.
Proof.
  intros [Hle1 H1] [Hle2 H2]. split; [lia|]. intros He.
  rewrite H2, H1; [done | lia | lia].
Qed.

Lemma foldl_calm {A B} (f : A * UpdateStats → B → A * UpdateStats)
    (l : list B) s :
  (∀ s b, calm s (f s b)) → calm s (foldl f s l).
Proof.
  intros Hf. apply (foldl_invariant (calm s)); [apply calm_refl|].
  intros s' b _ H. by apply calm_trans with s'.
Qed.

Lemma update_row_calm object_type object_name df s row :
  calm s (update_row object_type object_name df s row).
Proof.
  destruct s as [o stats]. unfold update_row, calm.
  destruct (py_index _ (fieldnames o)) as [idx|]; [|by split].
  destruct (obj o !! idx) as [cur|]; [|by split].
  case_bool_decide; [|by split]. simpl. split; lia.
Qed.

Lemma update_group_calm object_type df s group :
  calm s (update_group object_type df s group).
Proof.
  destruct s as [objs stats], group as [k rs]. unfold update_group.
  destruct (find_matching objs k) as [[i o]|] eqn:Hfind; [|by split].
  pose proof (foldl_calm (update_row object_type k df) rs (o, stats)
                (update_row_calm object_type k df)) as [Hle Heq].
  destruct (foldl _ _ _) as [o' stats']. simpl in *.
  split; [done|]. intros He. rewrite (Heq He). apply list_insert_id.
  by apply find_matching_Some in Hfind as (? & _).
Qed.

Lemma update_sheet_calm s sheet : calm s (update_sheet s sheet).
Proof.
  destruct s as [idf stats], sheet as [sn df]. unfold update_sheet.
  case_bool_decide; [by split|].
  destruct (Dict.get idf (upper (strip sn))) as [objs|] eqn:Hget; [|by split].
  pose proof (foldl_calm (update_group (strip sn) df) (groupby_ObjectName df)
                (objs, stats) (update_group_calm (strip sn) df)) as [Hle Heq].
  destruct (foldl _ _ _) as [objs' stats']. simpl in *.
  split; [done|]. intros He. rewrite (Heq He). by apply dict_set_id.
Qed.

(** X12 -- A run that counts no successful update hands to the save the
    graph it was given, unchanged. *)
Theorem no_update_no_change idf excel_data saveas stats idf' :
  update_idf_from_excel (Loaded idf) (Loaded excel_data) saveas
    = (stats, Some idf') →
  successful_updates stats = 0 →
  idf' = idf.
Proof.
  unfold update_idf_from_excel, read_excel_data.
  destruct (check_columns excel_data); [done|].
  pose proof (foldl_calm update_sheet excel_data (idf, initial_stats)
                update_sheet_calm) as [_ Heq].
  destruct (foldl update_sheet _ _) as [g st]. simpl in *.
  destruct (saveas g); intros [= <- <-] Hz; by apply Heq.
Qed.

Lemma no_update_no_change_witness : example_idf = example_idf.
Proof.
  apply (no_update_no_change example_idf [("ZONE", ghost_frame)] saves
           (update_idf_from_excel (Loaded example_idf)
                                  (Loaded [("ZONE", ghost_frame)]) saves).1
           example_idf); reflexivity.
Defined.

(** ** What the update log holds *)

Lemma update_row_log excel_data sheet_name df object_name o stats row :
  (sheet_name, df) ∈ excel_data → sheet_name ≠ "ALL" → row ∈ rows df →
  cell df row "ObjectName" = object_name →
  Forall (edit_of excel_data) (updated_objects stats) →
  Forall (edit_of excel_data)
    (updated_objects
       (update_row (strip sheet_name) object_name df (o, stats) row).2).
Proof.
  intros Hs Hall Hrow Hk Hlog. unfold update_row.
  destruct (py_index _ (fieldnames o)) as [idx|]; [|done].
  destruct (obj o !! idx) as [cur|]; [|done].
  case_bool_decide as Hne; [|done]. simpl.
  apply Forall_app. split; [done|]. apply Forall_singleton.
  split; [done|]. by exists sheet_name, df, row.
Qed.

(** X13 -- The update log holds real edits only: every UpdateRecord of a
    run has an old value that differs from its new value, and renders one
    row of a sheet other than ALL: its type is the sheet's trimmed name,
    and its object name, field name and new value are the row's. *)
Theorem update_log_holds_edits idf excel_data saveas stats output :
  update_idf_from_excel (Loaded idf) (Loaded excel_data) saveas
    = (stats, output) →
  ∀ r, r ∈ updated_objects stats →
    old_value r ≠ new_value r ∧
    ∃ sheet_name df row,
      (sheet_name, df) ∈ excel_data ∧ sheet_name ≠ "ALL" ∧ row ∈ rows df ∧
      object_type r = strip sheet_name ∧
      object_name r = cell df row "ObjectName" ∧
      field_name r = cell df row "FieldName" ∧
      new_value r = str (cell df row "Value").
Proof.
  intros Hrun.
  assert (Forall (edit_of excel_data) (updated_objects stats)) as Hlog.
  { unfold update_idf_from_excel, read_excel_data in Hrun.
    destruct (check_columns excel_data).
    { injection Hrun as <- <-. by apply Forall_nil. }
    pose proof (foldl_invariant
                  (fun s : IDF * UpdateStats =>
                     Forall (edit_of excel_data) (updated_objects s.2))
                  update_sheet excel_data (idf, initial_stats)) as Hinv.
    destruct (foldl update_sheet _ _) as [g st].
    assert (updated_objects stats = updated_objects st) as ->.
    { destruct (saveas g); by injection Hrun as <- _. }
    apply Hinv; [by apply Forall_nil|].
    intros [g0 st0] [sn df] Hsheet Hl. simpl in *. unfold update_sheet.
    case_bool_decide as Hall; [done|].
    destruct (Dict.get g0 (upper (strip sn))) as [objs|]; [|done].
    pose proof (foldl_invariant
                  (fun s : list EpBunch * UpdateStats =>
                     Forall (edit_of excel_data) (updated_objects s.2))
                  (update_group (strip sn) df) (groupby_ObjectName df)
                  (objs, st0) Hl) as Hinv2.
    destruct (foldl _ (objs, st0) _) as [objs' st']. simpl in *.
    apply Hinv2. intros [objs1 st1] [k rs] Hg Hl1. simpl in *.
    unfold update_group.
    destruct (find_matching objs1 k) as [[i o]|]; [|done].
    pose proof (foldl_invariant
                  (fun s : EpBunch * UpdateStats =>
                     Forall (edit_of excel_data) (updated_objects s.2))
                  (update_row (strip sn) k df) rs (o, st1) Hl1) as Hinv3.
    destruct (foldl _ (o, st1) _) as [o' st1']. simpl in *.
    apply Hinv3. intros [o2 st2] row Hr Hl2. simpl in *.
    destruct (elem_of_group _ _ _ _ Hg Hr) as [Hrow Hk].
    by apply (update_row_log excel_data sn df k o2 st2 row). }
  intros r Hr. rewrite Forall_forall in Hlog. apply (Hlog r Hr).
Qed.

Lemma update_log_holds_edits_witness :
  Forall (fun r =>
            old_value r ≠ new_value r ∧
            ∃ sheet_name df row,
              (sheet_name, df) ∈ conflicting_workbook ∧ sheet_name ≠ "ALL" ∧
              row ∈ rows df ∧
              object_type r = strip sheet_name ∧
              object_name r = cell df row "ObjectName" ∧
              field_name r = cell df row "FieldName" ∧
              new_value r = str (cell df row "Value"))
    (updated_objects
       (update_idf_from_excel (Loaded material_idf)
                              (Loaded conflicting_workbook) saves).1).
Proof.
  apply Forall_forall.
  apply (update_log_holds_edits material_idf conflicting_workbook saves _
           (update_idf_from_excel (Loaded material_idf)
                                  (Loaded conflicting_workbook) saves).2).
  by destruct (update_idf_from_excel _ _ _).
Defined.

(** X14 -- Edits land where they were aimed: when no two rows ask for
    different texts in the same field of the same object of the same type
    and no row asks for another name, then in the graph handed to the save
    every row whose object is found and whose field is populated finds
    there a value whose text is the row's Value. *)
Theorem edits_land idf excel_data saveas stats idf' :
  conflict_free excel_data = true →
  keeps_names excel_data = true →
  update_idf_from_excel (Loaded idf) (Loaded excel_data) saveas
    = (stats, Some idf') →
  ∀ sheet_name df row idf_objects i o idx current,
    (sheet_name, df) ∈ excel_data → sheet_name ≠ "ALL" → row ∈ rows df →
    Dict.get idf' (upper (strip sheet_name)) = Some idf_objects →
    find_matching idf_objects (cell df row "ObjectName") = Some (i, o) →
    py_index (cell df row "FieldName") (fieldnames o) = Some idx →
    obj o !! idx = Some current →
    str current = str (cell df row "Value").
Proof.
  intros Hcf Hkn Hrun. unfold update_idf_from_excel, read_excel_data in Hrun.
  destruct (check_columns excel_data); [done|].
  pose proof (update_sheets_settle (fun a => a ∈ addresses excel_data)
                (fun a b Ha Hb => conflict_free_spec excel_data a b Hcf Ha Hb)
                (fun a Ha => keeps_names_spec excel_data a Hkn Ha)
                excel_data idf initial_stats (fun _ => False)) as H.
  destruct (foldl update_sheet _ _) as [g st].
  assert (g = idf') as -> by (destruct (saveas g); congruence).
  cbn [fst] in H.
  intros sn df row objs i o idx cur Hs Hall Hrow Hget Hfind Hi Hv.
  assert (settled o (cell df row "FieldName") (str (cell df row "Value")))
    as Hset.
  { apply (H ltac:(done)
             ltac:(intros sheet b ? ?; apply elem_of_addresses_inv; eauto)
             ltac:(by intros ???? [])
             (row_address sn df row) objs i o); [|done..].
    right. exists (sn, df). split; [done|].
    unfold sheet_addresses. simpl. rewrite bool_decide_eq_false_2 by done.
    apply elem_of_map. by exists row. }
  by apply (Hset idx cur).
Qed.

Lemma edits_land_witness :
  conflict_free restating_workbook = true ∧
  keeps_names restating_workbook = true ∧
  ∀ sheet_name df row idf_objects i o idx current,
    (sheet_name, df) ∈ restating_workbook → sheet_name ≠ "ALL" →
    row ∈ rows df →
    Dict.get edited_idf (upper (strip sheet_name)) = Some idf_objects →
    find_matching idf_objects (cell df row "ObjectName") = Some (i, o) →
    py_index (cell df row "FieldName") (fieldnames o) = Some idx →
    obj o !! idx = Some current →
    str current = str (cell df row "Value").
Proof.
  split; [reflexivity|]. split; [reflexivity|].
  apply (edits_land example_idf restating_workbook saves
           (update_idf_from_excel (Loaded example_idf)
                                  (Loaded restating_workbook) saves).1
           edited_idf).
  - reflexivity.
  - reflexivity.
  - vm_compute. reflexivity.
Defined.

(** ** What the extraction emits *)

Lemma dict_set_new {V} (d : Dict.t V) k v :
  k ∉ Dict.keys d → Dict.set d k v = d ++ [(k, v)].
Proof.
  unfold Dict.keys. induction d as [|[k0 v0] d IH]; simpl; [done|].
  intros [Hne Hd]%not_elem_of_cons.
  rewrite bool_decide_eq_false_2 by done. f_equal. by apply IH.
Qed.

Lemma extract_types_entries idf (rest : list (string * list EpBunch)) acc :
  (∀ item, item ∈ rest → Dict.get idf item.1 = Some item.2) →
  NoDup rest.*1 → (∀ t, t ∈ rest.*1 → t ∉ Dict.keys acc) →
  extract_types idf rest.*1 acc = acc ++ omap type_entry rest.
Proof.
  revert acc. induction rest as [|[t objs] rest IH]; intros acc Hget Hnd Hfresh.
  { simpl. by rewrite app_nil_r. }
  rewrite fmap_cons in Hnd. apply NoDup_cons in Hnd as [Ht Hnd].
  assert (∀ item, item ∈ rest → Dict.get idf item.1 = Some item.2) as Hget'.
  { intros item ?. apply Hget. by apply list_elem_of_further. }
  assert (∀ t', t' ∈ rest.*1 → t' ∉ Dict.keys acc) as Hfresh'.
  { intros t' ?. apply Hfresh. rewrite fmap_cons. by apply list_elem_of_further. }
  rewrite fmap_cons. cbn [extract_types fst].
  pose proof (Hget (t, objs) (list_elem_of_here _ _)) as Hg.
  cbn [fst snd] in Hg. rewrite Hg.
  cbn [omap list_omap]. unfold type_entry at 1. cbn [fst snd].
  destruct objs as [|o objs]; [by apply IH|].
  destruct (objects_records (o :: objs)) as [|r rs] eqn:Er; [by apply IH|].
  rewrite dict_set_new.
  2:{ apply Hfresh. rewrite fmap_cons. apply list_elem_of_here. }
  rewrite IH; [by rewrite <- app_assoc | done | done |].
  intros t' Ht'. unfold Dict.keys. rewrite fmap_app.
  apply not_elem_of_app. split; [by apply Hfresh'|].
  simpl. rewrite list_elem_of_singleton. by intros ->.
Qed.

(** X15 -- What the extraction emits, in closed form: for a graph with one
    entry per object type, the result holds one entry per type that yields
    at least one record, in graph order, with the records of the type's
    instances; a type with no instance, or whose instances yield no
    record, has no entry. *)
Theorem extraction_entries idf :
  NoDup (Dict.keys idf) →
  extract_idf_data (Loaded idf) = Some (omap type_entry idf).
Proof.
  intros Hnd. simpl. f_equal. unfold Dict.keys in *.
  rewrite extract_types_entries; [done | | done |].
  - intros [t objs] Hin. by apply dict_get_NoDup.
  - intros t _. apply not_elem_of_nil.
Qed.

Lemma extraction_entries_witness :
  extract_idf_data (Loaded example_idf) = Some (omap type_entry example_idf).
Proof.
  apply (extraction_entries example_idf).
  apply (bool_decide_unpack _). vm_compute. exact I.
Defined.

(** ** What the writer puts on the sheets *)

Lemma tagged_row obj_type o field_name field_value :
  map (fun c => default PyNaN
                  (Dict.get (tagged_record obj_type
                               (flat_record o field_name field_value)) c))
      all_columns
  = PyStr obj_type ::
    map (fun c => default PyNaN
                    (Dict.get (flat_record o field_name field_value) c))
        record_columns.
Proof. done. Qed.

Lemma extracted_data_flat idf data :
  extract_idf_data (Loaded idf) = Some data →
  ∀ item, item ∈ data →
    item.2 ≠ [] ∧ ∀ r, r ∈ item.2 → ∃ o fn v, r = flat_record o fn v.
Proof. intros [= <-] [t recs] ?. by apply (extract_types_flat idf t). Qed.

Lemma all_data_nonempty (data : Dict.t (list record)) :
  data ≠ [] → (∀ item, item ∈ data → item.2 ≠ []) →
  concat (map (fun item => map (tagged_record item.1) item.2) data) ≠ [].
Proof.
  destruct data as [|[t recs] rest]; [done|]. intros _ H.
  specialize (H (t, recs) (list_elem_of_here _ _)). simpl in *.
  by destruct recs.
Qed.

Lemma map_ext_elem_of {A B} (f g : A → B) (l : list A) :
  (∀ x, x ∈ l → f x = g x) → map f l = map g l.
Proof.
  induction l as [|x l IH]; intros H; simpl; [done|].
  rewrite (H x) by apply list_elem_of_here. f_equal. apply IH.
  intros y ?. apply H. by apply list_elem_of_further.
Qed.

(** X16 -- The ALL sheet stacks the type sheets: for the data the
    extraction produces, the first call the writer plans is for ALL, and
    the rows of its frame are the rows of the per-type frames, type after
    type in data order, each with the object type in front; when the
    library lets the calls through, that call is the first one made. *)
Theorem all_sheet_stacks_type_sheets writer idf data path individual :
  extract_idf_data (Loaded idf) = Some data →
  data ≠ [] →
  ∃ all_df,
    head (planned_calls data individual) = Some ("ALL", all_df) ∧
    (accepts writer (planned_calls data individual) →
     head (to_excel (write_data_to_excel writer (Some data) path individual))
       = Some ("ALL", all_df)) ∧
    rows all_df
      = concat (map (fun item =>
                       map (cons (PyStr item.1)) (rows (DataFrame_of item.2)))
                    data).
Proof.
  intros Hdata Hne.
  pose proof (extracted_data_flat idf data Hdata) as Hflat.
  set (all_data :=
         concat (map (fun item => map (tagged_record item.1) item.2) data)).
  assert (all_data ≠ []) as Hall.
  { apply all_data_nonempty; [done|]. intros item Hi. by apply Hflat. }
  destruct (all_frame data Hall) as [Hcols _].
  { intros item r Hi Hr. by apply (Hflat item Hi). }
  assert (head (planned_calls data individual)
          = Some ("ALL", DataFrame_of all_data)) as Hhead.
  { rewrite planned_calls_eq. cbv zeta. fold all_data.
    by destruct all_data eqn:Ea. }
  exists (DataFrame_of all_data). split; [done|]. split.
  - intros Hacc. by rewrite write_accepted.
  - fold all_data in Hcols. unfold DataFrame_of at 1. cbn [rows].
    change (frame_columns all_data) with (columns (DataFrame_of all_data)).
    rewrite Hcols. unfold all_data. rewrite concat_map, map_map. f_equal.
    apply map_ext_elem_of. intros item Hi. rewrite map_map.
    destruct (Hflat item Hi) as [Hrecs Hitem].
    destruct (type_frame item.2 Hrecs Hitem) as [Hc _].
    unfold DataFrame_of at 1. cbn [rows].
    change (frame_columns item.2) with (columns (DataFrame_of item.2)).
    rewrite Hc, map_map. apply map_ext_elem_of. intros r Hr.
    destruct (Hitem r Hr) as (o & fn & v & ->). apply tagged_row.
Qed.

Lemma all_sheet_stacks_type_sheets_witness :
  let data := extract_types example_idf (Dict.keys example_idf) [] in
  ∃ all_df,
    head (planned_calls data false) = Some ("ALL", all_df) ∧
    (accepts accepting_writer (planned_calls data false) →
     head (to_excel (write_data_to_excel accepting_writer (Some data)
                                         "out.xlsx" false))
       = Some ("ALL", all_df)) ∧
    rows all_df
      = concat (map (fun item =>
                       map (cons (PyStr item.1)) (rows (DataFrame_of item.2)))
                    data).
Proof.
  apply (all_sheet_stacks_type_sheets accepting_writer example_idf _
           "out.xlsx" false).
  - reflexivity.
  - vm_compute. discriminate.
Defined.

Lemma last_two {A} (l : list A) a b : last (l ++ [a; b]) = Some b.
Proof.
  change [a; b] with ([a] ++ [b]). rewrite app_assoc. apply last_snoc.
Qed.

Lemma plan_lines data individual l :
  l ∈ map snd (plan data individual) → ∃ label n, l = RecordsLine label n.
Proof.
  rewrite planned_lines_eq. cbv zeta. intros [Hl|Hl]%elem_of_app.
  - destruct (concat _); [by apply elem_of_nil in Hl|].
    apply list_elem_of_singleton in Hl as ->. eauto.
  - destruct individual; [|by apply elem_of_nil in Hl].
    apply elem_of_map in Hl as (item & -> & _). eauto.
Qed.

(** X17 -- The report matches the calls.  For the data the extraction
    produces, either something raised (opening the container, a call, or
    closing it): then the last line printed is the error, and no total is
    printed; or every planned call returned: then the first line printed
    gives for ALL the sum of the record counts of the types, and the last
    line gives as total the number of [to_excel] calls made, two calls
    under one sheet name counting twice. *)
Theorem report_matches_writing writer idf data path individual :
  extract_idf_data (Loaded idf) = Some data →
  data ≠ [] →
  let result := write_data_to_excel writer (Some data) path individual in
  ((∃ e, last (printed result) = Some (ErrorLine e)) ∧
   ∀ n, TotalLine n ∉ printed result) ∨
  (to_excel result = planned_calls data individual ∧
   head (printed result)
     = Some (RecordsLine "ALL"
               (sum_list (map (fun item => length item.2) data))) ∧
   last (printed result) = Some (TotalLine (length (to_excel result)))).
Proof.
  intros Hdata Hne.
  pose proof (extracted_data_flat idf data Hdata) as Hflat.
  set (all_data :=
         concat (map (fun item => map (tagged_record item.1) item.2) data)).
  assert (all_data ≠ []) as Hall.
  { apply all_data_nonempty; [done|]. intros item Hi. by apply Hflat. }
  assert (length all_data = sum_list (map (fun item => length item.2) data))
    as Hlen.
  { unfold all_data. clear. induction data as [|item data IH]; simpl; [done|].
    by rewrite length_app, length_map, IH. }
  assert (∀ lines e,
            (∀ l, l ∈ lines → ∃ label n, l = RecordsLine label n) →
            (∃ e', last (lines ++ [ErrorLine e]) = Some (ErrorLine e')) ∧
            ∀ n, TotalLine n ∉ lines ++ [ErrorLine e]) as Herr.
  { intros lines e Hl. split; [exists e; apply last_snoc|].
    intros n [Hn|Hn]%elem_of_app.
    - by destruct (Hl _ Hn) as (? & ? & ?).
    - by apply list_elem_of_singleton in Hn. }
  rewrite write_data_nonempty by done. unfold write_sheets.
  destruct (open_writer writer) as [e|u].
  { left. apply (Herr [] e). by intros l ?%elem_of_nil. }
  destruct (issue_calls writer [] [] (plan data individual)) as [w err] eqn:E.
  apply issue_calls_trace in E as (returned & [k Hk] & Hcalls & Hlines & Hdone).
  cbn [app] in Hcalls, Hlines.
  assert (∀ l, l ∈ printed w → ∃ label n, l = RecordsLine label n) as Hrec.
  { intros l Hl. apply (plan_lines data individual). rewrite Hk, map_app.
    apply elem_of_app. left. by rewrite <- Hlines. }
  destruct err as [e|]; [left; by apply Herr|].
  destruct (close_writer writer (to_excel w)) as [e|u'];
    [left; by apply Herr|].
  right. cbn [to_excel printed]. rewrite (Hdone eq_refl) in *.
  fold (planned_calls data individual) in Hcalls.
  split; [done|]. rewrite Hlines, Hcalls. split.
  - rewrite planned_lines_eq. cbv zeta. fold all_data.
    destruct all_data eqn:Ea; [done|]. simpl in *. by rewrite Hlen.
  - rewrite last_two. do 2 f_equal.
    rewrite planned_calls_eq. cbv zeta. fold all_data.
    destruct all_data eqn:Ea; [done|]. rewrite length_app. simpl.
    destruct individual; [by rewrite length_map | done].
Qed.

Lemma report_matches_writing_witness :
  let data := extract_types airflow_idf (Dict.keys airflow_idf) [] in
  let result :=
    write_data_to_excel accepting_writer (Some data) "out.xlsx" true in
  ((∃ e, last (printed result) = Some (ErrorLine e)) ∧
   ∀ n, TotalLine n ∉ printed result) ∨
  (to_excel result = planned_calls data true ∧
   head (printed result)
     = Some (RecordsLine "ALL"
               (sum_list (map (fun item => length item.2) data))) ∧
   last (printed result) = Some (TotalLine (length (to_excel result)))).
Proof.
  apply (report_matches_writing accepting_writer airflow_idf _ "out.xlsx" true).
  - reflexivity.
  - vm_compute. discriminate.
Defined.

(** A type whose sanitised name is empty, with a library that refuses a
    sheet without a name: the ALL call returns, the call for the type
    raises, and the report ends with the error. *)
Example nameless_sheet_is_refused :
  let data := [("::", [flat_record room101 "Name" (PyStr "Room101")])] in
  let result := write_data_to_excel naming_writer (Some data) "out.xlsx" true in
  sheet_name_of "::" = "" ∧
  (to_excel result).*1 = ["ALL"] ∧
  printed result = [RecordsLine "ALL" 1; ErrorLine "Invalid sheet name"].
Proof. vm_compute. done. Qed.

(** ** Worksheet names and object types *)

Lemma string_forall_join_if p s : string_forall p (join_if p s) = true.
Proof.
  induction s as [|c s IH]; simpl; [done|].
  destruct (p c) eqn:E; simpl; [by rewrite E|done].
Qed.

Lemma string_forall_rstrip p s :
  string_forall p s = true → string_forall p (rstrip s) = true.
Proof.
  induction s as [|c s IH]; simpl; [done|].
  intros [Hc Hs]%andb_true_iff. specialize (IH Hs).
  destruct (rstrip s) as [|c' r].
  - destruct (isspace c); simpl; [done|]. by rewrite Hc.
  - cbn [string_forall] in *. by rewrite Hc.
Qed.

Lemma string_forall_lstrip p s :
  string_forall p s = true → string_forall p (lstrip s) = true.
Proof.
  induction s as [|c s IH]; simpl; [done|].
  intros H. destruct (isspace c); [|done].
  apply andb_true_iff in H as [_ Hs]. by apply IH.
Qed.

Lemma string_forall_substring p n s :
  string_forall p s = true →
  string_forall p (String.substring 0 n s) = true.
Proof.
  revert s. induction n as [|n IH]; intros [|c s]; simpl; try done.
  intros [Hc Hs]%andb_true_iff. by rewrite Hc, IH.
Qed.

Lemma join_if_id p s : string_forall p s = true → join_if p s = s.
Proof.
  induction s as [|c s IH]; simpl; [done|].
  intros [Hc Hs]%andb_true_iff. by rewrite Hc, IH.
Qed.

Lemma substring_all n s :
  String.length s ≤ n → String.substring 0 n s = s.
Proof.
  revert s. induction n as [|n IH]; intros [|c s]; simpl; try done; [lia|].
  intros ?. rewrite IH; [done | lia].
Qed.

Lemma rstrip_length s : String.length (rstrip s) ≤ String.length s.
Proof.
  induction s as [|c s IH]; simpl; [done|].
  destruct (rstrip s) as [|c' r]; [destruct (isspace c)|]; simpl in *; lia.
Qed.

Lemma lstrip_shorter s :
  lstrip s = s ∨ String.length (lstrip s) < String.length s.
Proof.
  induction s as [|c s IH]; simpl; [by left|].
  destruct (isspace c); [|by left]. right. destruct IH as [->|?]; lia.
Qed.

Lemma strip_fixed s : strip s = s → lstrip s = s ∧ rstrip s = s.
Proof.
  unfold strip. intros H.
  destruct (lstrip_shorter s) as [Hl|Hlt].
  - rewrite Hl in H. done.
  - pose proof (rstrip_length (lstrip s)) as Hr. rewrite H in Hr. lia.
Qed.

Lemma sheet_name_chars obj_type :
  string_forall sheet_char (sheet_name_of obj_type) = true ∧
  string_forall sheet_char (strip (sheet_name_of obj_type)) = true.
Proof.
  assert (string_forall sheet_char (sheet_name_of obj_type) = true) as H.
  { apply string_forall_substring, string_forall_rstrip.
    apply (string_forall_join_if sheet_char). }
  split; [done|]. by apply string_forall_rstrip, string_forall_lstrip.
Qed.

Lemma string_forall_app p s t :
  string_forall p (s +:+ t) = string_forall p s && string_forall p t.
Proof.
  induction s as [|c s IH]; [done|].
  rewrite string_app_cons. simpl. by rewrite IH, andb_assoc.
Qed.

Lemma string_forall_both p q r s :
  (∀ c, p c = true → q c = true → r c = true) →
  string_forall p s = true → string_forall q s = true →
  string_forall r s = true.
Proof.
  intros H. induction s as [|c s IH]; simpl; [done|].
  intros [Hp Hps]%andb_true_iff [Hq Hqs]%andb_true_iff.
  by rewrite (H c), IH.
Qed.

Lemma string_forall_kept p keep s :
  string_forall p s = true → string_forall p (join_if keep s) = true.
Proof.
  induction s as [|c s IH]; simpl; [done|].
  intros [Hc Hs]%andb_true_iff. destruct (keep c); simpl; [|by apply IH].
  by rewrite Hc, IH.
Qed.

Lemma ascii_sheet_chars c :
  is_ascii c = true → sheet_char c = true → ascii_sheet_char c = true.
Proof. destruct c as [[] [] [] [] [] [] [] []]; by vm_compute. Qed.

Lemma upper_char_sheet c :
  sheet_char c = true → string_forall sheet_char (upper_char c) = true.
Proof. destruct c as [[] [] [] [] [] [] [] []]; by vm_compute. Qed.

Lemma string_forall_upper s :
  string_forall sheet_char s = true →
  string_forall sheet_char (upper s) = true.
Proof.
  induction s as [|c s IH]; simpl; [done|].
  intros [Hc Hs]%andb_true_iff.
  by rewrite string_forall_app, upper_char_sheet, IH.
Qed.

(** X18 -- A worksheet name is clean: whatever the object type, the name
    the writer gives its sheet holds only characters that [str.isalnum]
    accepts, spaces and underscores, and at most 31 of them; for a type of
    ASCII characters these are the letters and digits of ASCII, the space
    and the underscore. *)
Theorem sheet_name_is_clean obj_type :
  string_forall sheet_char (sheet_name_of obj_type) = true ∧
  String.length (sheet_name_of obj_type) ≤ 31 ∧
  (string_forall is_ascii obj_type = true →
   string_forall ascii_sheet_char (sheet_name_of obj_type) = true).
Proof.
  split; [apply sheet_name_chars|]. split; [apply sheet_name_of_length|].
  intros Hascii.
  apply (string_forall_both is_ascii sheet_char); [apply ascii_sheet_chars| |].
  - by apply string_forall_substring, string_forall_rstrip,
      string_forall_kept.
  - apply sheet_name_chars.
Qed.

(** X19 -- A clean type keeps its name: an object type of at most 31
    letters, digits, spaces and underscores with no white space at either
    end is written to a sheet of its own name, and the update engine, which
    trims the sheet name and looks it up by its upper case, reads the type
    back from it. *)
Theorem clean_type_keeps_its_name obj_type :
  string_forall sheet_char obj_type = true →
  strip obj_type = obj_type →
  String.length obj_type ≤ 31 →
  sheet_name_of obj_type = obj_type ∧
  strip (sheet_name_of obj_type) = obj_type ∧
  upper (strip (sheet_name_of obj_type)) = upper obj_type.
Proof.
  intros Hclean Hstrip Hlen.
  assert (sheet_name_of obj_type = obj_type) as Hname.
  { unfold sheet_name_of.
    rewrite (join_if_id sheet_char) by done.
    destruct (strip_fixed obj_type Hstrip) as [_ ->].
    by apply substring_all. }
  by rewrite Hname, Hstrip.
Qed.

Lemma clean_type_keeps_its_name_witness :
  sheet_name_of "Sizing_Parameters 1" = "Sizing_Parameters 1" ∧
  strip (sheet_name_of "Sizing_Parameters 1") = "Sizing_Parameters 1" ∧
  upper (strip (sheet_name_of "Sizing_Parameters 1"))
    = upper "Sizing_Parameters 1".
Proof.
  apply (clean_type_keeps_its_name "Sizing_Parameters 1").
  - reflexivity.
  - reflexivity.
  - simpl. lia.
Defined.

(** X20 -- A type with any other character loses its name: when an object
    type of ASCII characters holds one that is not a letter, a digit, a
    space or an underscore (the colon of BUILDINGSURFACE:DETAILED), its
    sheet is written under another name, and neither the trimmed sheet name
    nor its upper case, by which the update engine looks the type up, is
    the type. *)
Theorem marked_type_loses_its_name obj_type :
  string_forall is_ascii obj_type = true →
  string_forall sheet_char obj_type = false →
  sheet_name_of obj_type ≠ obj_type ∧
  strip (sheet_name_of obj_type) ≠ obj_type ∧
  upper (strip (sheet_name_of obj_type)) ≠ obj_type.
Proof.
  intros _ Hmark.
  destruct (sheet_name_chars obj_type) as [Hclean Hstripped].
  pose proof (string_forall_upper _ Hstripped) as Hupper.
  repeat split; intros Heq; rewrite Heq in *; congruence.
Qed.

Lemma marked_type_loses_its_name_witness :
  sheet_name_of "BUILDINGSURFACE:DETAILED" ≠ "BUILDINGSURFACE:DETAILED" ∧
  strip (sheet_name_of "BUILDINGSURFACE:DETAILED")
    ≠ "BUILDINGSURFACE:DETAILED" ∧
  upper (strip (sheet_name_of "BUILDINGSURFACE:DETAILED"))
    ≠ "BUILDINGSURFACE:DETAILED".
Proof.
  apply (marked_type_loses_its_name "BUILDINGSURFACE:DETAILED");
    reflexivity.
Defined.

(** ** Rows without an object name *)

Lemma filter_map_filter {A} (f : A → pyval) (l : list A) :
  filter (fun k => k ≠ PyNaN) (map f (filter (fun x => f x ≠ PyNaN) l))
  = filter (fun k => k ≠ PyNaN) (map f l).
Proof.
  induction l as [|x l IH]; [done|].
  rewrite filter_cons. cbn [map]. rewrite filter_cons.
  destruct (decide (f x ≠ PyNaN)) as [Hx|Hx].
  - cbn [map]. rewrite filter_cons. rewrite decide_True by done. by rewrite IH.
  - done.
Qed.

Lemma filter_filter_key {A} (f : A → pyval) (k : pyval) (l : list A) :
  k ≠ PyNaN →
  filter (fun x => f x = k) (filter (fun x => f x ≠ PyNaN) l)
  = filter (fun x => f x = k) l.
Proof.
  intros Hk. induction l as [|x l IH]; [done|].
  rewrite !filter_cons.
  destruct (decide (f x ≠ PyNaN)) as [Hx|Hx].
  - rewrite filter_cons. by rewrite IH.
  - rewrite IH. rewrite decide_False; [done|].
    intros Hfx. apply Hx. by rewrite Hfx.
Qed.

Lemma groupby_named_rows df :
  groupby_ObjectName (named_rows df) = groupby_ObjectName df.
Proof.
  unfold groupby_ObjectName.
  change (cell (named_rows df)) with (cell df).
  cbn [rows named_rows].
  rewrite (filter_map_filter (fun row => cell df row "ObjectName")).
  apply map_ext_elem_of. intros k Hk. f_equal.
  apply (filter_filter_key (fun row => cell df row "ObjectName")).
  rewrite merge_sort_Permutation, elem_of_remove_dups in Hk.
  by apply list_elem_of_filter in Hk as [? _].
Qed.

Lemma update_sheet_named_rows state sheet_name df :
  update_sheet state (sheet_name, named_rows df)
  = update_sheet state (sheet_name, df).
Proof.
  destruct state as [idf stats]. unfold update_sheet.
  by rewrite groupby_named_rows.
Qed.

Lemma check_columns_named_rows items :
  check_columns (map (fun sheet => (sheet.1, named_rows sheet.2)) items)
  = check_columns items.
Proof.
  induction items as [|[s d] rest IH]; [done|]. cbn [map check_columns fst snd].
  rewrite IH. done.
Qed.

(** X21 -- Rows without an object name are ignored: a row whose
    ObjectName cell is missing belongs to no group, so a run on a workbook
    and a run on the same workbook without those rows give the same
    statistics and hand the same graph to the save; such a row is neither
    applied nor counted as failed. *)
Theorem nameless_rows_are_ignored original_idf excel_data saveas :
  update_idf_from_excel original_idf (Loaded excel_data) saveas
  = update_idf_from_excel original_idf
      (Loaded (map (fun sheet => (sheet.1, named_rows sheet.2)) excel_data))
      saveas.
Proof.
  unfold update_idf_from_excel, read_excel_data.
  destruct original_idf as [e|idf]; [done|].
  rewrite check_columns_named_rows.
  destruct (check_columns excel_data); [done|].
  assert (∀ state,
            foldl update_sheet state
              (map (fun sheet => (sheet.1, named_rows sheet.2)) excel_data)
            = foldl update_sheet state excel_data) as H.
  { induction excel_data as [|[s d] rest IH]; intros state; [done|].
    cbn [map foldl fst snd]. by rewrite update_sheet_named_rows, IH. }
  by rewrite H.
Qed.
